(** * Intermezzo: transaction orchestration (chain.service.ts, wallet.service.ts,
      vault.service.ts), embedded as explicit state-and-exception passing.

    Layout of the development:
    - [JS]      : the fragment of JavaScript values the services rely on
                  (IEEE-754 doubles holding integers, truthiness, split);
    - data      : transactions as the encoder's decoded objects, DTOs;
    - [World]   : the vault and the algod node as deterministic oracles;
    - [M]       : a state + exception monad; the state is a ghost log of
                  every outward call, in program order;
    - [Vault], [Chain], [Wallet] : the three services, function by function;
    - [Scenario]: a concrete encoder and concrete worlds to run them in;
    - the vocabulary of the statements ([emits], [issues], ...);
    - the properties: group planning, submission and polling, funding and
      opt-in resolution, validation of groups, leases, sender routing. *)

From Stdlib Require Import ZArith NArith List String Ascii Bool Lia.
From Ceres Require Import Ceres.
Import ListNotations.

Local Open Scope string_scope.
Local Open Scope list_scope.
Local Open Scope Z_scope.

Definition bytes := list Byte.byte.

(* ===================================================================== *)
(** ** JavaScript values *)
(* ===================================================================== *)

Module JS.

(** A [number] holding an integer is a double: every integer of magnitude
    at most 2^53 is exact, larger ones are rounded to 53 significant bits,
    to nearest, ties to even.  [round_mag] does this on a magnitude (below
    2^1024, where doubles end; the services handle 64-bit quantities). *)
Definition two53 : Z := 2 ^ 53.

Definition round_mag (m : Z) : Z :=
  if m <=? two53 then m
  else
    let e := Z.log2 m - 52 in
    let q := Z.shiftr m e in
    let r := m - Z.shiftl q e in
    let half := Z.shiftl 1 (e - 1) in
    let q' := if r <? half then q
              else if half <? r then q + 1
              else if Z.even q then q else q + 1 in
    Z.shiftl q' e.

(** [Number(x)] for a bigint [x]. *)
Definition Number (z : Z) : Z := Z.sgn z * round_mag (Z.abs z).

(** [a + b] and [a - b] on numbers holding integers: the exact result,
    rounded once. *)
Definition add (a b : Z) : Z := Number (a + b).
Definition sub (a b : Z) : Z := Number (a - b).

(** A value is a safe integer when the double holds it exactly and so do
    its neighbours. *)
Definition safe (z : Z) : Prop := Z.abs z <= two53.

(** Truthiness of the values the services test with [if (x)]. *)
Definition truthy_string (s : string) : bool :=
  match s with EmptyString => false | _ => true end.

Definition truthy_opt_string (o : option string) : bool :=
  match o with Some s => truthy_string s | None => false end.

Definition truthy_num (z : Z) : bool := negb (z =? 0).

Definition truthy_opt_num (o : option Z) : bool :=
  match o with Some z => truthy_num z | None => false end.

(** [s.split(sep)] for a one-character separator. *)
Fixpoint split_go (sep : ascii) (cur : string) (s : string) : list string :=
  match s with
  | EmptyString => [cur]
  | String c rest =>
      if Ascii.eqb c sep then cur :: split_go sep EmptyString rest
      else split_go sep (String.append cur (String c EmptyString)) rest
  end.

Definition split (sep : ascii) (s : string) : list string :=
  split_go sep EmptyString s.

End JS.

(* ===================================================================== *)
(** ** Errors and results *)
(* ===================================================================== *)

(** What the services throw: a NestJS HTTP exception built with
    [new HttpErrorByCode[status](message)] (or
    [InternalServerErrorException], status 500), or an error without
    status: a plain [new Error(message)], or a TypeError of the engine. *)
Inductive Error : Type :=
| HttpException (status : Z) (message : string)
| JsError (message : string).

Definition message (e : Error) : string :=
  match e with
  | HttpException _ m => m
  | JsError m => m
  end.

(** [error.response?.statusCode]: only HTTP exceptions carry one. *)
Definition statusCode (e : Error) : option Z :=
  match e with
  | HttpException st _ => Some st
  | JsError _ => None
  end.

(** [HttpErrorByCode] of @nestjs/common, which both services import: the
    table maps a status to its exception class and has an entry for these
    nineteen statuses only. *)
Definition HttpErrorByCode (status : Z) : bool :=
  existsb (Z.eqb status)
    [400; 401; 403; 404; 405; 406; 408; 409; 410; 412; 413; 415; 418; 422;
     500; 501; 502; 503; 504].
Arguments HttpErrorByCode : simpl never.

(** [new HttpErrorByCode[status](message)] where the table has no entry
    for [status]: the lookup gives [undefined], and [new undefined(...)]
    throws a TypeError, which has neither status nor response.  The
    wording of its message is the engine's. *)
Definition NotAConstructor : Error :=
  JsError "HttpErrorByCode[error.response.status] is not a constructor".

(** What [throw new HttpErrorByCode[status](message)] throws. *)
Definition newHttpErrorByCode (status : Z) (message : string) : Error :=
  if HttpErrorByCode status then HttpException status message
  else NotAConstructor.

(** [error.response.status] where the caught error has no [response]:
    reading a property of [undefined] throws a TypeError, worded by the
    engine. *)
Definition NoResponse : Error :=
  JsError "Cannot read properties of undefined (reading 'status')".

Inductive Result (A : Type) : Type :=
| Ok (a : A)
| Throw (e : Error).
Arguments Ok {A} a.
Arguments Throw {A} e.

Definition is_throw {A} (r : Result A) : bool :=
  match r with Ok _ => false | Throw _ => true end.

(* ===================================================================== *)
(** ** Data: transactions and request objects *)
(* ===================================================================== *)

(** Asset parameters as [AssetParamsBuilder] collects them: a field is
    present only when the corresponding [add...] was called. *)
Record AssetParams : Type := mkAssetParams {
  apar_t  : option Z;        (* total *)
  apar_dc : option Z;        (* decimals *)
  apar_df : option bool;     (* default frozen *)
  apar_un : option string;   (* unit name *)
  apar_an : option string;   (* asset name *)
  apar_au : option string;   (* url *)
  apar_m  : option string;   (* manager address *)
  apar_r  : option string;   (* reserve address *)
  apar_f  : option string;   (* freeze address *)
  apar_c  : option string    (* clawback address *)
}.

(** The kind-specific part of a transaction object. *)
Inductive TxBody : Type :=
| Pay (rcv : string) (amt : Z)
| Axfer (xaid : Z) (arcv : string) (aamt : option Z) (asnd : option string)
| Acfg (apar : AssetParams).

(** A transaction object, as the builders produce it and as
    [decodeTransaction] returns it. *)
Record Transaction : Type := mkTransaction {
  snd : string;
  fee : Z;
  fv : Z;
  lv : Z;
  gen : string;
  gh : string;
  note : option string;
  lx : option bytes;
  grp : option bytes;
  body : TxBody
}.

Definition set_grp (t : Transaction) (g : bytes) : Transaction :=
  {| snd := snd t; fee := fee t; fv := fv t; lv := lv t; gen := gen t;
     gh := gh t; note := note t; lx := lx t; grp := Some g; body := body t |}.

Definition set_note (t : Transaction) (n : string) : Transaction :=
  {| snd := snd t; fee := fee t; fv := fv t; lv := lv t; gen := gen t;
     gh := gh t; note := Some n; lx := lx t; grp := grp t; body := body t |}.

Definition set_lx (t : Transaction) (l : bytes) : Transaction :=
  {| snd := snd t; fee := fee t; fv := fv t; lv := lv t; gen := gen t;
     gh := gh t; note := note t; lx := Some l; grp := grp t; body := body t |}.

(** The amount an asset transfer moves: an absent [aamt] is zero. *)
Definition asset_amount (t : Transaction) : option Z :=
  match body t with
  | Axfer _ _ (Some a) _ => Some a
  | Axfer _ _ None _ => Some 0
  | _ => None
  end.

(** [TruncatedSuggestedParamsResponse]. *)
Record SuggestedParams : Type := mkSuggestedParams {
  lastRound : Z;   (* bigint *)
  minFee : Z       (* number *)
}.

(** [TruncatedAccountResponse]: [amount] and [minBalance] are bigints. *)
Record AccountDetail : Type := mkAccountDetail {
  amount : Z;
  minBalance : Z;
  assets : list (Z * Z)
}.

(** The answer of [v2/transactions/pending/{txId}]. *)
Record PendingInfo : Type := mkPendingInfo {
  confirmed_round : option Z;
  pool_error : option string
}.

(** send-group.dto.ts *)
Inductive UserType : Type := user | manager.

Record User : Type := mkUser {
  id : string;
  public_address : string;
  type : UserType
}.

Record CreateAssetOptions : Type := mkCreateAssetOptions {
  total : Z;
  decimals : Z;
  defaultFrozen : bool;
  unitName : string;
  assetName : string;
  url : string;
  managerAddress : option string;
  reserveAddress : option string;
  freezeAddress : option string;
  clawbackAddress : option string
}.

Inductive GroupTxn : Type :=
| algo_transfer (sender receiver : User) (amount : Z)
| asset_transfer (assetId : Z) (sender receiver : User) (amount : Z)
| create_asset (sender : User) (options : CreateAssetOptions).

(** [Transaction] of send-group.dto.ts: the request and its fee. *)
Record GroupItem : Type := mkGroupItem {
  txn : GroupTxn;
  item_fee : Z
}.

Definition txn_sender (t : GroupTxn) : User :=
  match t with
  | algo_transfer s _ _ => s
  | asset_transfer _ s _ _ => s
  | create_asset s _ => s
  end.

(** ['receiver' in tx.txn ? tx.txn.receiver : undefined] *)
Definition txn_receiver (t : GroupTxn) : option User :=
  match t with
  | algo_transfer _ r _ => Some r
  | asset_transfer _ _ r _ => Some r
  | create_asset _ _ => None
  end.

(* ===================================================================== *)
(** ** The outside world: vault, node, encoder *)
(* ===================================================================== *)

(** The two transit mounts of the vault, named after the configuration
    entries that hold their paths. *)
Inductive TransitPath : Type :=
| VAULT_TRANSIT_USERS_PATH
| VAULT_TRANSIT_MANAGERS_PATH.

(** The algod endpoints that [makeAlgoNodeRequest] is called with. *)
Inductive NodeRequest : Type :=
| GET_transactions_params
| GET_accounts (public_address : string)
| GET_accounts_assets (public_address : string) (asset_id : Z)
| GET_transactions_pending (txId : string)
| GET_wait_for_block_after (round : Z)
| POST_transactions (data : bytes).

(** Ghost log: one entry per call that leaves the service, plus one per
    transaction object a craft function completes. *)
Inductive Event : Type :=
| VaultGetKey (path : TransitPath) (keyName : string)
| VaultSign (path : TransitPath) (keyName : string) (data : bytes)
| NodeCall (req : NodeRequest)
| Crafted (t : Transaction).

(** How a request to the vault ends: with an answer, with an error that
    carries the vault's HTTP response, or with an error that carries no
    response (the vault could not be reached). *)
Inductive VaultResult (A : Type) : Type :=
| VaultOk (a : A)
| VaultHttpError (status : Z)
| VaultNoResponse.
Arguments VaultOk {A} a.
Arguments VaultHttpError {A} status.
Arguments VaultNoResponse {A}.

(** How a request to the node ends: with an answer, with an error whose
    response has [status] and yields the message [text], or with an error
    without a response, whose own message is [msg]. *)
Inductive NodeResult (A : Type) : Type :=
| NodeOk (a : A)
| NodeHttpError (status : Z) (text : string)
| NodeNetworkError (msg : string).
Arguments NodeOk {A} a.
Arguments NodeHttpError {A} status text.
Arguments NodeNetworkError {A} msg.

(** The vault is a fixed key store for the duration of one call; the node
    answers as a function of how many requests it has served so far, so
    that successive polls may see different states. *)
Record World : Type := mkWorld {
  GENESIS_ID : string;
  GENESIS_HASH : string;
  VAULT_MANAGER_KEY : string;
  vault_key : TransitPath -> string -> VaultResult bytes;
  vault_sign : TransitPath -> string -> bytes -> VaultResult string;
  node_params : nat -> NodeResult SuggestedParams;
  node_account : nat -> string -> NodeResult AccountDetail;
  node_account_asset : nat -> string -> Z -> NodeResult unit;
  node_pending : nat -> string -> NodeResult PendingInfo;
  node_wait_block : nat -> Z -> NodeResult unit;
  node_post : nat -> bytes -> NodeResult string
}.

(** The encoder library (algo-models, algosdk) and [Buffer]: used through
    their interface only. *)
Class Encoder : Type := mkEncoder {
  encodeAddress : bytes -> string;
  encodeTransaction : Transaction -> bytes;
  decodeTransaction : bytes -> option Transaction;
  group_hash : list bytes -> bytes;
  addSignature : bytes -> bytes -> bytes;
  bytesToSign : Transaction -> bytes;
  base64_decode : string -> bytes;
  base64_encode : bytes -> string
}.

(* ===================================================================== *)
(** ** State and exceptions *)
(* ===================================================================== *)

Record St : Type := mkSt {
  clock : nat;            (* node requests served so far *)
  trace : list Event      (* oldest first *)
}.

Definition St0 : St := {| clock := 0; trace := [] |}.

Definition M (A : Type) : Type := St -> Result A * St.

Definition ret {A} (a : A) : M A := fun s => (Ok a, s).

Definition throw {A} (e : Error) : M A := fun s => (Throw e, s).

Definition bind {A B} (m : M A) (k : A -> M B) : M B :=
  fun s =>
    match m s with
    | (Ok a, s') => k a s'
    | (Throw e, s') => (Throw e, s')
    end.

(** [try { m } catch (error) { h error }] *)
Definition try_catch {A} (m : M A) (h : Error -> M A) : M A :=
  fun s =>
    match m s with
    | (Ok a, s') => (Ok a, s')
    | (Throw e, s') => h e s'
    end.

Definition lift {A} (r : Result A) : M A := fun s => (r, s).

Definition emit (ev : Event) : M unit :=
  fun s => (Ok tt, {| clock := clock s; trace := trace s ++ [ev] |}).

Declare Scope m_scope.
Delimit Scope m_scope with M.
Notation "x <- m ;; k" := (bind m (fun x => k))
  (at level 61, m at next level, right associativity) : m_scope.
Notation "m ;;; k" := (bind m (fun _ => k))
  (at level 61, right associativity) : m_scope.
Local Open Scope m_scope.

Definition result_of {A} (p : Result A * St) : Result A := fst p.
Definition state_of {A} (p : Result A * St) : St := Datatypes.snd p.

(** The events a run appends to the log of the state it starts from. *)
Definition events_of {A} (m : M A) (s : St) : list Event :=
  skipn (List.length (trace s)) (trace (state_of (m s))).

(** [for (const x of xs) { out.push(await f x) }] *)
Fixpoint for_each {A B} (f : A -> M B) (xs : list A) : M (list B) :=
  match xs with
  | [] => ret []
  | x :: rest =>
      y <- f x ;;
      ys <- for_each f rest ;;
      ret (y :: ys)
  end.

(* ===================================================================== *)
(** ** vault.service.ts *)
(* ===================================================================== *)

Module Vault.
Section Service.
Context (W : World).

(** [catch (error) { throw new HttpErrorByCode[error.response.status]
    ('VaultException') }], the handler of both requests, applied to the
    status of the caught error's response, if it has one: [error.response]
    is read unguarded. *)
Definition rethrown (response_status : option Z) : Error :=
  match response_status with
  | Some status => newHttpErrorByCode status "VaultException"
  | None => NoResponse
  end.

Definition getKey (keyName : string) (transitKeyPath : TransitPath) : M bytes :=
  emit (VaultGetKey transitKeyPath keyName) ;;;
  match vault_key W transitKeyPath keyName with
  | VaultOk publicKey => ret publicKey
  | VaultHttpError status => throw (rethrown (Some status))
  | VaultNoResponse => throw (rethrown None)
  end.

Definition sign (keyName : string) (transitPath : TransitPath) (data : bytes)
  : M string :=
  emit (VaultSign transitPath keyName data) ;;;
  match vault_sign W transitPath keyName data with
  | VaultOk signature => ret signature
  | VaultHttpError status => throw (rethrown (Some status))
  | VaultNoResponse => throw (rethrown None)
  end.

Definition signAsUser (user_id : string) (data : bytes) : M string :=
  sign user_id VAULT_TRANSIT_USERS_PATH data.

Definition signAsManager (data : bytes) : M string :=
  sign (VAULT_MANAGER_KEY W) VAULT_TRANSIT_MANAGERS_PATH data.

Definition signAsNamedManager (manager_name : string) (data : bytes) : M string :=
  sign manager_name VAULT_TRANSIT_MANAGERS_PATH data.

Definition getUserPublicKey (keyName : string) : M bytes :=
  getKey keyName VAULT_TRANSIT_USERS_PATH.

Definition getManagerPublicKey : M bytes :=
  getKey (VAULT_MANAGER_KEY W) VAULT_TRANSIT_MANAGERS_PATH.

Definition getNamedManagerPublicKey (manager_name : string) : M bytes :=
  getKey manager_name VAULT_TRANSIT_MANAGERS_PATH.

End Service.
End Vault.

(* ===================================================================== *)
(** ** chain.service.ts *)
(* ===================================================================== *)

Module Chain.

(** The error the specification names for an empty group. *)
Definition EmptyGroupError : Error := JsError "EmptyGroupError".

(** Modelled from the spec: [computeGroupId] of the encoder library is not
    part of the sources; the spec (4.2, GroupPlanner) says the group id is a
    hash over the transactions' encodings in the given order and that
    grouping fails with [EmptyGroupError] on empty input.  The hash is the
    encoder's [group_hash]. *)
Definition computeGroupId `{Encoder} (txns : list bytes) : Result bytes :=
  match txns with
  | [] => Throw EmptyGroupError
  | _ :: _ => Ok (group_hash txns)
  end.

(** Modelled from the spec: [addLease] of [AssetTransferTxBuilder] is not
    part of the sources; the spec (4.1, 6) says a lease that does not decode
    to exactly 32 bytes is rejected. *)
Definition addLease (t : Transaction) (lease : bytes) : Result Transaction :=
  if (Z.of_nat (List.length lease) =? 32)
  then Ok (set_lx t lease)
  else Throw (JsError "lease must be 32 bytes").

Section Service.
Context (W : World) {E : Encoder}.

Definition parseLease (lease : string) : bytes := base64_decode lease.

Definition addSignatureToTxn (encodedTransaction signature : bytes) : bytes :=
  addSignature encodedTransaction signature.

(** The loop of [setGroupID]: [grouped] is the array pushed to. *)
Fixpoint setGroupID_loop (groupId : bytes) (txns : list bytes)
  (grouped : list bytes) : Result (list bytes) :=
  match txns with
  | [] => Ok grouped
  | txn :: rest =>
      match decodeTransaction txn with
      | None => Throw (JsError "decodeTransaction")
      | Some decodedTx =>
          setGroupID_loop groupId rest
            (grouped ++ [encodeTransaction (set_grp decodedTx groupId)])
      end
  end.

Definition setGroupID (txns : list bytes) : Result (list bytes) :=
  match computeGroupId txns with
  | Throw e => Throw e
  | Ok groupId => setGroupID_loop groupId txns []
  end.

(** [catch (error) { if (error.response?.status) ... else ... }], the
    handler of [makeAlgoNodeRequest]: a response with a truthy status is
    rethrown through [HttpErrorByCode] with the message made from the
    response, anything else as an [InternalServerErrorException] with the
    error's own message. *)
Definition rethrown (response_status : option Z) (message : string) : Error :=
  match response_status with
  | Some status =>
      if JS.truthy_num status
      then newHttpErrorByCode status (String.append "NodeException: " message)
      else HttpException 500 (String.append "NodeException: " message)
  | None => HttpException 500 (String.append "NodeException: " message)
  end.

(** [makeAlgoNodeRequest]: one request to the node; [answer] is the node's
    reply to this endpoint when it has served [clock] requests. *)
Definition makeAlgoNodeRequest {A} (req : NodeRequest)
  (answer : nat -> NodeResult A) : M A :=
  fun s =>
    let s' := {| clock := S (clock s); trace := trace s ++ [NodeCall req] |} in
    match answer (clock s) with
    | NodeOk data => (Ok data, s')
    | NodeHttpError status text => (Throw (rethrown (Some status) text), s')
    | NodeNetworkError msg => (Throw (rethrown None msg), s')
    end.

Definition getSuggestedParams : M SuggestedParams :=
  makeAlgoNodeRequest GET_transactions_params (node_params W).

Definition getAccountDetail (public_address : string) : M AccountDetail :=
  makeAlgoNodeRequest (GET_accounts public_address)
    (fun c => node_account W c public_address).

Definition getAccountBalance (public_address : string) : M Z :=
  response <- makeAlgoNodeRequest (GET_accounts public_address)
                (fun c => node_account W c public_address) ;;
  ret (amount response).

(** [getAccountAsset]: [null] (here [None]) when the node answers 404. *)
Definition getAccountAsset (public_address : string) (asset_id : Z)
  : M (option unit) :=
  try_catch
    (makeAlgoNodeRequest (GET_accounts_assets public_address asset_id)
       (fun c => node_account_asset W c public_address asset_id) ;;;
     ret (Some tt))
    (fun error =>
       match statusCode error with
       | Some st => if st =? 404 then ret None else throw error
       | None => throw error
       end).

(** [suggested_params ? suggested_params : await this.getSuggestedParams()] *)
Definition params_or_fetch (sp : option SuggestedParams) : M SuggestedParams :=
  match sp with
  | Some p => ret p
  | None => getSuggestedParams
  end.

(** The common header the builders fill in: fee, validity window, genesis. *)
Definition base_tx (from : string) (p : SuggestedParams) (b : TxBody)
  : Transaction :=
  {| snd := from; fee := minFee p; fv := lastRound p;
     lv := lastRound p + 1000; gen := GENESIS_ID W; gh := GENESIS_HASH W;
     note := None; lx := None; grp := None; body := b |}.

(** The builders.  The crafter of the encoder library is used through
    what it produces: its calls ([pay], [transferAsset], [createAsset],
    [addFee], [get], [encode] and the like) are taken to accept their
    arguments, so that a builder fails only where the parameter query
    fails or where the service's own handler throws (the lease).  What
    the library itself refuses, an address it cannot decode for one, is
    outside this model. *)
Definition craftPaymentTx (from to : string) (amount : Z)
  (suggested_params : option SuggestedParams) : M bytes :=
  p <- params_or_fetch suggested_params ;;
  let t := base_tx from p (Pay to amount) in
  emit (Crafted t) ;;;
  ret (encodeTransaction t).

(** [if (note) builder.addNote(note)] *)
Definition add_note_if (note : option string) (t : Transaction) : Transaction :=
  match note with
  | Some n => if JS.truthy_string n then set_note t n else t
  | None => t
  end.

(** [if (amount != 0) builder.addAssetAmount(amount)] *)
Definition amount_if (amount : Z) : option Z :=
  if amount =? 0 then None else Some amount.

(** [if (lease) { try { builder.addLease(this.parseLease(lease)) }
     catch (error) { throw new HttpErrorByCode[400](...) } }] *)
Definition add_lease_if (lease : option string) (t : Transaction)
  : Result Transaction :=
  match lease with
  | Some l =>
      if JS.truthy_string l then
        match addLease t (parseLease l) with
        | Ok t' => Ok t'
        | Throw error =>
            Throw (HttpException 400
                     (String.append "Invalid lease format: " (message error)))
        end
      else Ok t
  | None => Ok t
  end.

Definition craftAssetTransferTx (from to : string) (asset_id : Z) (amount : Z)
  (lease note : option string) (suggested_params : option SuggestedParams)
  : M bytes :=
  p <- params_or_fetch suggested_params ;;
  let t0 := base_tx from p (Axfer asset_id to (amount_if amount) None) in
  t <- lift (add_lease_if lease (add_note_if note t0)) ;;
  emit (Crafted t) ;;;
  ret (encodeTransaction t).

Definition craftAssetClawbackTx (clawbackAddress from to : string)
  (asset_id : Z) (amount : Z) (lease note : option string)
  (suggested_params : option SuggestedParams) : M bytes :=
  p <- params_or_fetch suggested_params ;;
  let t0 := base_tx clawbackAddress p
              (Axfer asset_id to (amount_if amount) (Some from)) in
  t <- lift (add_lease_if lease (add_note_if note t0)) ;;
  emit (Crafted t) ;;;
  ret (encodeTransaction t).

Definition truthy_str_opt (s : string) : option string :=
  if JS.truthy_string s then Some s else None.

Definition truthy_addr_opt (o : option string) : option string :=
  match o with
  | Some a => truthy_str_opt a
  | None => None
  end.

(** [craftAssetCreateTx]: each parameter is added only when truthy. *)
Definition craftAssetCreateTx (creatorAddress : string)
  (options : CreateAssetOptions) (sp : option SuggestedParams) : M bytes :=
  p <- params_or_fetch sp ;;
  let params :=
    {| apar_t := if JS.truthy_num (total options) then Some (total options) else None;
       apar_dc := if JS.truthy_num (decimals options)
                  then Some (JS.Number (decimals options)) else None;
       apar_df := if defaultFrozen options then Some true else None;
       apar_un := truthy_str_opt (unitName options);
       apar_an := truthy_str_opt (assetName options);
       apar_au := truthy_str_opt (url options);
       apar_m := truthy_addr_opt (managerAddress options);
       apar_r := truthy_addr_opt (reserveAddress options);
       apar_f := truthy_addr_opt (freezeAddress options);
       apar_c := truthy_addr_opt (clawbackAddress options) |} in
  let t := base_tx creatorAddress p (Acfg params) in
  emit (Crafted t) ;;;
  ret (encodeTransaction t).

(** The [try] block of one polling round, with the value the flag
    [poolError] has when the block is left. *)
Definition poll_try (txId : string)
  : St -> (bool * Result (option PendingInfo)) * St :=
  fun s =>
    match makeAlgoNodeRequest (GET_transactions_pending txId)
            (fun c => node_pending W c txId) s with
    | (Throw err, s') => ((false, Throw err), s')
    | (Ok pendingInfo, s') =>
        if JS.truthy_opt_num (confirmed_round pendingInfo)
        then ((false, Ok (Some pendingInfo)), s')
        else
          match pool_error pendingInfo with
          | Some pe =>
              if JS.truthy_string pe
              then ((true,
                     Throw (JsError (String.append "Transaction Rejected: " pe))),
                    s')
              else ((false, Ok None), s')
          | None => ((false, Ok None), s')
          end
    end.

(** [try { ... } catch (err) { if (poolError) { throw err } }]: [Some] is
    the [return pendingInfo] inside the block, [None] falls through to the
    rest of the loop body. *)
Definition poll (txId : string) : M (option PendingInfo) :=
  fun s =>
    match poll_try txId s with
    | ((_, Ok r), s') => (Ok r, s')
    | ((poolError, Throw err), s') =>
        if poolError then (Throw err, s') else (Ok None, s')
    end.

(** [while (currentRound < stopRound) { ... currentRound += 1n }]; [fuel]
    bounds the iterations and is set to [stopRound - currentRound] by the
    caller, so that it never runs out before the test fails.  [None] is the
    [undefined] the function returns when it leaves the loop. *)
Fixpoint waitLoop (fuel : nat) (txId : string) (stopRound currentRound : Z)
  : M (option PendingInfo) :=
  match fuel with
  | O => ret None
  | S fuel' =>
      if currentRound <? stopRound then
        r <- poll txId ;;
        match r with
        | Some pendingInfo => ret (Some pendingInfo)
        | None =>
            makeAlgoNodeRequest (GET_wait_for_block_after currentRound)
              (fun c => node_wait_block W c currentRound) ;;;
            waitLoop fuel' txId stopRound (currentRound + 1)
        end
      else ret None
  end.

Definition waitConfirmation (txId : string) (waitRounds : Z)
  : M (option PendingInfo) :=
  sp <- getSuggestedParams ;;
  let startRound := lastRound sp in
  let stopRound := startRound + waitRounds in
  waitLoop (Z.to_nat (stopRound - startRound)) txId stopRound startRound.

(** The default value of [waitRounds]. *)
Definition default_waitRounds : Z := 20.

(** [submitTransaction]: one transaction or a list, sent as one body. *)
Definition submitTransaction (txnOrtxns : bytes + list bytes) : M string :=
  let data := match txnOrtxns with
              | inl txn => txn
              | inr txns => List.concat txns
              end in
  txid <- makeAlgoNodeRequest (POST_transactions data)
            (fun c => node_post W c data) ;;
  waitConfirmation txid default_waitRounds ;;;
  ret txid.

(** [getAccountAssetHoldings]: the [assets] array of the account answer
    (asset id and amount of each holding). *)
Definition getAccountAssetHoldings (public_address : string)
  : M (list (Z * Z)) :=
  response <- makeAlgoNodeRequest (GET_accounts public_address)
                (fun c => node_account W c public_address) ;;
  ret (assets response).

End Service.
End Chain.

(* ===================================================================== *)
(** ** wallet.service.ts *)
(* ===================================================================== *)

Module Wallet.
Section Service.
Context (W : World) {E : Encoder}.

Record UserInfo : Type := mkUserInfo {
  user_id : string;
  info_public_address : string;
  algoBalance : Z
}.

Definition getUserInfo (user_id : string) : M UserInfo :=
  public_address <- Vault.getUserPublicKey W user_id ;;
  let encodedAddress := encodeAddress public_address in
  algoBalance <- Chain.getAccountBalance W encodedAddress ;;
  ret {| user_id := user_id; info_public_address := encodedAddress;
         algoBalance := algoBalance |}.

(** [vaultRawSig.toString().split(':')[2]], base64-decoded and attached.
    When the vault's answer has fewer than three fields the index is
    [undefined] and [Buffer.from] throws. *)
Definition attach_signature (tx : bytes) (vaultRawSig : string) : M bytes :=
  match nth_error (JS.split ":"%char vaultRawSig) 2 with
  | Some signature =>
      let sig := base64_decode signature in
      ret (Chain.addSignatureToTxn tx sig)
  | None => throw (JsError "The first argument must be of type string")
  end.

Definition signTxAsUser (user_id : string) (tx : bytes) : M bytes :=
  vaultRawSig <- Vault.signAsUser W user_id tx ;;
  attach_signature tx vaultRawSig.

Definition signTxAsManager (tx : bytes) : M bytes :=
  vaultRawSig <- Vault.signAsManager W tx ;;
  attach_signature tx vaultRawSig.

Definition signTxAsNamedManager (manager_name : string) (tx : bytes) : M bytes :=
  vaultRawSig <- Vault.signAsNamedManager W manager_name tx ;;
  attach_signature tx vaultRawSig.

Definition createAsset (options : CreateAssetOptions) : M string :=
  managerPublicKey <- Vault.getManagerPublicKey W ;;
  let managerPublicAddress := encodeAddress managerPublicKey in
  tx <- Chain.craftAssetCreateTx W managerPublicAddress options None ;;
  signedTx <- signTxAsManager tx ;;
  Chain.submitTransaction W (inl signedTx).

(** [transferAlgoToAddress]; [lease] and [note] are accepted and not used. *)
Definition transferAlgoToAddress (fromUserId toAddress : string) (amount : Z)
  (lease note : option string) : M string :=
  fromAddress <-
    try_catch
      (if String.eqb fromUserId "manager" then
         managerPublicKey <- Vault.getManagerPublicKey W ;;
         ret (encodeAddress managerPublicKey)
       else
         info <- getUserInfo fromUserId ;;
         ret (info_public_address info))
      (fun error =>
         throw (JsError (String.append "Failed to get from address for user "
                  (String.append fromUserId
                     (String.append ": " (message error)))))) ;;
  sp <- Chain.getSuggestedParams W ;;
  payTx <- Chain.craftPaymentTx W fromAddress toAddress amount (Some sp) ;;
  try_catch
    (signedTx <-
       (if String.eqb fromUserId "manager" then signTxAsManager payTx
        else signTxAsUser fromUserId payTx) ;;
     Chain.submitTransaction W (inl signedTx))
    (fun error =>
       throw (JsError (String.append "Failed to sign transaction as user "
                (String.append fromUserId
                   (String.append ": " (message error)))))).

(** The opt-in minimum balance, in micro-units. *)
Definition optin_min_balance : Z := 100000.

(** [userExtraAlgoNeed] after the opt-in block (a [number]). *)
Definition extraAlgoNeed (willOptInTx : bool) (sp : SuggestedParams) : Z :=
  if willOptInTx
  then JS.add (JS.add 0 optin_min_balance) (JS.Number (minFee sp))
  else 0.

(** [userOwnedExtraAlgo] (a [bigint]). *)
Definition ownedExtraAlgo (d : AccountDetail) : Z := amount d - minBalance d.

(** [transferAsset], up to and including the construction of
    [unSignedTxs]. *)
Definition transferAsset_unsigned (assetId : Z) (userId : string) (amount : Z)
  (lease note : option string) : M (string * string * list bytes) :=
  info <- getUserInfo userId ;;
  let userPublicAddress := info_public_address info in
  managerPublicKey <- Vault.getManagerPublicKey W ;;
  let managerPublicAddress := encodeAddress managerPublicKey in
  suggested_params <- Chain.getSuggestedParams W ;;
  account_asset <- Chain.getAccountAsset W userPublicAddress assetId ;;
  let willOptInTx := match account_asset with None => true | Some _ => false end in
  let userExtraAlgoNeed := extraAlgoNeed willOptInTx suggested_params in
  userAccountDetail <- Chain.getAccountDetail W userPublicAddress ;;
  let userOwnedExtraAlgo := ownedExtraAlgo userAccountDetail in
  let willPaymentTx := userOwnedExtraAlgo <? userExtraAlgoNeed in
  let userExtraAlgoNeed' :=
    if willPaymentTx
    then JS.sub userExtraAlgoNeed (JS.Number userOwnedExtraAlgo)
    else userExtraAlgoNeed in
  txs1 <- (if willPaymentTx then
             tx <- Chain.craftPaymentTx W managerPublicAddress userPublicAddress
                     userExtraAlgoNeed' (Some suggested_params) ;;
             ret [tx]
           else ret []) ;;
  txs2 <- (if willOptInTx then
             tx <- Chain.craftAssetTransferTx W userPublicAddress
                     userPublicAddress assetId 0 lease None
                     (Some suggested_params) ;;
             ret (txs1 ++ [tx])
           else ret txs1) ;;
  tx3 <- Chain.craftAssetTransferTx W managerPublicAddress userPublicAddress
           assetId amount lease note (Some suggested_params) ;;
  ret (userPublicAddress, managerPublicAddress, txs2 ++ [tx3]).

(** The sender of a grouped transaction, as the signing loop reads it.
    Addresses are kept in textual form in [Transaction], so
    [encodeAddress (decodeTransaction tx).snd] is the field itself. *)
Definition sender_of (tx : bytes) : M string :=
  match decodeTransaction tx with
  | Some t => ret (snd t)
  | None => throw (JsError "decodeTransaction")
  end.

Definition sign_by_sender (userId userPublicAddress managerPublicAddress : string)
  (tx : bytes) : M bytes :=
  sender <- sender_of tx ;;
  let isUserTx := String.eqb sender userPublicAddress in
  let isManagerTx := String.eqb sender managerPublicAddress in
  if isUserTx then signTxAsUser userId tx
  else if isManagerTx then signTxAsManager tx
  else throw (JsError "Invalid sender").

Definition transferAsset (assetId : Z) (userId : string) (amount : Z)
  (lease note : option string) : M string :=
  built <- transferAsset_unsigned assetId userId amount lease note ;;
  let '(userPublicAddress, managerPublicAddress, unSignedTxs) := built in
  unSignedGroupedTxns <- lift (Chain.setGroupID unSignedTxs) ;;
  signedTxs <- for_each
                 (sign_by_sender userId userPublicAddress managerPublicAddress)
                 unSignedGroupedTxns ;;
  Chain.submitTransaction W (inr signedTxs).

Definition clawbackAsset (assetId : Z) (userId : string) (amount : Z)
  (lease note : option string) : M string :=
  info <- getUserInfo userId ;;
  let userPublicAddress := info_public_address info in
  managerPublicKey <- Vault.getManagerPublicKey W ;;
  let managerPublicAddress := encodeAddress managerPublicKey in
  suggested_params <- Chain.getSuggestedParams W ;;
  tx <- Chain.craftAssetClawbackTx W managerPublicAddress userPublicAddress
          managerPublicAddress assetId amount lease note
          (Some suggested_params) ;;
  signedTx <- signTxAsManager tx ;;
  Chain.submitTransaction W (inl signedTx).

(** An entry of the [users] array of [sendGroup]. *)
Record Checked : Type := mkChecked {
  checked_id : string;
  checked_public_address : string;
  checked_type : UserType;
  actual_address : string
}.

(** The address the vault holds for a party of the group. *)
Definition resolve (u : User) : M string :=
  publicKey <- match type u with
               | user => Vault.getUserPublicKey W (id u)
               | manager => Vault.getNamedManagerPublicKey W (id u)
               end ;;
  ret (encodeAddress publicKey).

Definition checked_of (u : User) (actual : string) : Checked :=
  {| checked_id := id u; checked_public_address := public_address u;
     checked_type := type u; actual_address := actual |}.

(** The first loop of [sendGroup]: sender, then receiver when there is
    one, for each transaction in order. *)
Fixpoint collect_users (transactions : list GroupItem) (users : list Checked)
  : M (list Checked) :=
  match transactions with
  | [] => ret users
  | tx :: rest =>
      let sender := txn_sender (txn tx) in
      let receiver := txn_receiver (txn tx) in
      senderAddress <- resolve sender ;;
      match receiver with
      | Some r =>
          receiverAddress <- resolve r ;;
          collect_users rest
            (users ++ [checked_of sender senderAddress;
                       checked_of r receiverAddress])
      | None =>
          collect_users rest (users ++ [checked_of sender senderAddress])
      end
  end.

(** [users.every((user) => user.actual_address === user.public_address)] *)
Definition areUsersValid (users : list Checked) : bool :=
  forallb (fun u => String.eqb (actual_address u) (checked_public_address u))
    users.

(** The algosdk client's [getTransactionParams().do()]: the same node
    endpoint, failures surfacing as the client's own errors. *)
Definition algod_getTransactionParams : M SuggestedParams :=
  try_catch (Chain.getSuggestedParams W)
    (fun error => throw (JsError (message error))).

(** One iteration of the crafting loop of [sendGroup]. *)
Definition craft_item (suggested_params : SuggestedParams) (tx : GroupItem)
  : M bytes :=
  match txn tx with
  | algo_transfer sender receiver amount =>
      let sp := {| lastRound := lastRound suggested_params;
                   minFee := item_fee tx |} in
      Chain.craftPaymentTx W (public_address sender) (public_address receiver)
        amount (Some sp)
  | asset_transfer assetId sender receiver amount =>
      sugp <- algod_getTransactionParams ;;
      let t := Chain.base_tx W (public_address sender)
                 {| lastRound := lastRound sugp; minFee := item_fee tx |}
                 (Axfer assetId (public_address receiver)
                    (Chain.amount_if amount) None) in
      emit (Crafted t) ;;;
      ret (bytesToSign t)
  | create_asset sender options =>
      let sp := {| lastRound := lastRound suggested_params;
                   minFee := item_fee tx |} in
      Chain.craftAssetCreateTx W (public_address sender) options (Some sp)
  end.

(** One iteration of the signing loop of [sendGroup]; its last branch,
    ['Invalid sender'], needs a sender type that is neither of the two. *)
Definition sign_item (tx_and_org : bytes * GroupItem) : M bytes :=
  let (tx, org) := tx_and_org in
  let sender := txn_sender (txn org) in
  match type sender with
  | user => signTxAsUser (id sender) tx
  | manager => signTxAsNamedManager (id sender) tx
  end.

Record SendGroupResponse : Type := mkSendGroupResponse {
  transaction_id : string;
  signed_transactions : list string
}.

Definition sendGroup (transactions : list GroupItem) : M SendGroupResponse :=
  users <- collect_users transactions [] ;;
  if negb (areUsersValid users) then throw (JsError "Invalid users")
  else
    suggested_params <- Chain.getSuggestedParams W ;;
    unSignedTxs <- for_each (craft_item suggested_params) transactions ;;
    unSignedGroupedTxns <- lift (Chain.setGroupID unSignedTxs) ;;
    signedTxs <- for_each sign_item (combine unSignedGroupedTxns transactions) ;;
    let encodedTransactions := map base64_encode unSignedGroupedTxns in
    txId <- Chain.submitTransaction W (inr signedTxs) ;;
    ret {| transaction_id := txId;
           signed_transactions := encodedTransactions |}.

(** [ManagerDetailDto]: address, holdings, balance. *)
Record ManagerDetail : Type := mkManagerDetail {
  manager_public_address : string;
  manager_assets : list (Z * Z);
  manager_algoBalance : Z
}.

(** The body shared by [getManagerInfo] and [getNamedManagerInfo] once the
    public key is known: the holdings, then the balance, each by its own
    read of the account. *)
Definition manager_detail (public_address : bytes) : M ManagerDetail :=
  account <- Chain.getAccountAssetHoldings W (encodeAddress public_address) ;;
  algoBalance <- Chain.getAccountBalance W (encodeAddress public_address) ;;
  ret {| manager_public_address := encodeAddress public_address;
         manager_assets := account;
         manager_algoBalance := algoBalance |}.

Definition getManagerInfo : M ManagerDetail :=
  public_address <- Vault.getManagerPublicKey W ;;
  manager_detail public_address.

Definition getNamedManagerInfo (manager_name : string) : M ManagerDetail :=
  public_address <- Vault.getNamedManagerPublicKey W manager_name ;;
  manager_detail public_address.

Definition getAssetHoldings (user_id : string) : M (list (Z * Z)) :=
  info <- getUserInfo user_id ;;
  let userPublicAddress := info_public_address info in
  Chain.getAccountAssetHoldings W userPublicAddress.

End Service.
End Wallet.

(* ===================================================================== *)
(** ** wallet.controller.ts *)
(* ===================================================================== *)

Module Controller.
Section Endpoints.
Context (W : World) {E : Encoder}.

(** [AccountAssetsDto]. *)
Record AccountAssets : Type := mkAccountAssets {
  address : string;
  held : list (Z * Z)
}.

(** [GET wallet/assets/:user_id]: the holdings, then the user's details
    once more for the address. *)
Definition assetsBalances (user_id : string) : M AccountAssets :=
  accountAssets <- Wallet.getAssetHoldings W user_id ;;
  info <- Wallet.getUserInfo W user_id ;;
  let userPublicAddress := Wallet.info_public_address info in
  ret {| address := userPublicAddress; held := accountAssets |}.

End Endpoints.
End Controller.

(* ===================================================================== *)
(** ** Scenarios: a concrete encoder and concrete worlds *)
(* ===================================================================== *)

Module Scenario.

(** *** Base64 *)

(** Reading, as [Buffer.from(s, 'base64')] does, takes the standard and
    the URL-safe alphabet; writing uses the standard one. *)
Definition sextet_of_ascii (c : ascii) : option N :=
  let n := N_of_ascii c in
  if ((65 <=? n) && (n <=? 90))%N then Some (n - 65)%N
  else if ((97 <=? n) && (n <=? 122))%N then Some (n - 71)%N
  else if ((48 <=? n) && (n <=? 57))%N then Some (n + 4)%N
  else if ((n =? 43) || (n =? 45))%N then Some 62%N
  else if ((n =? 47) || (n =? 95))%N then Some 63%N
  else None.

(** The sextets of a base64 text: decoding stops at the first padding
    character, other characters outside the alphabet are skipped. *)
Fixpoint sextets (s : string) : list N :=
  match s with
  | EmptyString => []
  | String c rest =>
      if Ascii.eqb c "="%char then []
      else match sextet_of_ascii c with
           | Some n => n :: sextets rest
           | None => sextets rest
           end
  end.

Definition byte_of (n : N) : Byte.byte :=
  match Byte.of_N (n mod 256) with
  | Some b => b
  | None => Byte.x00
  end.

Fixpoint bytes_of_sextets (fuel : nat) (l : list N) : bytes :=
  match fuel with
  | O => []
  | S fuel' =>
      match l with
      | a :: b :: c :: d :: rest =>
          let n := (a * 262144 + b * 4096 + c * 64 + d)%N in
          byte_of (n / 65536) :: byte_of (n / 256) :: byte_of n
            :: bytes_of_sextets fuel' rest
      | [a; b; c] =>
          let n := (a * 262144 + b * 4096 + c * 64)%N in
          [byte_of (n / 65536); byte_of (n / 256)]
      | [a; b] =>
          let n := (a * 262144 + b * 4096)%N in
          [byte_of (n / 65536)]
      | _ => []
      end
  end.

Definition b64decode (s : string) : bytes :=
  let l := sextets s in bytes_of_sextets (S (List.length l)) l.

Definition ascii_of_sextet (n : N) : ascii :=
  if (n <? 26)%N then ascii_of_N (n + 65)
  else if (n <? 52)%N then ascii_of_N (n + 71)
  else if (n <? 62)%N then ascii_of_N (n - 4)
  else if (n =? 62)%N then "+"%char
  else "/"%char.

Fixpoint b64encode (l : bytes) : string :=
  match l with
  | x :: y :: z :: rest =>
      let n := (Byte.to_N x * 65536 + Byte.to_N y * 256 + Byte.to_N z)%N in
      String (ascii_of_sextet (n / 262144))
        (String (ascii_of_sextet ((n / 4096) mod 64))
           (String (ascii_of_sextet ((n / 64) mod 64))
              (String (ascii_of_sextet (n mod 64)) (b64encode rest))))
  | [x; y] =>
      let n := (Byte.to_N x * 65536 + Byte.to_N y * 256)%N in
      String (ascii_of_sextet (n / 262144))
        (String (ascii_of_sextet ((n / 4096) mod 64))
           (String (ascii_of_sextet ((n / 64) mod 64)) "="))
  | [x] =>
      let n := (Byte.to_N x * 65536)%N in
      String (ascii_of_sextet (n / 262144))
        (String (ascii_of_sextet ((n / 4096) mod 64)) "==")
  | [] => EmptyString
  end.

(** *** Transactions as S-expressions *)

Definition text_of (b : bytes) : string := string_of_list_byte b.
Definition bytes_of (s : string) : bytes := list_byte_of_string s.

Definition plain_apar : Type :=
  (option Z * option Z * option bool * option string * option string)
  * (option string * option string * option string * option string
     * option string).

Definition plain_body : Type :=
  (string * Z) + ((Z * string * option Z * option string) + plain_apar).

Definition plain_tx : Type :=
  (string * Z * Z * Z * string) * (string * option string * option string
                                   * option string * plain_body).

Definition plain_of_apar (a : AssetParams) : plain_apar :=
  ((apar_t a, apar_dc a, apar_df a, apar_un a, apar_an a),
   (apar_au a, apar_m a, apar_r a, apar_f a, apar_c a)).

Definition apar_of_plain (p : plain_apar) : AssetParams :=
  let '((t, dc, df, un, an), (au, m, r, f, c)) := p in
  mkAssetParams t dc df un an au m r f c.

Definition plain_of_body (b : TxBody) : plain_body :=
  match b with
  | Pay rcv amt => inl (rcv, amt)
  | Axfer xaid arcv aamt asnd => inr (inl (xaid, arcv, aamt, asnd))
  | Acfg apar => inr (inr (plain_of_apar apar))
  end.

Definition body_of_plain (p : plain_body) : TxBody :=
  match p with
  | inl (rcv, amt) => Pay rcv amt
  | inr (inl (xaid, arcv, aamt, asnd)) => Axfer xaid arcv aamt asnd
  | inr (inr a) => Acfg (apar_of_plain a)
  end.

Definition plain_of_tx (t : Transaction) : plain_tx :=
  ((snd t, fee t, fv t, lv t, gen t),
   (gh t, note t, option_map text_of (lx t), option_map text_of (grp t),
    plain_of_body (body t))).

Definition tx_of_plain (p : plain_tx) : Transaction :=
  let '((s, f, a, b, g), (h, n, l, gr, bd)) := p in
  mkTransaction s f a b g h n (option_map bytes_of l) (option_map bytes_of gr)
    (body_of_plain bd).

Definition encodeTx (t : Transaction) : bytes :=
  bytes_of (to_string (plain_of_tx t)).

Definition decodeTx (b : bytes) : option Transaction :=
  match (from_string (text_of b) : CeresDeserialize.error + plain_tx) with
  | inr p => Some (tx_of_plain p)
  | inl _ => None
  end.

(** A stand-in for the group hash: the lengths of the members followed by
    the members, so that different ordered lists give different ids. *)
Definition list_digest (txns : list bytes) : bytes :=
  bytes_of (to_string (map (fun t => Z.of_nat (List.length t)) txns))
    ++ List.concat txns.

(** Both libraries write a transaction in the same form, the one
    [decodeTransaction] reads. *)
Definition encoder : Encoder := {|
  encodeAddress := fun k => String.append "ADDR-" (b64encode k);
  encodeTransaction := encodeTx;
  decodeTransaction := decodeTx;
  group_hash := list_digest;
  addSignature := fun tx sig => tx ++ sig;
  bytesToSign := encodeTx;
  base64_decode := b64decode;
  base64_encode := b64encode
|}.

(** *** Worlds *)

Definition alice_key : bytes := bytes_of "alice-ed25519-public-key-32bytes".
Definition bob_key : bytes := bytes_of "bob-ed25519-public-key-32-bytes.".
Definition manager_key : bytes := bytes_of "manager-ed25519-public-key-32-by".
Definition admin_key : bytes := bytes_of "admin-ed25519-public-key-32bytes".

Definition alice_address : string := encodeAddress (Encoder := encoder) alice_key.
Definition bob_address : string := encodeAddress (Encoder := encoder) bob_key.
Definition manager_address : string := encodeAddress (Encoder := encoder) manager_key.
Definition admin_address : string := encodeAddress (Encoder := encoder) admin_key.

(** The vault holds users alice and bob and managers manager and admin. *)
Definition keys (p : TransitPath) (name : string) : VaultResult bytes :=
  match p with
  | VAULT_TRANSIT_USERS_PATH =>
      if String.eqb name "alice" then VaultOk alice_key
      else if String.eqb name "bob" then VaultOk bob_key
      else VaultHttpError 404
  | VAULT_TRANSIT_MANAGERS_PATH =>
      if String.eqb name "manager" then VaultOk manager_key
      else if String.eqb name "admin" then VaultOk admin_key
      else VaultHttpError 404
  end.

Definition params : SuggestedParams := {| lastRound := 5000; minFee := 1000 |}.

Definition quiet : PendingInfo :=
  {| confirmed_round := None; pool_error := Some EmptyString |}.

Definition confirmed : PendingInfo :=
  {| confirmed_round := Some 5001; pool_error := Some EmptyString |}.

Definition rejected : PendingInfo :=
  {| confirmed_round := None; pool_error := Some "overspend" |}.

(** A world around one receiver account: [detail] is what the node reports
    for every account, [holds] whether the asset endpoint answers, and
    [pending] the answer to a pending-status query made at a given clock. *)
Definition world (detail : AccountDetail) (holds : bool)
  (pending : nat -> NodeResult PendingInfo) : World :=
  {| GENESIS_ID := "testnet-v1.0";
     GENESIS_HASH := "SGO1GKSzyE7IEPItTxCByw9x8FmnrCDexi9/cOUJOiI=";
     VAULT_MANAGER_KEY := "manager";
     vault_key := keys;
     vault_sign := fun _ _ _ => VaultOk "vault:v1:c2lnbmF0dXJl";
     node_params := fun _ => NodeOk params;
     node_account := fun _ _ => NodeOk detail;
     node_account_asset := fun _ _ _ =>
       if holds then NodeOk tt else NodeHttpError 404 "asset not found";
     node_pending := fun c _ => pending c;
     node_wait_block := fun _ _ => NodeOk tt;
     node_post := fun _ _ => NodeOk "TXID" |}.

Definition funded : AccountDetail :=
  {| amount := 5000000; minBalance := 100000; assets := [] |}.

Definition empty_account : AccountDetail :=
  {| amount := 0; minBalance := 100000; assets := [] |}.

(** An account whose minimum balance exceeds its balance by 2^53 + 1. *)
Definition huge_deficit : AccountDetail :=
  {| amount := 1; minBalance := 9007199254740994; assets := [] |}.

Definition always_confirmed : nat -> NodeResult PendingInfo :=
  fun _ => NodeOk confirmed.

Definition never_visible : nat -> NodeResult PendingInfo :=
  fun _ => NodeOk quiet.

Definition always_failing : nat -> NodeResult PendingInfo :=
  fun _ => NodeHttpError 404 "not found".

Definition always_rejected : nat -> NodeResult PendingInfo :=
  fun _ => NodeOk rejected.

Definition lease32 : string := "9kykoZ1IpuOAqhzDgRVaVY2ME0ZlCNrUpnzxpXlEF/s=".
Definition lease3 : string := "AAAA".

End Scenario.

(* ===================================================================== *)
(** ** Vocabulary of the statements *)
(* ===================================================================== *)

(** [emits P Q R m]: started in any state, [m] appends to the log only
    events satisfying [P]; a value it returns satisfies [Q] and an error it
    throws satisfies [R]. *)
Definition emits {A} (P : Event -> Prop) (Q : A -> Prop) (R : Error -> Prop)
  (m : M A) : Prop :=
  forall s, exists evs,
    trace (state_of (m s)) = trace s ++ evs /\
    Forall P evs /\
    match result_of (m s) with
    | Ok a => Q a
    | Throw e => R e
    end.

Definition any {A} : A -> Prop := fun _ => True.
Definition none {A} : A -> Prop := fun _ => False.

(** Kinds of logged events. *)
Definition key_lookup (ev : Event) : Prop :=
  match ev with VaultGetKey _ _ => True | _ => False end.

Definition is_crafted (ev : Event) : Prop :=
  match ev with Crafted _ => True | _ => False end.

Definition is_signing (ev : Event) : Prop :=
  match ev with VaultSign _ _ _ => True | _ => False end.

Definition is_submission (ev : Event) : Prop :=
  match ev with NodeCall (POST_transactions _) => True | _ => False end.

(** Nothing is signed and nothing is submitted. *)
Definition unsigned_unsubmitted (ev : Event) : Prop :=
  ~ is_signing ev /\ ~ is_submission ev.

(** A query to the node that changes nothing on the ledger. *)
Definition ledger_query (ev : Event) : Prop :=
  match ev with
  | NodeCall (POST_transactions _) => False
  | NodeCall _ => True
  | _ => False
  end.

(** The state after one more request [req] has been made to the node. *)
Definition after_call (req : NodeRequest) (s : St) : St :=
  {| clock := S (clock s); trace := trace s ++ [NodeCall req] |}.

(** The state after the event [ev] has been logged. *)
Definition logged (ev : Event) (s : St) : St :=
  {| clock := clock s; trace := trace s ++ [ev] |}.

(** What a pending-status query may come back with. *)
Definition query_failed (r : NodeResult PendingInfo) : Prop :=
  match r with NodeOk _ => False | _ => True end.

(** The transaction is not yet visible: neither marker is set. *)
Definition not_visible (info : PendingInfo) : Prop :=
  JS.truthy_opt_num (confirmed_round info) = false /\
  JS.truthy_opt_string (pool_error info) = false.

(** The poll observes the pool-error marker [pe]: the answer carries no
    confirmed round (that test comes first) and a non-empty pool error. *)
Definition observes_pool_error (info : PendingInfo) (pe : string) : Prop :=
  JS.truthy_opt_num (confirmed_round info) = false /\
  pool_error info = Some pe /\
  JS.truthy_string pe = true.

(** A poll that shows nothing: the query fails, or it is answered and
    the transaction is not yet visible. *)
Definition shows_nothing (r : NodeResult PendingInfo) : Prop :=
  query_failed r \/ exists info, r = NodeOk info /\ not_visible info.

(** [k] polling rounds in a row that show nothing, the first one polling
    when the node has served [c] requests and waiting for the block after
    [cur]: each poll shows nothing and each wait for the next block is
    answered. *)
Definition quiet_rounds (W : World) (txId : string) (c : nat) (cur : Z)
  (k : nat) : Prop :=
  forall i, (i < k)%nat ->
    shows_nothing (node_pending W (c + 2 * i) txId) /\
    node_wait_block W (c + 2 * i + 1) (cur + Z.of_nat i) = NodeOk tt.

(** The rest of a polling round once the [try] block has fallen through. *)
Definition next_round (W : World) (fuel : nat) (txId : string)
  (stopRound currentRound : Z) : M (option PendingInfo) :=
  bind
    (Chain.makeAlgoNodeRequest (GET_wait_for_block_after currentRound)
       (fun c => node_wait_block W c currentRound))
    (fun _ => Chain.waitLoop W fuel txId stopRound (currentRound + 1)).

Definition Rejected (pe : string) : Error :=
  JsError (String.append "Transaction Rejected: " pe).

(** Number of pending-status queries in a log. *)
Fixpoint polls (evs : list Event) : nat :=
  match evs with
  | [] => O
  | NodeCall (GET_transactions_pending _) :: rest => S (polls rest)
  | _ :: rest => polls rest
  end.

(** Sample inputs built on the scenario encoder. *)
Module Samples.

Definition W_confirmed : World :=
  Scenario.world Scenario.funded true Scenario.always_confirmed.

Definition W_never : World :=
  Scenario.world Scenario.funded true Scenario.never_visible.

Definition W_failing : World :=
  Scenario.world Scenario.funded true Scenario.always_failing.

Definition W_rejected : World :=
  Scenario.world Scenario.funded true Scenario.always_rejected.

(** The pending-status query fails until the node has served five
    requests, then shows the transaction rejected. *)
Definition W_rejected_late : World :=
  Scenario.world Scenario.funded true
    (fun c => if Nat.ltb c 5 then NodeHttpError 404 "not found"
              else NodeOk Scenario.rejected).

Definition pay7 : Transaction :=
  Chain.base_tx W_confirmed Scenario.manager_address Scenario.params
    (Pay Scenario.alice_address 7).

Definition optin5 : Transaction :=
  Chain.base_tx W_confirmed Scenario.alice_address Scenario.params
    (Axfer 5 Scenario.alice_address None None).

Definition two_txns : list bytes :=
  [Scenario.encodeTx pay7; Scenario.encodeTx optin5].

Definition signed_pay7 : bytes :=
  Scenario.encodeTx pay7 ++ Scenario.bytes_of "signature".

End Samples.

(** *** FundingAndOptInResolver *)

(** The quantities of the resolver as the specification words them, in
    exact integer arithmetic. *)
Definition optInReserve : Z := 100000.

Definition extraMinBalanceNeeded (optInRequired : bool) (fee : Z) : Z :=
  if optInRequired then optInReserve + fee else 0.

Definition ownedSlack (d : AccountDetail) : Z := amount d - minBalance d.

(** The answer of the asset-holding endpoint: 404 when the holding is
    absent. *)
Definition holding_answer (absent : bool) (r : NodeResult unit) : Prop :=
  if absent then exists text, r = NodeHttpError 404 text
  else r = NodeOk tt.

(** The vault and the node answer every query [transferAsset] makes before
    it builds its transactions: the receiver [userId] has address [ua], the
    manager [ma], the suggested parameters are [sp], the receiver's holding
    of [assetId] is absent or not, and its account snapshot is [d]. *)
Definition answers (W : World) {E : Encoder} (s : St) (userId : string)
  (assetId : Z) (ua ma : string) (sp : SuggestedParams) (absent : bool)
  (d : AccountDetail) : Prop :=
  exists uk mk d0,
    vault_key W VAULT_TRANSIT_USERS_PATH userId = VaultOk uk /\
    ua = encodeAddress uk /\
    node_account W (clock s) ua = NodeOk d0 /\
    vault_key W VAULT_TRANSIT_MANAGERS_PATH (VAULT_MANAGER_KEY W) = VaultOk mk /\
    ma = encodeAddress mk /\
    node_params W (1 + clock s) = NodeOk sp /\
    holding_answer absent (node_account_asset W (2 + clock s) ua assetId) /\
    node_account W (3 + clock s) ua = NodeOk d.

(** The decoded lease a request carries, if any. *)
Definition lease_field {E : Encoder} (lease : option string) : option bytes :=
  match lease with
  | Some l => if JS.truthy_string l then Some (base64_decode l) else None
  | None => None
  end.

Definition lease_ok {E : Encoder} (lease : option string) : Prop :=
  match lease_field lease with
  | Some b => Z.of_nat (List.length b) = 32
  | None => True
  end.

Definition note_field (note : option string) : option string :=
  match note with
  | Some n => if JS.truthy_string n then Some n else None
  | None => None
  end.

(** The three kinds of member of the bundle. *)
Definition funding_tx (W : World) (ma ua : string) (sp : SuggestedParams)
  (amt : Z) : Transaction :=
  Chain.base_tx W ma sp (Pay ua amt).

Definition optin_tx (W : World) {E : Encoder} (ua : string) (assetId : Z)
  (sp : SuggestedParams) (lease : option string) : Transaction :=
  {| snd := ua; fee := minFee sp; fv := lastRound sp;
     lv := lastRound sp + 1000; gen := GENESIS_ID W; gh := GENESIS_HASH W;
     note := None; lx := lease_field lease; grp := None;
     body := Axfer assetId ua None None |}.

Definition primary_tx (W : World) {E : Encoder} (ma ua : string) (assetId : Z)
  (amount : Z) (sp : SuggestedParams) (lease note : option string)
  : Transaction :=
  {| snd := ma; fee := minFee sp; fv := lastRound sp;
     lv := lastRound sp + 1000; gen := GENESIS_ID W; gh := GENESIS_HASH W;
     note := note_field note; lx := lease_field lease; grp := None;
     body := Axfer assetId ua (Chain.amount_if amount) None |}.

(** The funding amount as the code computes it, in [number] arithmetic. *)
Definition funding_amount (absent : bool) (sp : SuggestedParams)
  (d : AccountDetail) : Z :=
  JS.sub (Wallet.extraAlgoNeed absent sp) (JS.Number (Wallet.ownedExtraAlgo d)).

Definition funding_txs (W : World) (ma ua : string) (sp : SuggestedParams)
  (absent : bool) (d : AccountDetail) : list Transaction :=
  if Wallet.ownedExtraAlgo d <? Wallet.extraAlgoNeed absent sp
  then [funding_tx W ma ua sp (funding_amount absent sp d)]
  else [].

Definition optin_txs (W : World) {E : Encoder} (ua : string) (assetId : Z)
  (sp : SuggestedParams) (absent : bool) (lease : option string)
  : list Transaction :=
  if absent then [optin_tx W ua assetId sp lease] else [].

Definition is_payment (t : Transaction) : Prop :=
  match body t with Pay _ _ => True | _ => False end.

Module Receivers.

Definition W_optin : World :=
  Scenario.world Scenario.empty_account false Scenario.always_confirmed.

Definition W_huge : World :=
  Scenario.world Scenario.huge_deficit false Scenario.always_confirmed.

End Receivers.

(** *** Mixed groups: the parties of [sendGroup] *)

(** The transit mount a party's key is read from. *)
Definition vault_path (t : UserType) : TransitPath :=
  match t with
  | user => VAULT_TRANSIT_USERS_PATH
  | manager => VAULT_TRANSIT_MANAGERS_PATH
  end.

(** The address derived from the public key the vault returns for a party,
    when it returns one. *)
Definition custody_address (W : World) {E : Encoder} (u : User) : option string :=
  match vault_key W (vault_path (type u)) (id u) with
  | VaultOk publicKey => Some (encodeAddress publicKey)
  | _ => None
  end.

(** The response status of a vault request that failed, if the failure
    carries a response. *)
Definition vault_failure {A} (r : VaultResult A) : option (option Z) :=
  match r with
  | VaultOk _ => None
  | VaultHttpError status => Some (Some status)
  | VaultNoResponse => Some None
  end.

(** What the key look-up for a party throws, when the vault does not
    answer it with a key. *)
Definition custody_error (W : World) (u : User) : option Error :=
  option_map Vault.rethrown
    (vault_failure (vault_key W (vault_path (type u)) (id u))).

(** The claimed address differs from the one custody resolves. *)
Definition spoofed (W : World) {E : Encoder} (u : User) : Prop :=
  exists a, custody_address W u = Some a /\ a <> public_address u.

(** Senders and receivers of a group, in the order they are looked up. *)
Definition parties (transactions : list GroupItem) : list User :=
  flat_map
    (fun tx =>
       txn_sender (txn tx)
       :: match txn_receiver (txn tx) with
          | Some r => [r]
          | None => []
          end)
    transactions.

Definition custody_resolves (W : World) {E : Encoder}
  (transactions : list GroupItem) : Prop :=
  forall u, In u (parties transactions) -> custody_address W u <> None.

Definition InvalidUsers : Error := JsError "Invalid users".

(** An error the vault service throws for a request that failed. *)
Definition is_vault_exception (e : Error) : Prop :=
  exists response_status, e = Vault.rethrown response_status.

Module Groups.

Definition alice : User :=
  {| id := "alice"; public_address := Scenario.alice_address; type := user |}.

Definition bob : User :=
  {| id := "bob"; public_address := Scenario.bob_address; type := user |}.

Definition admin : User :=
  {| id := "admin"; public_address := Scenario.admin_address; type := manager |}.

(** alice's key, claimed under bob's address. *)
Definition alice_as_bob : User :=
  {| id := "alice"; public_address := Scenario.bob_address; type := user |}.

(** bob's key, claimed under alice's address. *)
Definition bob_as_alice : User :=
  {| id := "bob"; public_address := Scenario.alice_address; type := user |}.

(** A user the vault has no key for. *)
Definition carol : User :=
  {| id := "carol"; public_address := "ADDR-carol"; type := user |}.

Definition item (t : GroupTxn) : GroupItem := {| txn := t; item_fee := 1000 |}.

(** The sender is spoofed. *)
Definition spoofed_sender : list GroupItem :=
  [item (algo_transfer admin alice 5); item (algo_transfer alice_as_bob bob 7)].

(** Every sender is genuine, one receiver is spoofed. *)
Definition spoofed_receiver : list GroupItem :=
  [item (algo_transfer admin alice 5); item (asset_transfer 5 alice bob_as_alice 7)].

(** A spoofed sender, followed by a party unknown to the vault. *)
Definition spoofed_then_unknown : list GroupItem :=
  [item (algo_transfer alice_as_bob bob 7); item (algo_transfer carol bob 1)].

Definition W : World :=
  Scenario.world Scenario.funded true Scenario.always_confirmed.

End Groups.

(** *** Leases *)




(** *** Sender routing of the simple transfer *)

(** [issues P m]: every run of [m] that returns has logged an event
    satisfying [P]. *)
Definition issues {A} (P : Event -> Prop) (m : M A) : Prop :=
  forall s, exists evs,
    trace (state_of (m s)) = trace s ++ evs /\
    match result_of (m s) with
    | Ok _ => Exists P evs
    | Throw _ => True
    end.


(** The vault key an event refers to, if any. *)
Definition vault_ref (ev : Event) : option (TransitPath * string) :=
  match ev with
  | VaultGetKey p k => Some (p, k)
  | VaultSign p k _ => Some (p, k)
  | _ => None
  end.

Definition signs_with (p : TransitPath) (keyName : string) (ev : Event) : Prop :=
  exists data, ev = VaultSign p keyName data.


(* ===================================================================== *)
(** ** Vocabulary of the further properties *)
(* ===================================================================== *)

(** [run_post m post]: started in any state, [m] appends events [evs] to
    the log and ends with a result [r] such that [post evs r]. *)
Definition run_post {A} (m : M A) (post : list Event -> Result A -> Prop)
  : Prop :=
  forall s, exists evs,
    trace (state_of (m s)) = trace s ++ evs /\
    post evs (result_of (m s)).

(** Number of wait-for-block requests in a log. *)
Fixpoint waits (evs : list Event) : nat :=
  match evs with
  | [] => O
  | NodeCall (GET_wait_for_block_after _) :: rest => S (waits rest)
  | _ :: rest => waits rest
  end.

(** What [makeAlgoNodeRequest] throws when the node's answer is a
    failure. *)
Definition node_error {A} (answer : NodeResult A) : option Error :=
  match answer with
  | NodeOk _ => None
  | NodeHttpError status text => Some (Chain.rethrown (Some status) text)
  | NodeNetworkError msg => Some (Chain.rethrown None msg)
  end.

(** An error [makeAlgoNodeRequest] throws. *)
Definition is_node_exception (e : Error) : Prop :=
  exists response_status message, e = Chain.rethrown response_status message.

(** The requests of the polling loop for [txId]. *)
Definition polling_event (txId : string) (ev : Event) : Prop :=
  ev = NodeCall (GET_transactions_pending txId) \/
  exists r, ev = NodeCall (GET_wait_for_block_after r).

(** What [waitConfirmation] may end with: an answer of the node carrying a
    confirmed round, nothing, a rejection carrying the pool error of an
    answer of the node, or what [makeAlgoNodeRequest] throws for a failed
    answer to the parameter query or to a wait for a block. *)
Definition confirmation_outcome (W : World) (txId : string)
  (r : Result (option PendingInfo)) : Prop :=
  match r with
  | Ok (Some info) =>
      JS.truthy_opt_num (confirmed_round info) = true /\
      exists c, node_pending W c txId = NodeOk info
  | Ok None => True
  | Throw e =>
      (exists info pe c,
         node_pending W c txId = NodeOk info /\
         observes_pool_error info pe /\ e = Rejected pe) \/
      (exists c, node_error (node_params W c) = Some e) \/
      (exists c round, node_error (node_wait_block W c round) = Some e)
  end.

(** The body [submitTransaction] posts. *)
Definition post_body (txnOrtxns : bytes + list bytes) : bytes :=
  match txnOrtxns with
  | inl txn => txn
  | inr txns => List.concat txns
  end.

(** Worlds that differ from a given one in one endpoint. *)
Definition with_wait_block (W : World)
  (f : nat -> Z -> NodeResult unit) : World :=
  {| GENESIS_ID := GENESIS_ID W; GENESIS_HASH := GENESIS_HASH W;
     VAULT_MANAGER_KEY := VAULT_MANAGER_KEY W;
     vault_key := vault_key W; vault_sign := vault_sign W;
     node_params := node_params W; node_account := node_account W;
     node_account_asset := node_account_asset W;
     node_pending := node_pending W; node_wait_block := f;
     node_post := node_post W |}.

Definition with_post (W : World)
  (f : nat -> bytes -> NodeResult string) : World :=
  {| GENESIS_ID := GENESIS_ID W; GENESIS_HASH := GENESIS_HASH W;
     VAULT_MANAGER_KEY := VAULT_MANAGER_KEY W;
     vault_key := vault_key W; vault_sign := vault_sign W;
     node_params := node_params W; node_account := node_account W;
     node_account_asset := node_account_asset W;
     node_pending := node_pending W; node_wait_block := node_wait_block W;
     node_post := f |}.

Definition with_account_asset (W : World)
  (f : nat -> string -> Z -> NodeResult unit) : World :=
  {| GENESIS_ID := GENESIS_ID W; GENESIS_HASH := GENESIS_HASH W;
     VAULT_MANAGER_KEY := VAULT_MANAGER_KEY W;
     vault_key := vault_key W; vault_sign := vault_sign W;
     node_params := node_params W; node_account := node_account W;
     node_account_asset := f;
     node_pending := node_pending W; node_wait_block := node_wait_block W;
     node_post := node_post W |}.

Definition with_sign (W : World)
  (f : TransitPath -> string -> bytes -> VaultResult string) : World :=
  {| GENESIS_ID := GENESIS_ID W; GENESIS_HASH := GENESIS_HASH W;
     VAULT_MANAGER_KEY := VAULT_MANAGER_KEY W;
     vault_key := vault_key W; vault_sign := f;
     node_params := node_params W; node_account := node_account W;
     node_account_asset := node_account_asset W;
     node_pending := node_pending W; node_wait_block := node_wait_block W;
     node_post := node_post W |}.

Definition with_params (W : World)
  (f : nat -> NodeResult SuggestedParams) : World :=
  {| GENESIS_ID := GENESIS_ID W; GENESIS_HASH := GENESIS_HASH W;
     VAULT_MANAGER_KEY := VAULT_MANAGER_KEY W;
     vault_key := vault_key W; vault_sign := vault_sign W;
     node_params := f; node_account := node_account W;
     node_account_asset := node_account_asset W;
     node_pending := node_pending W; node_wait_block := node_wait_block W;
     node_post := node_post W |}.

Module Fees.

(** The largest fee a [number] holds exactly together with its
    neighbours. *)
Definition largest_fee : SuggestedParams :=
  {| lastRound := 5000; minFee := 9007199254740991 |}.

(** An account whose slack is exactly the opt-in reserve plus that fee. *)
Definition exact_slack : AccountDetail :=
  {| amount := 9007199254940991; minBalance := 100000; assets := [] |}.

Definition W : World :=
  with_params (Scenario.world exact_slack false Scenario.always_confirmed)
    (fun _ => NodeOk largest_fee).

End Fees.

Module Pipeline.

(** An answer that carries both markers. *)
Definition both : PendingInfo :=
  {| confirmed_round := Some 5001; pool_error := Some "overspend" |}.

Definition W_both : World :=
  Scenario.world Scenario.funded true (fun _ => NodeOk both).

(** Polls show nothing and the wait for the next block fails. *)
Definition W_no_block : World :=
  with_wait_block Samples.W_never
    (fun _ _ => NodeHttpError 503 "unavailable").

(** Polls show nothing and the wait for the next block is throttled. *)
Definition W_throttled : World :=
  with_wait_block Samples.W_never
    (fun _ _ => NodeHttpError 429 "too many requests").

(** The node refuses the submission. *)
Definition W_post_refused : World :=
  with_post Samples.W_confirmed
    (fun _ _ => NodeHttpError 400 "msgpack decode error").

(** The asset endpoint is down. *)
Definition W_asset_down : World :=
  with_account_asset Samples.W_confirmed
    (fun _ _ _ => NodeHttpError 503 "unavailable").

End Pipeline.

(** *** Strings with separators *)

(** Whether the character [c] occurs in [s], and how often. *)
Fixpoint contains (c : ascii) (s : string) : bool :=
  match s with
  | EmptyString => false
  | String d rest => if Ascii.eqb d c then true else contains c rest
  end.

Fixpoint count_char (c : ascii) (s : string) : nat :=
  match s with
  | EmptyString => O
  | String d rest =>
      if Ascii.eqb d c then S (count_char c rest) else count_char c rest
  end.

Definition colon : string := String ":"%char EmptyString.

(** A vault signature [scheme:version:signature], possibly followed by
    further colon-separated fields. *)
Definition envelope (scheme version signature tail : string) : string :=
  String.append scheme
    (String.append colon
       (String.append version
          (String.append colon (String.append signature tail)))).

Definition field_tail (tail : string) : Prop :=
  tail = EmptyString \/ exists more, tail = String.append colon more.

(** A plain [Error]: it carries no HTTP status. *)
Definition plain_error (e : Error) : Prop := exists msg, e = JsError msg.

(** The shapes of what [makeAlgoNodeRequest] throws: an HTTP exception of
    a status [HttpErrorByCode] has a class for, with the prefixed message,
    or the plain error raised for a status without a class. *)
Definition node_exception_shape (e : Error) : Prop :=
  (exists status detail,
     HttpErrorByCode status = true /\
     e = HttpException status (String.append "NodeException: " detail)) \/
  plain_error e.

(** *** Read-only operations *)

(** The events of looking a party up: reading the key [keyName] of mount
    [p], and reading the account whose address derives from that key. *)
Definition info_event (W : World) {E : Encoder} (p : TransitPath)
  (keyName : string) (ev : Event) : Prop :=
  ev = VaultGetKey p keyName \/
  exists key, vault_key W p keyName = VaultOk key /\
              ev = NodeCall (GET_accounts (encodeAddress key)).

(** The asset endpoint answers with an error other than 404. *)
Definition asset_endpoint_down (W : World) : Prop :=
  forall c addr asset_id,
    match node_account_asset W c addr asset_id with
    | NodeOk _ => False
    | NodeHttpError status _ => status <> 404
    | NodeNetworkError _ => True
    end.

Definition nothing_built (ev : Event) : Prop :=
  ~ is_crafted ev /\ ~ is_signing ev /\ ~ is_submission ev.

(** Which key a signing helper asks the vault to use. *)
Inductive Signer : Type :=
| AsUser (user_id : string)
| AsManager
| AsNamedManager (manager_name : string).

Definition signer_ref (W : World) (who : Signer) : TransitPath * string :=
  match who with
  | AsUser user_id => (VAULT_TRANSIT_USERS_PATH, user_id)
  | AsManager => (VAULT_TRANSIT_MANAGERS_PATH, VAULT_MANAGER_KEY W)
  | AsNamedManager manager_name => (VAULT_TRANSIT_MANAGERS_PATH, manager_name)
  end.

Definition signTxAs (W : World) {E : Encoder} (who : Signer) (tx : bytes)
  : M bytes :=
  match who with
  | AsUser user_id => Wallet.signTxAsUser W user_id tx
  | AsManager => Wallet.signTxAsManager W tx
  | AsNamedManager manager_name => Wallet.signTxAsNamedManager W manager_name tx
  end.

(** The vault's answer to the signing request of [who] over [tx]. *)
Definition vault_answer (W : World) (who : Signer) (tx : bytes)
  : VaultResult string :=
  vault_sign W (fst (signer_ref W who)) (Datatypes.snd (signer_ref W who)) tx.

Definition sign_request (W : World) (who : Signer) (tx : bytes) : Event :=
  VaultSign (fst (signer_ref W who)) (Datatypes.snd (signer_ref W who)) tx.

Module Envelopes.

(** A vault whose signatures lack the version field. *)
Definition W_short : World :=
  with_sign Samples.W_confirmed (fun _ _ _ => VaultOk "vault:c2lnbmF0dXJl").

(** A vault whose signatures carry a trailing field. *)
Definition W_long : World :=
  with_sign Samples.W_confirmed
    (fun _ _ _ => VaultOk "vault:v1:c2lnbmF0dXJl:extra").

(** A sealed vault refuses to sign. *)
Definition W_sealed : World :=
  with_sign Samples.W_confirmed (fun _ _ _ => VaultHttpError 503).

(** A vault that throttles its clients. *)
Definition W_throttled : World :=
  with_sign Samples.W_confirmed (fun _ _ _ => VaultHttpError 429).

End Envelopes.

Definition with_account (W : World)
  (f : nat -> string -> NodeResult AccountDetail) : World :=
  {| GENESIS_ID := GENESIS_ID W; GENESIS_HASH := GENESIS_HASH W;
     VAULT_MANAGER_KEY := VAULT_MANAGER_KEY W;
     vault_key := vault_key W; vault_sign := vault_sign W;
     node_params := node_params W; node_account := f;
     node_account_asset := node_account_asset W;
     node_pending := node_pending W; node_wait_block := node_wait_block W;
     node_post := node_post W |}.

Module Snapshots.

Definition before : AccountDetail :=
  {| amount := 5000000; minBalance := 200000; assets := [(5, 10)] |}.

Definition after : AccountDetail :=
  {| amount := 4000000; minBalance := 100000; assets := [] |}.

(** The ledger moves between the first request and the second. *)
Definition W_moving : World :=
  with_account Samples.W_confirmed
    (fun c _ => NodeOk (if Nat.eqb c 0 then before else after)).

End Snapshots.

(** How the operations that begin by looking a user up end when that
    look-up throws [e]: with [e], after the one request for the key. *)
Definition missing_key {A} (e : Error) (userId : string) (s : St)
  : Result A * St :=
  (Throw e, logged (VaultGetKey VAULT_TRANSIT_USERS_PATH userId) s).

(** *** Workflows: prepare, sign, submit *)

(** The byte strings sent to the vault for signing, in order. *)
Fixpoint signed_payloads (evs : list Event) : list bytes :=
  match evs with
  | [] => []
  | VaultSign _ _ data :: rest => data :: signed_payloads rest
  | _ :: rest => signed_payloads rest
  end.

(** Number of transactions crafted in a log. *)
Fixpoint crafts (evs : list Event) : nat :=
  match evs with
  | [] => O
  | Crafted _ :: rest => S (crafts rest)
  | _ :: rest => crafts rest
  end.

(** [signed] is [payload] with some signature attached. *)
Definition signed_from {E : Encoder} (payload signed : bytes) : Prop :=
  exists signature, signed = addSignature payload signature.

(** The submission part of the log of a workflow that crafted [n]
    transactions and asked for signatures over [payloads]: either nothing
    was posted, or one body was posted that is the concatenation of [n]
    transactions, the signed forms of [payloads] in their order, and only
    ledger queries followed. *)
Definition submission_of {E : Encoder} (payloads : list bytes) (n : nat)
  (submission : list Event) : Prop :=
  submission = [] \/
  exists signedTxs rest,
    submission = NodeCall (POST_transactions (List.concat signedTxs)) :: rest /\
    Forall ledger_query rest /\
    Forall2 signed_from payloads signedTxs /\
    List.length signedTxs = n.

(** [phases F n evs r]: the log [evs] splits into a preparation part in
    which nothing is signed or posted, a part made of signing requests
    only, and a submission part; [F] relates the number of transactions
    crafted (counted from [n]), the two later parts and the result. *)
Definition phases {B}
  (F : nat -> list Event -> list Event -> Result B -> Prop)
  (n : nat) (evs : list Event) (r : Result B) : Prop :=
  exists prep signing submission,
    evs = prep ++ signing ++ submission /\
    Forall unsigned_unsubmitted prep /\
    Forall is_signing signing /\
    F (n + crafts prep)%nat signing submission r.

(** [prepares Q m]: [m] signs and posts nothing, and when it returns [a]
    having crafted [n] transactions, [Q n a]. *)
Definition prepares {A} (Q : nat -> A -> Prop) (m : M A) : Prop :=
  run_post m (fun evs r =>
                Forall unsigned_unsubmitted evs /\
                forall a, r = Ok a -> Q (crafts evs) a).

Definition sign_event (ref : TransitPath * string) (payload : bytes) : Event :=
  VaultSign (fst ref) (Datatypes.snd ref) payload.

(** [signs_one ref payload m]: [m] either fails before asking the vault, or
    asks the key [ref] for a signature over [payload] and, when it
    returns, returns [payload] with a signature attached. *)
Definition signs_one {E : Encoder} (ref : TransitPath * string)
  (payload : bytes) (m : M bytes) : Prop :=
  run_post m (fun evs r =>
                (evs = [] /\ forall y, r <> Ok y) \/
                (evs = [sign_event ref payload] /\
                 forall y, r = Ok y -> signed_from payload y)).

(** The key that signs for the sender of a group item. *)
Definition item_who (org : GroupItem) : Signer :=
  match type (txn_sender (txn org)) with
  | user => AsUser (id (txn_sender (txn org)))
  | manager => AsNamedManager (id (txn_sender (txn org)))
  end.

Definition item_signer (org : GroupItem) : TransitPath * string :=
  (vault_path (type (txn_sender (txn org))), id (txn_sender (txn org))).

(** The key [transferAsset] signs a bundle member with. *)
Definition bundle_signer (W : World) {E : Encoder}
  (userId userPublicAddress : string) (tx : bytes) : TransitPath * string :=
  match decodeTransaction tx with
  | Some t =>
      if String.eqb (snd t) userPublicAddress
      then (VAULT_TRANSIT_USERS_PATH, userId)
      else (VAULT_TRANSIT_MANAGERS_PATH, VAULT_MANAGER_KEY W)
  | None => (VAULT_TRANSIT_USERS_PATH, userId)
  end.

(** What [sendGroup] guarantees about its later phases. *)
Definition group_outcome {E : Encoder} (transactions : list GroupItem)
  (n : nat) (signing submission : list Event)
  (r : Result Wallet.SendGroupResponse) : Prop :=
  submission_of (signed_payloads signing) n submission /\
  forall resp, r = Ok resp ->
    submission <> [] /\
    n = List.length transactions /\
    map vault_ref signing
    = map (fun org => Some (item_signer org)) transactions /\
    Wallet.signed_transactions resp
    = map base64_encode (signed_payloads signing).

(** What [transferAsset] guarantees about its later phases. *)
Definition bundle_outcome (W : World) {E : Encoder} (userId : string)
  (n : nat) (signing submission : list Event) (r : Result string) : Prop :=
  submission_of (signed_payloads signing) n submission /\
  Forall (fun ev =>
            signs_with VAULT_TRANSIT_USERS_PATH userId ev \/
            signs_with VAULT_TRANSIT_MANAGERS_PATH (VAULT_MANAGER_KEY W) ev)
    signing /\
  forall txid, r = Ok txid ->
    submission <> [] /\ (1 <= n <= 3)%nat.

(** What a workflow over one manager-signed transaction guarantees. *)
Definition single_outcome (W : World) {E : Encoder}
  (n : nat) (signing submission : list Event) (r : Result string) : Prop :=
  submission_of (signed_payloads signing) n submission /\
  Forall (signs_with VAULT_TRANSIT_MANAGERS_PATH (VAULT_MANAGER_KEY W))
    signing /\
  (List.length signing <= 1)%nat /\
  forall txid, r = Ok txid -> submission <> [] /\ n = 1%nat.

(** *** Crafted transactions of a group *)

(** The header the builders fill in: a validity window of a thousand
    rounds, the configured genesis, and no group, note or lease. *)
Definition plain_header (W : World) (t : Transaction) : Prop :=
  lv t = fv t + 1000 /\ gen t = GENESIS_ID W /\ gh t = GENESIS_HASH W /\
  grp t = None /\ note t = None /\ lx t = None.

(** [t] is what the group item [org] asks for, sent from and to the
    addresses custody holds for its parties.  The header is stated for
    the transactions the chain service builds itself. *)
Definition crafted_for (W : World) {E : Encoder} (org : GroupItem)
  (t : Transaction) : Prop :=
  custody_address W (txn_sender (txn org)) = Some (snd t) /\
  fee t = item_fee org /\
  match txn org, body t with
  | algo_transfer _ receiver amount, Pay rcv amt =>
      custody_address W receiver = Some rcv /\ amt = amount /\
      plain_header W t
  | asset_transfer assetId _ receiver amount, Axfer xaid arcv _ asnd =>
      xaid = assetId /\ custody_address W receiver = Some arcv /\
      asset_amount t = Some amount /\ asnd = None
  | create_asset _ _, Acfg _ => plain_header W t
  | _, _ => False
  end.

Definition crafted_for_some (W : World) {E : Encoder}
  (transactions : list GroupItem) (ev : Event) : Prop :=
  forall t, ev = Crafted t ->
    exists org, In org transactions /\ crafted_for W org t.

Module GroupRuns.

(** Alice pays bob and the manager named admin pays alice. *)
Definition two_payments : list GroupItem :=
  [ {| txn := algo_transfer Groups.alice Groups.bob 7; item_fee := 2000 |};
    {| txn := algo_transfer Groups.admin Groups.alice 5;
       item_fee := 1000 |} ].

End GroupRuns.

(** *** Failures of [transferAlgoToAddress] *)

Definition from_address_error (userId : string) (e : Error) : Prop :=
  exists msg,
    e = JsError (String.append "Failed to get from address for user "
                   (String.append userId (String.append ": " msg))).

Definition signing_error (userId : string) (e : Error) : Prop :=
  exists msg,
    e = JsError (String.append "Failed to sign transaction as user "
                   (String.append userId (String.append ": " msg))).

(** The request for the suggested parameters. *)
Definition params_query (ev : Event) : Prop :=
  ev = NodeCall GET_transactions_params.

(** How a run of [transferAlgoToAddress] for [userId] may end, by how far
    it got.  A failure before the parameters are asked for is reported as
    a failure to get the sender's address, nothing having been built; a
    failure after a signature has been requested as a failure to sign; a
    failure in between, of the parameter query or of the builder, comes
    with nothing signed and nothing submitted, and is not described any
    further here. *)
Definition algo_transfer_outcome (userId : string) (evs : list Event)
  (r : Result string) : Prop :=
  match r with
  | Ok _ => Exists is_signing evs /\ Exists is_submission evs
  | Throw e =>
      (from_address_error userId e /\
       Forall nothing_built evs /\ ~ Exists params_query evs) \/
      (Exists params_query evs /\ Forall unsigned_unsubmitted evs) \/
      (signing_error userId e /\
       Exists params_query evs /\ Exists is_signing evs)
  end.

(** *** Genuine groups *)

(** The key look-up [sendGroup] makes for a party. *)
Definition lookup_of (u : User) : Event :=
  VaultGetKey (vault_path (type u)) (id u).

(** Every party claims the address custody holds for it. *)
Definition genuine (W : World) {E : Encoder}
  (transactions : list GroupItem) : Prop :=
  forall u, In u (parties transactions) ->
            custody_address W u = Some (public_address u).

(** *** Where the lease is checked *)





(* ===================================================================== *)
(** ** Basic facts *)
(* ===================================================================== *)

Lemma Number_safe (z : Z) : JS.safe z -> JS.Number z = z.
Proof.
  unfold JS.safe, JS.Number, JS.round_mag. intros Hz.
  destruct (Z.leb_spec (Z.abs z) JS.two53) as [_ | Hgt]; [ | lia ].
  destruct z; reflexivity.
Qed.

(** Beyond 2^53 [Number] rounds to the nearest double, ties to even. *)
Example Number_rounds_down : JS.Number (2 ^ 53 + 1) = 2 ^ 53.
Proof. reflexivity. Qed.

Example Number_rounds_up : JS.Number (2 ^ 53 + 3) = 2 ^ 53 + 4.
Proof. reflexivity. Qed.

Example Number_exact_even : JS.Number (2 ^ 53 + 2) = 2 ^ 53 + 2.
Proof. reflexivity. Qed.

Example Number_negative : JS.Number (- (2 ^ 53 + 1)) = - 2 ^ 53.
Proof. reflexivity. Qed.

Example Number_coarser : JS.Number (2 ^ 54 + 6) = 2 ^ 54 + 8.
Proof. reflexivity. Qed.

Lemma add_safe (a b : Z) : JS.safe (a + b) -> JS.add a b = a + b.
Proof. apply Number_safe. Qed.

Lemma sub_safe (a b : Z) : JS.safe (a - b) -> JS.sub a b = a - b.
Proof. apply Number_safe. Qed.

Lemma skipn_exact {A} (l r : list A) : skipn (List.length l) (l ++ r) = r.
Proof. induction l as [ | x l IH]; simpl; auto. Qed.

(** Running a computation step by step. *)
Lemma bind_ok {A B} (m : M A) (k : A -> M B) (s s1 : St) (a : A) :
  m s = (Ok a, s1) -> bind m k s = k a s1.
Proof. unfold bind. intros ->. reflexivity. Qed.

Lemma bind_throw {A B} (m : M A) (k : A -> M B) (s s1 : St) (e : Error) :
  m s = (Throw e, s1) -> bind m k s = (Throw e, s1).
Proof. unfold bind. intros ->. reflexivity. Qed.

Lemma bind_ret {A B} (a : A) (k : A -> M B) (s : St) : bind (ret a) k s = k a s.
Proof. reflexivity. Qed.

Lemma getKey_run (W : World) (keyName : string) (p : TransitPath)
  (key : bytes) (s : St) :
  vault_key W p keyName = VaultOk key ->
  Vault.getKey W keyName p s = (Ok key, logged (VaultGetKey p keyName) s).
Proof. unfold Vault.getKey, bind, emit. intros ->. reflexivity. Qed.

Lemma getKey_fail (W : World) (keyName : string) (p : TransitPath)
  (response_status : option Z) (s : St) :
  vault_failure (vault_key W p keyName) = Some response_status ->
  Vault.getKey W keyName p s
  = (Throw (Vault.rethrown response_status),
     logged (VaultGetKey p keyName) s).
Proof.
  unfold Vault.getKey, bind, emit.
  destruct (vault_key W p keyName); simpl; intros [= <-]; reflexivity.
Qed.

Lemma sign_run (W : World) (keyName : string) (p : TransitPath)
  (data : bytes) (signature : string) (s : St) :
  vault_sign W p keyName data = VaultOk signature ->
  Vault.sign W keyName p data s
  = (Ok signature, logged (VaultSign p keyName data) s).
Proof. unfold Vault.sign, bind, emit. intros ->. reflexivity. Qed.

Lemma sign_fail (W : World) (keyName : string) (p : TransitPath)
  (data : bytes) (response_status : option Z) (s : St) :
  vault_failure (vault_sign W p keyName data) = Some response_status ->
  Vault.sign W keyName p data s
  = (Throw (Vault.rethrown response_status),
     logged (VaultSign p keyName data) s).
Proof.
  unfold Vault.sign, bind, emit.
  destruct (vault_sign W p keyName data); simpl; intros [= <-]; reflexivity.
Qed.

(** A vault request either is answered or fails. *)
Lemma vault_answered_or_failed {A} (r : VaultResult A) :
  (exists a, r = VaultOk a) \/ (exists rs, vault_failure r = Some rs).
Proof. destruct r; simpl; eauto. Qed.

(** Where [HttpErrorByCode] has a class for the status, the exception
    carries the status and the message. *)
Lemma newHttpErrorByCode_class (status : Z) (message : string) :
  HttpErrorByCode status = true ->
  newHttpErrorByCode status message = HttpException status message.
Proof. unfold newHttpErrorByCode. intros ->. reflexivity. Qed.

Lemma newHttpErrorByCode_no_class (status : Z) (message : string) :
  HttpErrorByCode status = false ->
  newHttpErrorByCode status message = NotAConstructor.
Proof. unfold newHttpErrorByCode. intros ->. reflexivity. Qed.

(** A class has a status that is not zero. *)
Lemma HttpErrorByCode_truthy (status : Z) :
  HttpErrorByCode status = true -> JS.truthy_num status = true.
Proof.
  unfold JS.truthy_num. destruct (Z.eqb_spec status 0) as [-> | ];
    [ discriminate | reflexivity ].
Qed.

Lemma rethrown_no_class (status : Z) (message : string) :
  HttpErrorByCode status = false -> status <> 0 ->
  Chain.rethrown (Some status) message = NotAConstructor.
Proof.
  intros Hc Hnz. unfold Chain.rethrown, JS.truthy_opt_num, JS.truthy_num.
  destruct (Z.eqb_spec status 0) as [ | _]; [ contradiction | ]. simpl.
  apply newHttpErrorByCode_no_class, Hc.
Qed.

Lemma rethrown_no_response (message : string) :
  Chain.rethrown None message
  = HttpException 500 (String.append "NodeException: " message).
Proof. reflexivity. Qed.

Lemma rethrown_class (status : Z) (message : string) :
  HttpErrorByCode status = true ->
  Chain.rethrown (Some status) message
  = HttpException status (String.append "NodeException: " message).
Proof.
  intros Hc. unfold Chain.rethrown. simpl.
  rewrite (HttpErrorByCode_truthy status Hc).
  apply newHttpErrorByCode_class, Hc.
Qed.

Lemma node_run {A} (req : NodeRequest) (answer : nat -> NodeResult A)
  (a : A) (s : St) :
  answer (clock s) = NodeOk a ->
  Chain.makeAlgoNodeRequest req answer s = (Ok a, after_call req s).
Proof. unfold Chain.makeAlgoNodeRequest. intros ->. reflexivity. Qed.

Section Emits.
Context {A B : Type}.
Implicit Types (P : Event -> Prop) (R : Error -> Prop).

Lemma emits_ret P (Q : A -> Prop) R (a : A) : Q a -> emits P Q R (ret a).
Proof.
  intros Ha s. exists []. simpl. rewrite app_nil_r. auto.
Qed.

Lemma emits_throw P (Q : A -> Prop) R (e : Error) : R e -> emits P Q R (throw e).
Proof.
  intros He s. exists []. simpl. rewrite app_nil_r. auto.
Qed.

Lemma emits_lift P (Q : A -> Prop) R (r : Result A) :
  match r with Ok a => Q a | Throw e => R e end -> emits P Q R (lift r).
Proof.
  intros Hr s. exists []. simpl. rewrite app_nil_r. auto.
Qed.

Lemma emits_bind P (Q' : A -> Prop) (Q : B -> Prop) R (m : M A) (k : A -> M B) :
  emits P Q' R m ->
  (forall a, Q' a -> emits P Q R (k a)) ->
  emits P Q R (bind m k).
Proof.
  intros Hm Hk s. unfold bind.
  destruct (Hm s) as (evs1 & Ht1 & Hf1 & Hr1).
  destruct (m s) as [[a | e] s1]; simpl in *.
  - destruct (Hk a Hr1 s1) as (evs2 & Ht2 & Hf2 & Hr2).
    exists (evs1 ++ evs2). rewrite Ht2, Ht1, app_assoc.
    split; [ reflexivity | ]. split; [ apply Forall_app; auto | assumption ].
  - exists evs1. auto.
Qed.

Lemma emits_try_catch P (Q : A -> Prop) R' R (m : M A) (h : Error -> M A) :
  emits P Q R' m ->
  (forall e, R' e -> emits P Q R (h e)) ->
  emits P Q R (try_catch m h).
Proof.
  intros Hm Hh s. unfold try_catch.
  destruct (Hm s) as (evs1 & Ht1 & Hf1 & Hr1).
  destruct (m s) as [[a | e] s1]; simpl in *.
  - exists evs1. auto.
  - destruct (Hh e Hr1 s1) as (evs2 & Ht2 & Hf2 & Hr2).
    exists (evs1 ++ evs2). rewrite Ht2, Ht1, app_assoc.
    split; [ reflexivity | ]. split; [ apply Forall_app; auto | assumption ].
Qed.

Lemma emits_weaken P P' (Q Q' : A -> Prop) R R' (m : M A) :
  (forall ev, P ev -> P' ev) ->
  (forall a, Q a -> Q' a) ->
  (forall e, R e -> R' e) ->
  emits P Q R m -> emits P' Q' R' m.
Proof.
  intros HP HQ HR Hm s. destruct (Hm s) as (evs & Ht & Hf & Hr).
  exists evs. split; [ assumption | ]. split.
  - eapply Forall_impl; eauto.
  - destruct (result_of (m s)); auto.
Qed.

Lemma emits_events_of P (Q : A -> Prop) R (m : M A) (s : St) :
  emits P Q R m -> Forall P (events_of m s).
Proof.
  intros Hm. destruct (Hm s) as (evs & Ht & Hf & _).
  unfold events_of. rewrite Ht, skipn_exact. assumption.
Qed.

Lemma emits_result P (Q : A -> Prop) R (m : M A) (s : St) :
  emits P Q R m ->
  match result_of (m s) with Ok a => Q a | Throw e => R e end.
Proof. intros Hm. destruct (Hm s) as (evs & _ & _ & Hr). exact Hr. Qed.

End Emits.

Lemma emits_emit P (Q : unit -> Prop) R (ev : Event) :
  P ev -> Q tt -> emits P Q R (emit ev).
Proof.
  intros Hev Hq s. exists [ev]. simpl. auto.
Qed.

Lemma emits_for_each {A B} P R (f : A -> M B) (xs : list A) :
  (forall x, In x xs -> emits P any R (f x)) ->
  emits P any R (for_each f xs).
Proof.
  induction xs as [ | x xs IH]; intros Hf; simpl.
  - apply emits_ret. exact I.
  - eapply emits_bind; [ apply Hf; left; reflexivity | ]. intros y _.
    eapply emits_bind; [ apply IH; intros; apply Hf; right; assumption | ].
    intros ys _. apply emits_ret. exact I.
Qed.

(* ===================================================================== *)
(** ** GroupPlanner: [setGroupID] *)
(* ===================================================================== *)

Section GroupPlanner.
Context {E : Encoder}.

Lemma setGroupID_loop_decoded (groupId : bytes) (txns : list bytes) :
  forall (ts : list Transaction) (grouped : list bytes),
    Forall2 (fun txn t => decodeTransaction txn = Some t) txns ts ->
    Chain.setGroupID_loop groupId txns grouped
    = Ok (grouped ++ map (fun t => encodeTransaction (set_grp t groupId)) ts).
Proof.
  induction txns as [ | txn txns IH]; intros ts grouped Hdec.
  - inversion Hdec; subst. simpl. now rewrite app_nil_r.
  - inversion Hdec as [ | ? t ? ts' Ht Hrest ]; subst. simpl.
    rewrite Ht, (IH ts' _ Hrest), <- app_assoc. reflexivity.
Qed.

Lemma all_decoded (txns : list bytes) :
  (forall txn, In txn txns -> decodeTransaction txn <> None) ->
  exists ts, Forall2 (fun txn t => decodeTransaction txn = Some t) txns ts.
Proof.
  induction txns as [ | txn txns IH]; intros Hdec.
  - exists []. constructor.
  - destruct IH as [ts Hts]; [ intros; apply Hdec; right; assumption | ].
    destruct (decodeTransaction txn) as [t | ] eqn:Ht.
    + exists (t :: ts). constructor; assumption.
    + exfalso. apply (Hdec txn); [ left; reflexivity | assumption ].
Qed.

Lemma Forall2_nth_decoded (txns : list bytes) (ts : list Transaction) :
  Forall2 (fun txn t => decodeTransaction txn = Some t) txns ts ->
  forall i txn, nth_error txns i = Some txn ->
    exists t, decodeTransaction txn = Some t /\ nth_error ts i = Some t.
Proof.
  induction 1 as [ | txn0 t0 txns ts H0 _ IH]; intros [ | i] txn Hn;
    simpl in Hn; try discriminate.
  - injection Hn as <-. exists t0. auto.
  - apply (IH i txn Hn).
Qed.

(** C6.  For a non-empty list of encoded transactions, [setGroupID]
    returns a list of the same length, in the same order: its i-th element
    is the encoding of the i-th input's transaction object with the group
    field set, and the group id is the same for every member, namely the
    hash of the input encodings in the given order. *)
Theorem setGroupID_stamps_one_id_in_order (txns : list bytes) :
  txns <> [] ->
  (forall txn, In txn txns -> decodeTransaction txn <> None) ->
  exists grouped,
    Chain.setGroupID txns = Ok grouped /\
    List.length grouped = List.length txns /\
    forall i txn, nth_error txns i = Some txn ->
      exists t,
        decodeTransaction txn = Some t /\
        nth_error grouped i
        = Some (encodeTransaction (set_grp t (group_hash txns))) /\
        grp (set_grp t (group_hash txns)) = Some (group_hash txns).
Proof.
  intros Hne Hdec. destruct (all_decoded txns Hdec) as [ts Hts].
  exists (map (fun t => encodeTransaction (set_grp t (group_hash txns))) ts).
  split; [ | split ].
  - unfold Chain.setGroupID, Chain.computeGroupId.
    destruct txns as [ | txn0 rest]; [ congruence | ].
    now rewrite (setGroupID_loop_decoded _ _ ts [] Hts).
  - rewrite length_map. symmetry. eapply Forall2_length; eassumption.
  - intros i txn Hn.
    destruct (Forall2_nth_decoded txns ts Hts i txn Hn) as (t & Ht & Hnt).
    exists t. split; [ assumption | ]. split; [ | reflexivity ].
    rewrite nth_error_map, Hnt. reflexivity.
Qed.

(** C7.  Given an empty sequence, [setGroupID] fails with the empty-group
    error: the failure is the one [computeGroupId] raises, before any
    member is decoded. *)
Theorem setGroupID_empty_fails :
  Chain.setGroupID [] = Throw Chain.EmptyGroupError /\
  Chain.setGroupID [] = match Chain.computeGroupId [] with
                        | Throw e => Throw e
                        | Ok _ => Ok []
                        end.
Proof. split; reflexivity. Qed.

End GroupPlanner.

(** Two encoded transactions of the scenario encoder. *)
Lemma setGroupID_stamps_one_id_in_order_witness :
  Samples.two_txns <> [] /\
  (forall txn, In txn Samples.two_txns ->
     decodeTransaction (Encoder := Scenario.encoder) txn <> None) /\
  exists grouped,
    Chain.setGroupID (E := Scenario.encoder) Samples.two_txns = Ok grouped /\
    List.length grouped = 2%nat /\
    map (decodeTransaction (Encoder := Scenario.encoder)) grouped
    = [Some (set_grp Samples.pay7 (Scenario.list_digest Samples.two_txns));
       Some (set_grp Samples.optin5 (Scenario.list_digest Samples.two_txns))].
Proof.
  assert (Hne : Samples.two_txns <> []) by discriminate.
  assert (Hdec : forall txn, In txn Samples.two_txns ->
            decodeTransaction (Encoder := Scenario.encoder) txn <> None).
  { intros txn [<- | [<- | []]]; vm_compute; discriminate. }
  split; [ exact Hne | ]. split; [ exact Hdec | ].
  destruct (setGroupID_stamps_one_id_in_order (E := Scenario.encoder)
              Samples.two_txns Hne Hdec) as (grouped & Hg & Hl & _).
  exists grouped. split; [ exact Hg | ]. split; [ exact Hl | ].
  assert (Hrun : Chain.setGroupID (E := Scenario.encoder) Samples.two_txns
                 = Ok [Scenario.encodeTx
                         (set_grp Samples.pay7
                            (Scenario.list_digest Samples.two_txns));
                       Scenario.encodeTx
                         (set_grp Samples.optin5
                            (Scenario.list_digest Samples.two_txns))])
    by (vm_compute; reflexivity).
  rewrite Hrun in Hg. injection Hg as <-. vm_compute. reflexivity.
Defined.

(* ===================================================================== *)
(** ** SubmissionPipeline: [waitConfirmation], [submitTransaction] *)
(* ===================================================================== *)

Section SubmissionPipeline.
Context (W : World).

Lemma poll_failed (txId : string) (s : St) :
  query_failed (node_pending W (clock s) txId) ->
  Chain.poll W txId s = (Ok None, after_call (GET_transactions_pending txId) s).
Proof.
  unfold Chain.poll, Chain.poll_try, Chain.makeAlgoNodeRequest, query_failed.
  destruct (node_pending W (clock s) txId); intros Hf;
    [ contradiction | reflexivity | reflexivity ].
Qed.

Lemma poll_not_visible (txId : string) (s : St) (info : PendingInfo) :
  node_pending W (clock s) txId = NodeOk info ->
  not_visible info ->
  Chain.poll W txId s = (Ok None, after_call (GET_transactions_pending txId) s).
Proof.
  unfold Chain.poll, Chain.poll_try, Chain.makeAlgoNodeRequest, not_visible.
  intros -> [Hc Hp]. rewrite Hc.
  destruct (pool_error info) as [pe | ]; simpl in *; [ | reflexivity ].
  rewrite Hp. reflexivity.
Qed.

Lemma poll_confirmed (txId : string) (s : St) (info : PendingInfo) :
  node_pending W (clock s) txId = NodeOk info ->
  JS.truthy_opt_num (confirmed_round info) = true ->
  Chain.poll W txId s
  = (Ok (Some info), after_call (GET_transactions_pending txId) s).
Proof.
  unfold Chain.poll, Chain.poll_try, Chain.makeAlgoNodeRequest.
  intros -> Hc. rewrite Hc. reflexivity.
Qed.

Lemma poll_rejected (txId : string) (s : St) (info : PendingInfo) (pe : string) :
  node_pending W (clock s) txId = NodeOk info ->
  observes_pool_error info pe ->
  Chain.poll W txId s
  = (Throw (Rejected pe), after_call (GET_transactions_pending txId) s).
Proof.
  unfold Chain.poll, Chain.poll_try, Chain.makeAlgoNodeRequest,
    observes_pool_error.
  intros -> (Hc & Hp & Ht). rewrite Hc, Hp, Ht. reflexivity.
Qed.

(** One round of the loop, by what its poll returns. *)
Lemma waitLoop_round (fuel : nat) (txId : string) (stop cur : Z) (s : St) :
  cur < stop ->
  Chain.waitLoop W (S fuel) txId stop cur s
  = match Chain.poll W txId s with
    | (Ok (Some info), s') => (Ok (Some info), s')
    | (Ok None, s') => next_round W fuel txId stop cur s'
    | (Throw e, s') => (Throw e, s')
    end.
Proof.
  intros Hlt. simpl. destruct (Z.ltb_spec cur stop) as [_ | Hge]; [ | lia ].
  unfold bind at 1. destruct (Chain.poll W txId s) as [[[info | ] | e] s'];
    reflexivity.
Qed.

(** Whatever [waitConfirmation] throws reaches the caller of
    [submitTransaction]: there is no handler in between. *)
Lemma submitTransaction_propagates (txnOrtxns : bytes + list bytes)
  (txid : string) (s s' : St) (e : Error) :
  let data := match txnOrtxns with
              | inl txn => txn
              | inr txns => List.concat txns
              end in
  node_post W (clock s) data = NodeOk txid ->
  Chain.waitConfirmation W txid Chain.default_waitRounds
    (after_call (POST_transactions data) s) = (Throw e, s') ->
  Chain.submitTransaction W txnOrtxns s = (Throw e, s').
Proof.
  intros data Hpost Hwait. unfold Chain.submitTransaction.
  fold data. unfold bind at 1. unfold Chain.makeAlgoNodeRequest at 1.
  rewrite Hpost. fold (after_call (POST_transactions data) s).
  unfold bind at 1. rewrite Hwait. reflexivity.
Qed.

(** A budget spent on rounds that show nothing: the loop ends without a
    value and without an error. *)
Lemma waitLoop_exhausted (txId : string) (stop : Z) :
  forall (fuel : nat) (cur : Z) (s : St),
    stop - cur = Z.of_nat fuel ->
    (forall i, (i < fuel)%nat ->
       (query_failed (node_pending W (clock s + 2 * i) txId) \/
        exists info, node_pending W (clock s + 2 * i) txId = NodeOk info /\
                     not_visible info) /\
       node_wait_block W (clock s + 2 * i + 1) (cur + Z.of_nat i) = NodeOk tt) ->
    exists s',
      Chain.waitLoop W fuel txId stop cur s = (Ok None, s') /\
      clock s' = (clock s + 2 * fuel)%nat /\
      exists evs, trace s' = trace s ++ evs /\ polls evs = fuel.
Proof.
  induction fuel as [ | fuel IH]; intros cur s Hbudget Hquiet.
  - exists s. simpl. split; [ reflexivity | ]. split; [ lia | ].
    exists []. now rewrite app_nil_r.
  - assert (Hlt : cur < stop) by lia.
    destruct (Hquiet O ltac:(lia)) as [Hpoll Hwait].
    replace (clock s + 2 * 0)%nat with (clock s) in Hpoll by lia.
    replace (clock s + 2 * 0 + 1)%nat with (S (clock s)) in Hwait by lia.
    replace (cur + Z.of_nat 0) with cur in Hwait by lia.
    assert (Hp : Chain.poll W txId s
                 = (Ok None, after_call (GET_transactions_pending txId) s)).
    { destruct Hpoll as [Hf | (info & Hi & Hv)];
        [ apply poll_failed; assumption
        | eapply poll_not_visible; eassumption ]. }
    rewrite (waitLoop_round _ _ _ _ _ Hlt), Hp.
    unfold next_round, bind, Chain.makeAlgoNodeRequest at 1.
    cbn [clock after_call]. rewrite Hwait.
    set (s2 := {| clock := S (S (clock s));
                  trace := trace (after_call (GET_transactions_pending txId) s)
                           ++ [NodeCall (GET_wait_for_block_after cur)] |}).
    destruct (IH (cur + 1) s2) as (s' & Hrun & Hclock & evs & Htrace & Hpolls).
    + lia.
    + intros i Hi. destruct (Hquiet (S i) ltac:(lia)) as [Hpoll' Hwait'].
      cbn [clock s2].
      replace (S (S (clock s)) + 2 * i)%nat with (clock s + 2 * S i)%nat by lia.
      replace (cur + 1 + Z.of_nat i) with (cur + Z.of_nat (S i)) by lia.
      split; assumption.
    + exists s'. split; [ exact Hrun | ]. split; [ cbn [clock s2] in Hclock; lia | ].
      exists ([NodeCall (GET_transactions_pending txId);
               NodeCall (GET_wait_for_block_after cur)] ++ evs).
      split.
      * rewrite Htrace. cbn [trace s2 after_call].
        rewrite <- !app_assoc. reflexivity.
      * simpl. rewrite Hpolls. reflexivity.
Qed.

(** Rounds that show nothing, whether by a failed query or by an empty
    answer, do not stop the loop: it goes on to the poll that observes the
    pool error, and stops there. *)
Lemma waitLoop_rejected_after_quiet_rounds (txId : string) (stop : Z)
  (info : PendingInfo) (pe : string) :
  observes_pool_error info pe ->
  forall (k fuel : nat) (cur : Z) (s : St),
    (k < fuel)%nat ->
    cur + Z.of_nat k < stop ->
    (forall i, (i < k)%nat ->
       (query_failed (node_pending W (clock s + 2 * i) txId) \/
        exists info', node_pending W (clock s + 2 * i) txId = NodeOk info' /\
                      not_visible info') /\
       node_wait_block W (clock s + 2 * i + 1) (cur + Z.of_nat i) = NodeOk tt) ->
    node_pending W (clock s + 2 * k) txId = NodeOk info ->
    exists s' evs,
      Chain.waitLoop W fuel txId stop cur s = (Throw (Rejected pe), s') /\
      trace s' = trace s ++ evs ++ [NodeCall (GET_transactions_pending txId)] /\
      polls evs = k.
Proof.
  intros Hpe. induction k as [ | k IH]; intros fuel cur s Hfuel Hstop Hquiet Hrej.
  - destruct fuel as [ | fuel]; [ lia | ].
    replace (clock s + 2 * 0)%nat with (clock s) in Hrej by lia.
    assert (Hlt : cur < stop) by lia.
    rewrite (waitLoop_round _ _ _ _ _ Hlt), (poll_rejected _ _ _ _ Hrej Hpe).
    eexists. exists []. split; [ reflexivity | ]. split; reflexivity.
  - destruct fuel as [ | fuel]; [ lia | ].
    destruct (Hquiet O ltac:(lia)) as [Hpoll Hwait].
    replace (clock s + 2 * 0)%nat with (clock s) in Hpoll by lia.
    replace (clock s + 2 * 0 + 1)%nat with (S (clock s)) in Hwait by lia.
    replace (cur + Z.of_nat 0) with cur in Hwait by lia.
    assert (Hp : Chain.poll W txId s
                 = (Ok None, after_call (GET_transactions_pending txId) s)).
    { destruct Hpoll as [Hf | (info' & Hi & Hv)];
        [ apply poll_failed; assumption
        | eapply poll_not_visible; eassumption ]. }
    assert (Hlt : cur < stop) by lia.
    rewrite (waitLoop_round _ _ _ _ _ Hlt), Hp.
    unfold next_round, bind, Chain.makeAlgoNodeRequest at 1.
    cbn [clock after_call]. rewrite Hwait.
    set (s2 := {| clock := S (S (clock s));
                  trace := trace (after_call (GET_transactions_pending txId) s)
                           ++ [NodeCall (GET_wait_for_block_after cur)] |}).
    destruct (IH fuel (cur + 1) s2) as (s' & evs & Hrun & Htrace & Hpolls).
    + lia.
    + lia.
    + intros i Hi. destruct (Hquiet (S i) ltac:(lia)) as [Hpoll' Hwait'].
      cbn [clock s2].
      replace (S (S (clock s)) + 2 * i)%nat with (clock s + 2 * S i)%nat by lia.
      replace (cur + 1 + Z.of_nat i) with (cur + Z.of_nat (S i)) by lia.
      split; assumption.
    + cbn [clock s2].
      replace (S (S (clock s)) + 2 * k)%nat with (clock s + 2 * S k)%nat by lia.
      exact Hrej.
    + exists s', ([NodeCall (GET_transactions_pending txId);
                   NodeCall (GET_wait_for_block_after cur)] ++ evs).
      split; [ exact Hrun | ]. split.
      * rewrite Htrace. cbn [trace s2 after_call].
        rewrite <- !app_assoc. reflexivity.
      * simpl. rewrite Hpolls. reflexivity.
Qed.

(** The same through [waitConfirmation]: after the parameter query, any
    number of rounds within the budget that show nothing lead on to the
    poll that observes the pool error, which is the last request. *)
Lemma waitConfirmation_rejected_after_quiet_rounds (txId : string)
  (waitRounds : Z) (sp : SuggestedParams) (k : nat) (info : PendingInfo)
  (pe : string) (s : St) :
  node_params W (clock s) = NodeOk sp ->
  Z.of_nat k < waitRounds ->
  quiet_rounds W txId (S (clock s)) (lastRound sp) k ->
  node_pending W (S (clock s) + 2 * k) txId = NodeOk info ->
  observes_pool_error info pe ->
  exists s' evs,
    Chain.waitConfirmation W txId waitRounds s = (Throw (Rejected pe), s') /\
    trace s'
    = trace s ++ NodeCall GET_transactions_params
                 :: evs ++ [NodeCall (GET_transactions_pending txId)] /\
    polls evs = k.
Proof.
  intros Hparams Hk Hquiet Hrej Hpe.
  unfold Chain.waitConfirmation, Chain.getSuggestedParams.
  rewrite (bind_ok _ _ _ _ sp
             (node_run GET_transactions_params (node_params W) sp s Hparams)).
  set (s1 := after_call GET_transactions_params s).
  destruct (waitLoop_rejected_after_quiet_rounds txId
              (lastRound sp + waitRounds) info pe Hpe k
              (Z.to_nat (lastRound sp + waitRounds - lastRound sp))
              (lastRound sp) s1) as (s' & evs & Hrun & Htrace & Hpolls).
  - lia.
  - lia.
  - exact Hquiet.
  - exact Hrej.
  - exists s', evs. split; [ exact Hrun | ]. split; [ | exact Hpolls ].
    rewrite Htrace. unfold s1, after_call. cbn [trace].
    rewrite <- app_assoc. reflexivity.
Qed.

(** And through [submitTransaction], whose budget is twenty rounds. *)
Lemma submitTransaction_rejected_after_quiet_rounds
  (txnOrtxns : bytes + list bytes) (txid : string) (sp : SuggestedParams)
  (k : nat) (info : PendingInfo) (pe : string) (s : St) :
  let data := match txnOrtxns with
              | inl txn => txn
              | inr txns => List.concat txns
              end in
  node_post W (clock s) data = NodeOk txid ->
  node_params W (S (clock s)) = NodeOk sp ->
  (k < 20)%nat ->
  quiet_rounds W txid (S (S (clock s))) (lastRound sp) k ->
  node_pending W (S (S (clock s)) + 2 * k) txid = NodeOk info ->
  observes_pool_error info pe ->
  exists s' evs,
    Chain.submitTransaction W txnOrtxns s = (Throw (Rejected pe), s') /\
    trace s'
    = trace s ++ NodeCall (POST_transactions data)
                 :: NodeCall GET_transactions_params
                 :: evs ++ [NodeCall (GET_transactions_pending txid)] /\
    polls evs = k.
Proof.
  intros data Hpost Hparams Hk Hquiet Hrej Hpe.
  destruct (waitConfirmation_rejected_after_quiet_rounds txid
              Chain.default_waitRounds sp k info pe
              (after_call (POST_transactions data) s))
    as (s' & evs & Hrun & Htrace & Hpolls);
    try assumption.
  - unfold Chain.default_waitRounds. lia.
  - exists s', evs.
    split; [ exact (submitTransaction_propagates txnOrtxns txid s s'
                      (Rejected pe) Hpost Hrun) | ].
    split; [ | exact Hpolls ].
    rewrite Htrace. unfold after_call. cbn [trace].
    rewrite <- app_assoc. reflexivity.
Qed.

(** C3.  In a polling round, a pending-status query that fails is
    absorbed: the round goes on exactly as after an answer that shows the
    transaction not yet visible, with the wait for the next block and the
    rest of the loop.  A poll that observes a pool error throws the
    rejection at once, and the loop stops with that poll as its last
    request.  So [waitConfirmation], once its parameter query is answered,
    polls on through any number of rounds within its budget that show
    nothing, failed queries included, and throws the rejection when a
    poll observes a pool error, no request following that poll; and
    [submitTransaction], whose post was accepted, hands that rejection to
    its caller in the same way, as it does every error of
    [waitConfirmation]. *)
Theorem polling_absorbs_failures_rejection_is_terminal
  (fuel : nat) (txId : string) (stop cur : Z) (s : St) :
  cur < stop ->
  (query_failed (node_pending W (clock s) txId) ->
   Chain.waitLoop W (S fuel) txId stop cur s
   = next_round W fuel txId stop cur
       (after_call (GET_transactions_pending txId) s)) /\
  (forall info,
     node_pending W (clock s) txId = NodeOk info -> not_visible info ->
     Chain.waitLoop W (S fuel) txId stop cur s
     = next_round W fuel txId stop cur
         (after_call (GET_transactions_pending txId) s)) /\
  (forall info pe,
     node_pending W (clock s) txId = NodeOk info ->
     observes_pool_error info pe ->
     Chain.waitLoop W (S fuel) txId stop cur s
     = (Throw (Rejected pe), after_call (GET_transactions_pending txId) s)) /\
  (forall txnOrtxns txid e s0 s',
     node_post W (clock s0)
       match txnOrtxns with inl txn => txn | inr txns => List.concat txns end
     = NodeOk txid ->
     Chain.waitConfirmation W txid Chain.default_waitRounds
       (after_call (POST_transactions
          match txnOrtxns with inl txn => txn | inr txns => List.concat txns end)
          s0) = (Throw e, s') ->
     Chain.submitTransaction W txnOrtxns s0 = (Throw e, s')) /\
  (forall waitRounds sp k info pe s0,
     node_params W (clock s0) = NodeOk sp ->
     Z.of_nat k < waitRounds ->
     quiet_rounds W txId (S (clock s0)) (lastRound sp) k ->
     node_pending W (S (clock s0) + 2 * k) txId = NodeOk info ->
     observes_pool_error info pe ->
     exists s' evs,
       Chain.waitConfirmation W txId waitRounds s0
       = (Throw (Rejected pe), s') /\
       trace s'
       = trace s0 ++ NodeCall GET_transactions_params
                     :: evs ++ [NodeCall (GET_transactions_pending txId)] /\
       polls evs = k) /\
  (forall txnOrtxns sp k info pe s0,
     node_post W (clock s0)
       match txnOrtxns with inl txn => txn | inr txns => List.concat txns end
     = NodeOk txId ->
     node_params W (S (clock s0)) = NodeOk sp ->
     (k < 20)%nat ->
     quiet_rounds W txId (S (S (clock s0))) (lastRound sp) k ->
     node_pending W (S (S (clock s0)) + 2 * k) txId = NodeOk info ->
     observes_pool_error info pe ->
     exists s' evs,
       Chain.submitTransaction W txnOrtxns s0 = (Throw (Rejected pe), s') /\
       trace s'
       = trace s0
         ++ NodeCall (POST_transactions
              match txnOrtxns with
              | inl txn => txn
              | inr txns => List.concat txns
              end)
            :: NodeCall GET_transactions_params
            :: evs ++ [NodeCall (GET_transactions_pending txId)] /\
       polls evs = k).
Proof.
  intros Hlt. split; [ | split; [ | split; [ | split; [ | split ] ] ] ].
  - intros Hf. rewrite (waitLoop_round _ _ _ _ _ Hlt), (poll_failed _ _ Hf).
    reflexivity.
  - intros info Hi Hv.
    rewrite (waitLoop_round _ _ _ _ _ Hlt), (poll_not_visible _ _ _ Hi Hv).
    reflexivity.
  - intros info pe Hi Hp.
    rewrite (waitLoop_round _ _ _ _ _ Hlt), (poll_rejected _ _ _ _ Hi Hp).
    reflexivity.
  - intros txnOrtxns txid e s0 s' Hpost Hwait.
    exact (submitTransaction_propagates txnOrtxns txid s0 s' e Hpost Hwait).
  - intros waitRounds sp k info pe s0.
    apply waitConfirmation_rejected_after_quiet_rounds.
  - intros txnOrtxns sp k info pe s0.
    apply (submitTransaction_rejected_after_quiet_rounds txnOrtxns txId sp k
             info pe s0).
Qed.

End SubmissionPipeline.

Lemma rejected_late_quiet :
  quiet_rounds Samples.W_rejected_late "TXID" (S (clock St0)) 5000 2.
Proof.
  intros i Hi. split; [ | reflexivity ].
  left. destruct i as [ | [ | i]]; [ exact I | exact I | lia ].
Defined.

Lemma polling_absorbs_failures_rejection_is_terminal_witness :
  (5000 < 5020 /\
   query_failed (node_pending Samples.W_failing (clock St0) "TXID") /\
   Chain.waitLoop Samples.W_failing 20 "TXID" 5020 5000 St0
   = next_round Samples.W_failing 19 "TXID" 5020 5000
       (after_call (GET_transactions_pending "TXID") St0)) /\
  (node_pending Samples.W_rejected (clock St0) "TXID" = NodeOk Scenario.rejected /\
   observes_pool_error Scenario.rejected "overspend" /\
   Chain.waitLoop Samples.W_rejected 20 "TXID" 5020 5000 St0
   = (Throw (Rejected "overspend"),
      after_call (GET_transactions_pending "TXID") St0)) /\
  (quiet_rounds Samples.W_rejected_late "TXID" (S (clock St0)) 5000 2 /\
   exists s' evs,
     Chain.waitConfirmation Samples.W_rejected_late "TXID" 20 St0
     = (Throw (Rejected "overspend"), s') /\
     trace s'
     = trace St0 ++ NodeCall GET_transactions_params
                    :: evs ++ [NodeCall (GET_transactions_pending "TXID")] /\
     polls evs = 2%nat).
Proof.
  assert (Hlt : 5000 < 5020) by lia.
  assert (Hf : query_failed (node_pending Samples.W_failing (clock St0) "TXID"))
    by exact I.
  assert (Hp : observes_pool_error Scenario.rejected "overspend")
    by (repeat split).
  assert (Hk : Z.of_nat 2 < 20) by (simpl; lia).
  split; [ split; [ exact Hlt | split; [ exact Hf | ] ] | split ].
  - exact (proj1 (polling_absorbs_failures_rejection_is_terminal
                    Samples.W_failing 19 "TXID" 5020 5000 St0 Hlt) Hf).
  - split; [ reflexivity | split; [ exact Hp | ] ].
    exact (proj1 (proj2 (proj2
             (polling_absorbs_failures_rejection_is_terminal
                Samples.W_rejected 19 "TXID" 5020 5000 St0 Hlt)))
             Scenario.rejected "overspend" eq_refl Hp).
  - split; [ exact rejected_late_quiet | ].
    exact (proj1 (proj2 (proj2 (proj2 (proj2
             (polling_absorbs_failures_rejection_is_terminal
                Samples.W_rejected_late 19 "TXID" 5020 5000 St0 Hlt)))))
             20 Scenario.params 2%nat Scenario.rejected "overspend" St0
             eq_refl Hk rejected_late_quiet eq_refl Hp).
Defined.

(** C4.  The round budget runs out without a confirmed round: in a world
    where twenty polls in a row show the transaction as not yet visible,
    [waitConfirmation] returns no value and [submitTransaction] returns the
    transaction id, the very result it gives when the first poll shows the
    transaction confirmed.  Only a rejection is told apart (it throws). *)
Theorem submitTransaction_timeout_looks_confirmed :
  result_of (Chain.waitConfirmation Samples.W_never "TXID" 20 St0) = Ok None /\
  polls (trace (state_of (Chain.waitConfirmation Samples.W_never "TXID" 20 St0)))
  = 20%nat /\
  result_of (Chain.submitTransaction Samples.W_never (inl Samples.signed_pay7) St0)
  = Ok "TXID" /\
  result_of (Chain.submitTransaction Samples.W_confirmed (inl Samples.signed_pay7) St0)
  = Ok "TXID" /\
  result_of (Chain.submitTransaction Samples.W_rejected (inl Samples.signed_pay7) St0)
  = Throw (Rejected "overspend").
Proof. repeat split; vm_compute; reflexivity. Qed.

(** The same for every world: when the node accepts the submission and
    twenty rounds in a row show nothing, [submitTransaction] returns the
    transaction id. *)
Lemma submitTransaction_budget_exhausted (W : World)
  (txnOrtxns : bytes + list bytes) (txid : string) (sp : SuggestedParams)
  (s : St) :
  let data := match txnOrtxns with
              | inl txn => txn
              | inr txns => List.concat txns
              end in
  node_post W (clock s) data = NodeOk txid ->
  node_params W (S (clock s)) = NodeOk sp ->
  (forall i, (i < 20)%nat ->
     (query_failed (node_pending W (S (S (clock s)) + 2 * i) txid) \/
      exists info, node_pending W (S (S (clock s)) + 2 * i) txid = NodeOk info /\
                   not_visible info) /\
     node_wait_block W (S (S (clock s)) + 2 * i + 1) (lastRound sp + Z.of_nat i)
     = NodeOk tt) ->
  result_of (Chain.submitTransaction W txnOrtxns s) = Ok txid.
Proof.
  intros data Hpost Hparams Hquiet. unfold Chain.submitTransaction.
  fold data.
  rewrite (bind_ok _ _ _ _ txid
             (node_run (POST_transactions data)
                (fun c => node_post W c data) txid s Hpost)).
  unfold Chain.waitConfirmation, Chain.getSuggestedParams.
  set (s1 := after_call (POST_transactions data) s).
  assert (Hparams' : node_params W (clock s1) = NodeOk sp) by exact Hparams.
  unfold bind at 1.
  rewrite (bind_ok _ _ _ _ sp
             (node_run GET_transactions_params (node_params W) sp s1 Hparams')).
  set (s2 := after_call GET_transactions_params s1).
  replace (lastRound sp + Chain.default_waitRounds - lastRound sp)
    with (Z.of_nat 20) by (unfold Chain.default_waitRounds; lia).
  rewrite Nat2Z.id.
  destruct (waitLoop_exhausted W txid (lastRound sp + Chain.default_waitRounds)
              20 (lastRound sp) s2) as (s' & Hrun & _).
  - unfold Chain.default_waitRounds. lia.
  - exact Hquiet.
  - rewrite Hrun. reflexivity.
Qed.

(* ===================================================================== *)
(** ** FundingAndOptInResolver: the transactions of [transferAsset] *)
(* ===================================================================== *)

Section Resolver.
Context (W : World) {E : Encoder}.

Lemma add_lease_if_ok (lease : option string) (t : Transaction) :
  lease_ok lease ->
  Chain.add_lease_if lease t
  = Ok {| snd := snd t; fee := fee t; fv := fv t; lv := lv t; gen := gen t;
          gh := gh t; note := note t;
          lx := match lease_field lease with Some b => Some b | None => lx t end;
          grp := grp t; body := body t |}.
Proof.
  unfold lease_ok, lease_field, Chain.add_lease_if, Chain.addLease,
    Chain.parseLease.
  destruct lease as [l | ]; [ destruct (JS.truthy_string l) | ]; intros Hok.
  - apply Z.eqb_eq in Hok. rewrite Hok. reflexivity.
  - destruct t; reflexivity.
  - destruct t; reflexivity.
Qed.

Lemma craft_payment (from to : string) (amount : Z) (sp : SuggestedParams)
  (s : St) :
  Chain.craftPaymentTx W from to amount (Some sp) s
  = (Ok (encodeTransaction (funding_tx W from to sp amount)),
     logged (Crafted (funding_tx W from to sp amount)) s).
Proof. reflexivity. Qed.

Lemma craft_optin (ua : string) (assetId : Z) (sp : SuggestedParams)
  (lease : option string) (s : St) :
  lease_ok lease ->
  Chain.craftAssetTransferTx W ua ua assetId 0 lease None (Some sp) s
  = (Ok (encodeTransaction (optin_tx W ua assetId sp lease)),
     logged (Crafted (optin_tx W ua assetId sp lease)) s).
Proof.
  intros Hok. unfold Chain.craftAssetTransferTx, Chain.params_or_fetch.
  rewrite bind_ret. cbn [Chain.add_note_if].
  unfold bind, lift. rewrite (add_lease_if_ok _ _ Hok). cbn.
  unfold optin_tx, logged. destruct (lease_field lease); reflexivity.
Qed.

Lemma craft_primary (ma ua : string) (assetId amount : Z) (sp : SuggestedParams)
  (lease note : option string) (s : St) :
  lease_ok lease ->
  Chain.craftAssetTransferTx W ma ua assetId amount lease note (Some sp) s
  = (Ok (encodeTransaction (primary_tx W ma ua assetId amount sp lease note)),
     logged (Crafted (primary_tx W ma ua assetId amount sp lease note)) s).
Proof.
  intros Hok. unfold Chain.craftAssetTransferTx, Chain.params_or_fetch.
  rewrite bind_ret. unfold bind, lift. rewrite (add_lease_if_ok _ _ Hok).
  unfold primary_tx, note_field, Chain.add_note_if, logged.
  destruct note as [n | ]; [ destruct (JS.truthy_string n) | ];
    cbn; destruct (lease_field lease); reflexivity.
Qed.

Lemma getAccountAsset_holding (ua : string) (assetId : Z) (absent : bool) (s : St) :
  holding_answer absent (node_account_asset W (clock s) ua assetId) ->
  Chain.getAccountAsset W ua assetId s
  = (Ok (if absent then None else Some tt),
     after_call (GET_accounts_assets ua assetId) s).
Proof.
  unfold holding_answer, Chain.getAccountAsset, try_catch, bind,
    Chain.makeAlgoNodeRequest.
  destruct absent; [ intros [text ->] | intros -> ]; reflexivity.
Qed.

Lemma getAccountBalance_run (addr : string) (d0 : AccountDetail) (s : St) :
  node_account W (clock s) addr = NodeOk d0 ->
  Chain.getAccountBalance W addr s
  = (Ok (amount d0), after_call (GET_accounts addr) s).
Proof.
  intros Hd0. unfold Chain.getAccountBalance.
  rewrite (bind_ok _ _ _ _ d0
             (node_run (GET_accounts addr)
                (fun c => node_account W c addr) d0 s Hd0)).
  reflexivity.
Qed.

Lemma getUserInfo_run (userId : string) (uk : bytes) (d0 : AccountDetail)
  (s : St) :
  vault_key W VAULT_TRANSIT_USERS_PATH userId = VaultOk uk ->
  node_account W (clock s) (encodeAddress uk) = NodeOk d0 ->
  Wallet.getUserInfo W userId s
  = (Ok {| Wallet.user_id := userId;
           Wallet.info_public_address := encodeAddress uk;
           Wallet.algoBalance := amount d0 |},
     after_call (GET_accounts (encodeAddress uk))
       (logged (VaultGetKey VAULT_TRANSIT_USERS_PATH userId) s)).
Proof.
  intros Huk Hd0. unfold Wallet.getUserInfo, Vault.getUserPublicKey.
  rewrite (bind_ok _ _ _ _ _ (getKey_run W _ _ _ s Huk)).
  rewrite (bind_ok _ _ _ _ _
             (getAccountBalance_run (encodeAddress uk) d0
                (logged (VaultGetKey VAULT_TRANSIT_USERS_PATH userId) s) Hd0)).
  reflexivity.
Qed.

(** What [transferAsset] builds when every query is answered and the lease
    is acceptable: funding, opt-in, primary transfer, in this order. *)
Lemma transferAsset_unsigned_run (assetId : Z) (userId : string) (amount : Z)
  (lease note : option string) (s : St)
  (ua ma : string) (sp : SuggestedParams) (absent : bool) (d : AccountDetail) :
  answers W s userId assetId ua ma sp absent d ->
  lease_ok lease ->
  exists s',
    Wallet.transferAsset_unsigned W assetId userId amount lease note s
    = (Ok (ua, ma,
           map encodeTransaction
             (funding_txs W ma ua sp absent d
              ++ optin_txs W ua assetId sp absent lease
              ++ [primary_tx W ma ua assetId amount sp lease note])),
       s').
Proof.
  intros (uk & mk & d0 & Huk & -> & Hd0 & Hmk & -> & Hsp & Hhold & Hd) Hlease.
  unfold Wallet.transferAsset_unsigned.
  rewrite (bind_ok _ _ _ _ _ (getUserInfo_run userId uk d0 s Huk Hd0)).
  cbn [Wallet.info_public_address].
  set (s1 := after_call (GET_accounts (encodeAddress uk))
               (logged (VaultGetKey VAULT_TRANSIT_USERS_PATH userId) s)).
  unfold Vault.getManagerPublicKey.
  rewrite (bind_ok _ _ _ _ _ (getKey_run W _ _ _ s1 Hmk)).
  set (s2 := logged (VaultGetKey VAULT_TRANSIT_MANAGERS_PATH (VAULT_MANAGER_KEY W)) s1).
  unfold Chain.getSuggestedParams.
  rewrite (bind_ok _ _ _ _ sp
             (node_run GET_transactions_params (node_params W) sp s2 Hsp)).
  set (s3 := after_call GET_transactions_params s2).
  rewrite (bind_ok _ _ _ _ _
             (getAccountAsset_holding (encodeAddress uk) assetId absent s3 Hhold)).
  set (s4 := after_call (GET_accounts_assets (encodeAddress uk) assetId) s3).
  unfold Chain.getAccountDetail.
  rewrite (bind_ok _ _ _ _ d
             (node_run (GET_accounts (encodeAddress uk))
                (fun c => node_account W c (encodeAddress uk)) d s4 Hd)).
  set (s5 := after_call (GET_accounts (encodeAddress uk)) s4).
  assert (Habs : match (if absent then None else Some tt) with
                 | Some _ => false | None => true end = absent)
    by (destruct absent; reflexivity).
  rewrite Habs.
  unfold funding_txs, optin_txs. fold (funding_amount absent sp d).
  destruct (Wallet.ownedExtraAlgo d <? Wallet.extraAlgoNeed absent sp);
    destruct absent.
  - rewrite (bind_ok _ _ _ _ _
               (bind_ok _ _ _ _ _ (craft_payment _ _ _ sp s5))).
    rewrite (bind_ok _ _ _ _ _
               (bind_ok _ _ _ _ _ (craft_optin _ assetId sp lease _ Hlease))).
    rewrite (bind_ok _ _ _ _ _
               (craft_primary _ _ assetId amount sp lease note _ Hlease)).
    eexists. reflexivity.
  - rewrite (bind_ok _ _ _ _ _
               (bind_ok _ _ _ _ _ (craft_payment _ _ _ sp s5))).
    rewrite bind_ret.
    rewrite (bind_ok _ _ _ _ _
               (craft_primary _ _ assetId amount sp lease note _ Hlease)).
    eexists. reflexivity.
  - rewrite bind_ret.
    rewrite (bind_ok _ _ _ _ _
               (bind_ok _ _ _ _ _ (craft_optin _ assetId sp lease _ Hlease))).
    rewrite (bind_ok _ _ _ _ _
               (craft_primary _ _ assetId amount sp lease note _ Hlease)).
    eexists. reflexivity.
  - rewrite !bind_ret.
    rewrite (bind_ok _ _ _ _ _
               (craft_primary _ _ assetId amount sp lease note _ Hlease)).
    eexists. reflexivity.
Qed.

Lemma extraAlgoNeed_exact (absent : bool) (sp : SuggestedParams) :
  0 <= minFee sp <= JS.two53 - optInReserve ->
  Wallet.extraAlgoNeed absent sp = extraMinBalanceNeeded absent (minFee sp).
Proof.
  unfold Wallet.extraAlgoNeed, extraMinBalanceNeeded, Wallet.optin_min_balance,
    optInReserve, JS.two53.
  intros Hfee. destruct absent; [ | reflexivity ].
  rewrite (Number_safe (minFee sp)) by (unfold JS.safe, JS.two53; lia).
  rewrite (add_safe 0 100000) by (unfold JS.safe, JS.two53; lia).
  rewrite add_safe by (unfold JS.safe, JS.two53; lia).
  reflexivity.
Qed.

Lemma funding_amount_exact (absent : bool) (sp : SuggestedParams)
  (d : AccountDetail) :
  0 <= minFee sp <= JS.two53 - optInReserve ->
  ownedSlack d < extraMinBalanceNeeded absent (minFee sp) ->
  extraMinBalanceNeeded absent (minFee sp) - ownedSlack d <= JS.two53 ->
  funding_amount absent sp d
  = extraMinBalanceNeeded absent (minFee sp) - ownedSlack d.
Proof.
  intros Hfee Hlt Hbound. unfold funding_amount.
  rewrite (extraAlgoNeed_exact _ _ Hfee).
  change (Wallet.ownedExtraAlgo d) with (ownedSlack d).
  assert (Hneed : 0 <= extraMinBalanceNeeded absent (minFee sp) <= JS.two53).
  { unfold extraMinBalanceNeeded, optInReserve, JS.two53 in *.
    destruct absent; lia. }
  rewrite (Number_safe (ownedSlack d)) by (unfold JS.safe; lia).
  apply sub_safe. unfold JS.safe. lia.
Qed.

(** Where [number] arithmetic is exact, [transferAsset] funds the
    receiver as its description says.  With a fee of at most
    2^53 - 100000, for every receiver snapshot: a funding payment is built
    exactly when [ownedSlack < extraMinBalanceNeeded]; the payment goes
    from the manager to the receiver and comes first in the bundle, no
    other member is a payment; and its amount is the shortfall
    [extraMinBalanceNeeded - ownedSlack] whenever that is at most 2^53. *)
Theorem transferAsset_funding_iff_shortfall
  (assetId : Z) (userId : string) (amount : Z) (lease note : option string)
  (s : St) (ua ma : string) (sp : SuggestedParams) (absent : bool)
  (d : AccountDetail) :
  answers W s userId assetId ua ma sp absent d ->
  lease_ok lease ->
  0 <= minFee sp <= JS.two53 - optInReserve ->
  exists funding rest s',
    Wallet.transferAsset_unsigned W assetId userId amount lease note s
    = (Ok (ua, ma, map encodeTransaction (funding ++ rest)), s') /\
    Forall (fun t => ~ is_payment t) rest /\
    (extraMinBalanceNeeded absent (minFee sp) <= ownedSlack d -> funding = []) /\
    (ownedSlack d < extraMinBalanceNeeded absent (minFee sp) ->
     funding = [funding_tx W ma ua sp (funding_amount absent sp d)] /\
     (extraMinBalanceNeeded absent (minFee sp) - ownedSlack d <= JS.two53 ->
      funding_amount absent sp d
      = extraMinBalanceNeeded absent (minFee sp) - ownedSlack d)).
Proof.
  intros Hans Hlease Hfee.
  destruct (transferAsset_unsigned_run assetId userId amount lease note s
              ua ma sp absent d Hans Hlease) as [s' Hrun].
  exists (funding_txs W ma ua sp absent d),
    (optin_txs W ua assetId sp absent lease
     ++ [primary_tx W ma ua assetId amount sp lease note]), s'.
  split; [ exact Hrun | ]. split; [ | split ].
  - apply Forall_app. split.
    + unfold optin_txs. destruct absent; repeat constructor. exact (fun H => H).
    + repeat constructor. exact (fun H => H).
  - intros Hge. unfold funding_txs.
    rewrite (extraAlgoNeed_exact _ _ Hfee). change (Wallet.ownedExtraAlgo d) with (ownedSlack d).
    destruct (Z.ltb_spec (ownedSlack d)
                (extraMinBalanceNeeded absent (minFee sp))); [ lia | reflexivity ].
  - intros Hlt. split.
    + unfold funding_txs.
      rewrite (extraAlgoNeed_exact _ _ Hfee). change (Wallet.ownedExtraAlgo d) with (ownedSlack d).
      destruct (Z.ltb_spec (ownedSlack d)
                  (extraMinBalanceNeeded absent (minFee sp))); [ reflexivity | lia ].
    + intros Hbound. apply funding_amount_exact; assumption.
Qed.

(** C5.  Whenever the receiver's holding is absent, the bundle
    [transferAsset] builds contains an opt-in: an asset transfer of amount
    zero whose sender and receiver are both the receiver's address.  The
    bundle is always: the funding payment from the manager to the receiver
    when there is one, then the opt-in when there is one, then the primary
    transfer of the asset from the manager to the receiver. *)
Theorem transferAsset_bundle_order
  (assetId : Z) (userId : string) (amount : Z) (lease note : option string)
  (s : St) (ua ma : string) (sp : SuggestedParams) (absent : bool)
  (d : AccountDetail) :
  answers W s userId assetId ua ma sp absent d ->
  lease_ok lease ->
  exists funding optin primary s',
    Wallet.transferAsset_unsigned W assetId userId amount lease note s
    = (Ok (ua, ma, map encodeTransaction (funding ++ optin ++ [primary])), s') /\
    (funding = [] \/ exists amt, funding = [funding_tx W ma ua sp amt]) /\
    (absent = true ->
     exists t, optin = [t] /\ snd t = ua /\
               body t = Axfer assetId ua None None /\
               asset_amount t = Some 0) /\
    (absent = false -> optin = []) /\
    snd primary = ma /\
    body primary = Axfer assetId ua (Chain.amount_if amount) None.
Proof.
  intros Hans Hlease.
  destruct (transferAsset_unsigned_run assetId userId amount lease note s
              ua ma sp absent d Hans Hlease) as [s' Hrun].
  exists (funding_txs W ma ua sp absent d),
    (optin_txs W ua assetId sp absent lease),
    (primary_tx W ma ua assetId amount sp lease note), s'.
  split; [ exact Hrun | ]. split; [ | split; [ | split; [ | split ] ] ].
  - unfold funding_txs.
    destruct (Wallet.ownedExtraAlgo d <? Wallet.extraAlgoNeed absent sp);
      [ right; eexists; reflexivity | left; reflexivity ].
  - intros ->. exists (optin_tx W ua assetId sp lease). repeat split.
  - intros ->. reflexivity.
  - reflexivity.
  - reflexivity.
Qed.

End Resolver.

Lemma answers_optin :
  answers (E := Scenario.encoder) Receivers.W_optin St0 "alice" 5
    Scenario.alice_address Scenario.manager_address Scenario.params true
    Scenario.empty_account.
Proof.
  exists Scenario.alice_key, Scenario.manager_key, Scenario.empty_account.
  repeat split. exists "asset not found". reflexivity.
Defined.

Lemma answers_huge :
  answers (E := Scenario.encoder) Receivers.W_huge St0 "alice" 5
    Scenario.alice_address Scenario.manager_address Scenario.params true
    Scenario.huge_deficit.
Proof.
  exists Scenario.alice_key, Scenario.manager_key, Scenario.huge_deficit.
  repeat split. exists "asset not found". reflexivity.
Defined.

Lemma fee_1000_safe : 0 <= minFee Scenario.params <= JS.two53 - optInReserve.
Proof. vm_compute. split; discriminate. Defined.

(** An empty account that has not opted in: a funding payment of
    101000 + 100000 micro-units is built. *)
Lemma transferAsset_funding_iff_shortfall_witness :
  ownedSlack Scenario.empty_account
  < extraMinBalanceNeeded true (minFee Scenario.params) /\
  exists funding rest s',
    Wallet.transferAsset_unsigned (E := Scenario.encoder) Receivers.W_optin
      5 "alice" 10 None None St0
    = (Ok (Scenario.alice_address, Scenario.manager_address,
           map Scenario.encodeTx (funding ++ rest)), s') /\
    funding = [funding_tx Receivers.W_optin Scenario.manager_address
                 Scenario.alice_address Scenario.params 201000].
Proof.
  assert (Hlt : ownedSlack Scenario.empty_account
                < extraMinBalanceNeeded true (minFee Scenario.params))
    by reflexivity.
  split; [ exact Hlt | ].
  destruct (transferAsset_funding_iff_shortfall Receivers.W_optin
              (E := Scenario.encoder) 5 "alice" 10 None None St0
              Scenario.alice_address Scenario.manager_address Scenario.params
              true Scenario.empty_account answers_optin I fee_1000_safe)
    as (funding & rest & s' & Hrun & _ & _ & Hsome).
  destruct (Hsome Hlt) as (Hf & Hamt).
  exists funding, rest, s'. split; [ exact Hrun | ].
  rewrite Hf, Hamt; [ reflexivity | vm_compute; discriminate ].
Defined.

(** C1.  The funding payment does not always cover the difference.  A
    receiver whose minimum balance exceeds its balance by 2^53 + 1 and
    that has not opted in, at a fee of 1000: [ownedSlack] is
    -9007199254740993 and [extraMinBalanceNeeded] is 101000, so the
    shortfall is 9007199254841993; the funding payment [transferAsset]
    builds carries 9007199254841992, one micro-unit less, because
    [Number(userOwnedExtraAlgo)] rounds the slack to -2^53. *)
Lemma transferAsset_funding_amount_rounded :
  ownedSlack Scenario.huge_deficit = - 9007199254740993 /\
  extraMinBalanceNeeded true (minFee Scenario.params) = 101000 /\
  ownedSlack Scenario.huge_deficit
  < extraMinBalanceNeeded true (minFee Scenario.params) /\
  extraMinBalanceNeeded true (minFee Scenario.params)
  - ownedSlack Scenario.huge_deficit = 9007199254841993 /\
  JS.Number (ownedSlack Scenario.huge_deficit) = - 9007199254740992 /\
  (exists rest s',
     Wallet.transferAsset_unsigned (E := Scenario.encoder) Receivers.W_huge
       5 "alice" 10 None None St0
     = (Ok (Scenario.alice_address, Scenario.manager_address,
            Scenario.encodeTx
              (funding_tx Receivers.W_huge Scenario.manager_address
                 Scenario.alice_address Scenario.params 9007199254841992)
            :: rest), s')) /\
  nth_error
    (events_of (Wallet.transferAsset_unsigned (E := Scenario.encoder)
                  Receivers.W_huge 5 "alice" 10 None None) St0) 6
  = Some (Crafted (funding_tx Receivers.W_huge Scenario.manager_address
                     Scenario.alice_address Scenario.params 9007199254841992)) /\
  9007199254841992 <> 9007199254841993.
Proof.
  split; [ reflexivity | ]. split; [ reflexivity | ].
  split; [ reflexivity | ]. split; [ reflexivity | ].
  split; [ reflexivity | ]. split; [ | split ].
  - eexists. eexists. vm_compute. reflexivity.
  - vm_compute. reflexivity.
  - discriminate.
Qed.

(** The test for the payment is made in [number] arithmetic too.  At a
    fee of 2^53 - 1 the sum of reserve and fee is rounded up by one, so a
    receiver whose slack equals [extraMinBalanceNeeded] is taken to fall
    short, and a funding payment of zero is built. *)
Example transferAsset_funding_of_zero_at_largest_fee :
  ownedSlack Fees.exact_slack
  = extraMinBalanceNeeded true (minFee Fees.largest_fee) /\
  exists rest s',
    Wallet.transferAsset_unsigned (E := Scenario.encoder) Fees.W
      5 "alice" 10 None None St0
    = (Ok (Scenario.alice_address, Scenario.manager_address,
           Scenario.encodeTx
             (funding_tx Fees.W Scenario.manager_address
                Scenario.alice_address Fees.largest_fee 0)
           :: rest), s').
Proof.
  split; [ reflexivity | ].
  eexists. eexists. vm_compute. reflexivity.
Qed.

Lemma transferAsset_bundle_order_witness :
  exists funding optin primary s',
    Wallet.transferAsset_unsigned (E := Scenario.encoder) Receivers.W_optin
      5 "alice" 10 None None St0
    = (Ok (Scenario.alice_address, Scenario.manager_address,
           map Scenario.encodeTx (funding ++ optin ++ [primary])), s') /\
    (exists t, optin = [t] /\ snd t = Scenario.alice_address /\
               body t = Axfer 5 Scenario.alice_address None None /\
               asset_amount t = Some 0) /\
    snd primary = Scenario.manager_address.
Proof.
  destruct (transferAsset_bundle_order Receivers.W_optin
              (E := Scenario.encoder) 5 "alice" 10 None None St0
              Scenario.alice_address Scenario.manager_address Scenario.params
              true Scenario.empty_account answers_optin I)
    as (funding & optin & primary & s' & Hrun & _ & Habsent & _ & Hsnd & _).
  exists funding, optin, primary, s'.
  split; [ exact Hrun | ]. split; [ exact (Habsent eq_refl) | exact Hsnd ].
Defined.

(** The signatures requested in a run, in order. *)
Example transferAsset_three_members_signed_by_sender :
  result_of (Wallet.transferAsset (E := Scenario.encoder) Receivers.W_optin
               5 "alice" 10 None None St0) = Ok "TXID" /\
  map vault_ref
    (filter (fun ev => match ev with VaultSign _ _ _ => true | _ => false end)
       (events_of (Wallet.transferAsset (E := Scenario.encoder)
                     Receivers.W_optin 5 "alice" 10 None None) St0))
  = [Some (VAULT_TRANSIT_MANAGERS_PATH, "manager");
     Some (VAULT_TRANSIT_USERS_PATH, "alice");
     Some (VAULT_TRANSIT_MANAGERS_PATH, "manager")].
Proof. split; vm_compute; reflexivity. Qed.

Example transferAsset_one_member_when_opted_in_and_funded :
  result_of (Wallet.transferAsset (E := Scenario.encoder) Samples.W_confirmed
               5 "alice" 10 None None St0) = Ok "TXID" /\
  map vault_ref
    (filter (fun ev => match ev with VaultSign _ _ _ => true | _ => false end)
       (events_of (Wallet.transferAsset (E := Scenario.encoder)
                     Samples.W_confirmed 5 "alice" 10 None None) St0))
  = [Some (VAULT_TRANSIT_MANAGERS_PATH, "manager")].
Proof. split; vm_compute; reflexivity. Qed.

(* ===================================================================== *)
(** ** TransferOrchestrator: validation of the parties of [sendGroup] *)
(* ===================================================================== *)

Section GroupValidation.
Context (W : World) {E : Encoder}.

Lemma emits_getKey (P : Event -> Prop) (Q : bytes -> Prop) (R : Error -> Prop)
  (keyName : string) (p : TransitPath) :
  P (VaultGetKey p keyName) ->
  (forall key, vault_key W p keyName = VaultOk key -> Q key) ->
  (forall response_status,
     vault_failure (vault_key W p keyName) = Some response_status ->
     R (Vault.rethrown response_status)) ->
  emits P Q R (Vault.getKey W keyName p).
Proof.
  intros HP HQ HR s. exists [VaultGetKey p keyName].
  destruct (vault_answered_or_failed (vault_key W p keyName))
    as [[key Hk] | [rs Hk]].
  - rewrite (getKey_run W _ _ _ s Hk). simpl. repeat split; auto.
  - rewrite (getKey_fail W _ _ _ s Hk). simpl. repeat split; auto.
Qed.

Lemma resolve_emits (u : User) :
  emits key_lookup
    (fun a => custody_address W u = Some a)
    (fun e => is_vault_exception e /\ custody_address W u = None)
    (Wallet.resolve W u).
Proof.
  unfold Wallet.resolve.
  eapply emits_bind with (Q' := fun key =>
           vault_key W (vault_path (type u)) (id u) = VaultOk key).
  - unfold custody_address.
    destruct (type u); cbn [vault_path];
      (apply emits_getKey;
       [ exact I
       | intros key Hk; exact Hk
       | intros rs Hk; split;
         [ exists rs; reflexivity
         | destruct (vault_key W _ (id u)); [ discriminate | | ];
           reflexivity ] ]).
  - intros key Hk. apply emits_ret. unfold custody_address. now rewrite Hk.
Qed.

(** The first loop of [sendGroup] makes key lookups only; when it comes to
    an end, every entry collected so far is kept and every party of the
    group has an entry carrying its custody address; when it throws, the
    vault had no key for some party. *)
Lemma collect_users_emits (transactions : list GroupItem) :
  forall users0,
    emits key_lookup
      (fun users =>
         (forall c, In c users0 -> In c users) /\
         forall u, In u (parties transactions) ->
           exists a, custody_address W u = Some a /\
                     In (Wallet.checked_of u a) users)
      (fun e =>
         is_vault_exception e /\
         exists u, In u (parties transactions) /\ custody_address W u = None)
      (Wallet.collect_users W transactions users0).
Proof.
  induction transactions as [ | tx rest IH]; intros users0.
  - simpl. apply emits_ret. split; [ auto | intros u [] ].
  - cbn [Wallet.collect_users].
    eapply emits_bind with
      (Q' := fun a => custody_address W (txn_sender (txn tx)) = Some a).
    + eapply emits_weaken; [ | | | apply resolve_emits ]; auto.
      intros e [He Hnone]. split; [ exact He | ].
      exists (txn_sender (txn tx)). split; [ | exact Hnone ].
      simpl. left. reflexivity.
    + intros sa Hsa.
      destruct (txn_receiver (txn tx)) as [r | ] eqn:Hr.
      * eapply emits_bind with (Q' := fun a => custody_address W r = Some a).
        -- eapply emits_weaken; [ | | | apply resolve_emits ]; auto.
           intros e [He Hnone]. split; [ exact He | ].
           exists r. split; [ | exact Hnone ].
           simpl. rewrite Hr. right. left. reflexivity.
        -- intros ra Hra.
           eapply emits_weaken; [ | | | apply IH ]; auto.
           ++ intros users [Hkeep Hall]. split.
              ** intros c Hc. apply Hkeep. apply in_or_app. left. exact Hc.
              ** intros u Hu. simpl in Hu. rewrite Hr in Hu.
                 destruct Hu as [<- | [<- | Hu]].
                 --- exists sa. split; [ exact Hsa | ].
                     apply Hkeep. apply in_or_app. right. left. reflexivity.
                 --- exists ra. split; [ exact Hra | ].
                     apply Hkeep. apply in_or_app. right. right. left.
                     reflexivity.
                 --- apply Hall. exact Hu.
           ++ intros e [He (u & Hu & Hnone)]. split; [ exact He | ].
              exists u. split; [ | exact Hnone ].
              simpl. rewrite Hr. right. right. exact Hu.
      * eapply emits_weaken; [ | | | apply IH ]; auto.
        -- intros users [Hkeep Hall]. split.
           ++ intros c Hc. apply Hkeep. apply in_or_app. left. exact Hc.
           ++ intros u Hu. simpl in Hu. rewrite Hr in Hu.
              destruct Hu as [<- | Hu].
              ** exists sa. split; [ exact Hsa | ].
                 apply Hkeep. apply in_or_app. right. left. reflexivity.
              ** apply Hall. exact Hu.
        -- intros e [He (u & Hu & Hnone)]. split; [ exact He | ].
           exists u. split; [ | exact Hnone ].
           simpl. rewrite Hr. right. exact Hu.
Qed.

Lemma areUsersValid_spoofed (users : list Wallet.Checked) (u : User) (a : string) :
  In (Wallet.checked_of u a) users ->
  a <> public_address u ->
  Wallet.areUsersValid users = false.
Proof.
  intros Hin Hne. unfold Wallet.areUsersValid.
  destruct (forallb _ users) eqn:Hall; [ | reflexivity ].
  rewrite forallb_forall in Hall. specialize (Hall _ Hin).
  cbn in Hall. apply String.eqb_eq in Hall. contradiction.
Qed.

(** A group with a spoofed party never gets past validation. *)
Lemma sendGroup_spoofed_party (transactions : list GroupItem) (u : User) :
  In u (parties transactions) ->
  spoofed W u ->
  emits key_lookup none
    (fun e => e = InvalidUsers \/
              (is_vault_exception e /\ ~ custody_resolves W transactions))
    (Wallet.sendGroup W transactions).
Proof.
  intros Hu (a & Ha & Hne). unfold Wallet.sendGroup.
  eapply emits_bind with
    (Q' := fun users =>
             forall v, In v (parties transactions) ->
               exists a, custody_address W v = Some a /\
                         In (Wallet.checked_of v a) users).
  - eapply emits_weaken; [ | | | apply (collect_users_emits transactions []) ].
    + auto.
    + intros users [_ Hall]. exact Hall.
    + intros e [He (v & Hv & Hnone)]. right. split; [ exact He | ].
      intros Hres. exact (Hres v Hv Hnone).
  - intros users Hall.
    destruct (Hall u Hu) as (a' & Ha' & Hin).
    rewrite Ha in Ha'. injection Ha' as <-.
    rewrite (areUsersValid_spoofed users u a Hin Hne). cbn [negb].
    apply emits_throw. left. reflexivity.
Qed.

Lemma sender_is_party (transactions : list GroupItem) (tx : GroupItem) :
  In tx transactions -> In (txn_sender (txn tx)) (parties transactions).
Proof.
  intros Hin. unfold parties. apply in_flat_map. exists tx.
  split; [ exact Hin | left; reflexivity ].
Qed.

Lemma receiver_is_party (transactions : list GroupItem) (tx : GroupItem) (r : User) :
  In tx transactions -> txn_receiver (txn tx) = Some r ->
  In r (parties transactions).
Proof.
  intros Hin Hr. unfold parties. apply in_flat_map. exists tx.
  split; [ exact Hin | ]. rewrite Hr. right. left. reflexivity.
Qed.

Lemma resolve_run (u : User) (a : string) (s : St) :
  custody_address W u = Some a ->
  Wallet.resolve W u s = (Ok a, logged (lookup_of u) s).
Proof.
  unfold custody_address, Wallet.resolve, lookup_of,
    Vault.getUserPublicKey, Vault.getNamedManagerPublicKey.
  destruct (vault_key W (vault_path (type u)) (id u)) as [key | |] eqn:Hk;
    [ | discriminate | discriminate ].
  intros [= <-].
  destruct (type u); cbn [vault_path] in *;
    rewrite (bind_ok _ _ _ _ _ (getKey_run W _ _ _ s Hk)); reflexivity.
Qed.

Lemma resolve_fail (u : User) (e : Error) (s : St) :
  custody_error W u = Some e ->
  Wallet.resolve W u s = (Throw e, logged (lookup_of u) s).
Proof.
  unfold custody_error, Wallet.resolve, lookup_of,
    Vault.getUserPublicKey, Vault.getNamedManagerPublicKey.
  destruct (vault_failure (vault_key W (vault_path (type u)) (id u)))
    as [rs | ] eqn:Hf; [ | discriminate ].
  intros [= <-].
  destruct (type u); cbn [vault_path] in *;
    rewrite (bind_throw _ _ _ _ _ (getKey_fail W _ _ _ s Hf)); reflexivity.
Qed.

Lemma custody_error_none (u : User) :
  custody_address W u = None -> exists e, custody_error W u = Some e.
Proof.
  unfold custody_address, custody_error.
  destruct (vault_key W (vault_path (type u)) (id u)); simpl;
    [ discriminate | eauto | eauto ].
Qed.

(** When custody has no key for some party, the first loop of [sendGroup]
    stops at the first such party, in the order of the look-ups, with the
    error of that look-up. *)
Lemma collect_users_fails (transactions : list GroupItem) :
  forall users0 s,
    ~ custody_resolves W transactions ->
    exists before u after e,
      parties transactions = before ++ u :: after /\
      (forall v, In v before -> custody_address W v <> None) /\
      custody_error W u = Some e /\
      Wallet.collect_users W transactions users0 s
      = (Throw e,
         {| clock := clock s;
            trace := trace s ++ map lookup_of (before ++ [u]) |}).
Proof.
  induction transactions as [ | tx rest IH]; intros users0 s Hnot.
  - exfalso. apply Hnot. intros u [].
  - cbn [Wallet.collect_users]. unfold parties. cbn [flat_map].
    fold (parties rest).
    set (sender := txn_sender (txn tx)).
    destruct (custody_address W sender) as [sa | ] eqn:Hsa.
    2:{ destruct (custody_error_none sender Hsa) as [e He].
        exists [], sender, (match txn_receiver (txn tx) with
                            | Some r => [r]
                            | None => []
                            end ++ parties rest), e.
        split; [ reflexivity | ]. split; [ intros v [] | ].
        split; [ exact He | ].
        apply bind_throw. apply (resolve_fail sender e s He). }
    rewrite (bind_ok _ _ _ _ _ (resolve_run sender sa s Hsa)).
    destruct (txn_receiver (txn tx)) as [r | ] eqn:Hr.
    + destruct (custody_address W r) as [ra | ] eqn:Hra.
      2:{ destruct (custody_error_none r Hra) as [e He].
          exists [sender], r, (parties rest), e.
          split; [ reflexivity | ].
          split; [ intros v [<- | []]; congruence | ].
          split; [ exact He | ].
          rewrite (bind_throw _ _ _ _ _ (resolve_fail r e _ He)).
          unfold logged. cbn [clock trace map app].
          rewrite <- app_assoc. reflexivity. }
      rewrite (bind_ok _ _ _ _ _ (resolve_run r ra _ Hra)).
      destruct (IH (users0 ++ [Wallet.checked_of sender sa;
                               Wallet.checked_of r ra])
                  (logged (lookup_of r) (logged (lookup_of sender) s)))
        as (before & u & after & e & Hsplit & Hbefore & He & Hrun).
      { intros Hres. apply Hnot. intros v Hv.
        unfold parties in Hv. cbn [flat_map] in Hv. rewrite Hr in Hv.
        destruct Hv as [<- | [<- | Hv]];
          [ fold sender; congruence | congruence | apply Hres, Hv ]. }
      exists (sender :: r :: before), u, after, e.
      split; [ rewrite Hsplit; reflexivity | ].
      split; [ intros v [<- | [<- | Hv]];
               [ congruence | congruence | apply Hbefore, Hv ] | ].
      split; [ exact He | ].
      rewrite Hrun. unfold logged. cbn [clock trace map app].
      rewrite <- !app_assoc. reflexivity.
    + destruct (IH (users0 ++ [Wallet.checked_of sender sa])
                  (logged (lookup_of sender) s))
        as (before & u & after & e & Hsplit & Hbefore & He & Hrun).
      { intros Hres. apply Hnot. intros v Hv.
        unfold parties in Hv. cbn [flat_map] in Hv. rewrite Hr in Hv.
        destruct Hv as [<- | Hv];
          [ fold sender; congruence | apply Hres, Hv ]. }
      exists (sender :: before), u, after, e.
      split; [ rewrite Hsplit; reflexivity | ].
      split; [ intros v [<- | Hv]; [ congruence | apply Hbefore, Hv ] | ].
      split; [ exact He | ].
      rewrite Hrun. unfold logged. cbn [clock trace map app].
      rewrite <- !app_assoc. reflexivity.
Qed.

(** C2 (as amended).  A group in which some transaction's sender claims an
    address other than the one derived from its custody key: [sendGroup]
    fails; up to the failure it has made key lookups only, so that no
    transaction is crafted and nothing is signed or submitted; when
    custody returns a key for every party of the group the failure is the
    address-mismatch error (['Invalid users']); otherwise it is the error
    of the failed key look-up, which is the look-up of the first party,
    in the order sender then receiver of each transaction, that custody
    has no key for, and the last thing [sendGroup] does. *)
Theorem sendGroup_spoofed_sender_fails_before_crafting
  (transactions : list GroupItem) (tx : GroupItem) (s : St) :
  In tx transactions ->
  spoofed W (txn_sender (txn tx)) ->
  is_throw (result_of (Wallet.sendGroup W transactions s)) = true /\
  Forall key_lookup (events_of (Wallet.sendGroup W transactions) s) /\
  (custody_resolves W transactions ->
   result_of (Wallet.sendGroup W transactions s) = Throw InvalidUsers) /\
  (~ custody_resolves W transactions ->
   exists before u after e,
     parties transactions = before ++ u :: after /\
     (forall v, In v before -> custody_address W v <> None) /\
     custody_error W u = Some e /\
     result_of (Wallet.sendGroup W transactions s) = Throw e /\
     events_of (Wallet.sendGroup W transactions) s
     = map lookup_of (before ++ [u])).
Proof.
  intros Hin Hsp.
  pose proof (sendGroup_spoofed_party transactions _
                (sender_is_party _ _ Hin) Hsp) as Hem.
  pose proof (emits_result _ _ _ _ s Hem) as Hres.
  split; [ | split; [ | split ] ].
  - destruct (result_of (Wallet.sendGroup W transactions s));
      [ contradiction | reflexivity ].
  - eapply emits_events_of; exact Hem.
  - intros Hall.
    destruct (result_of (Wallet.sendGroup W transactions s)) as [ ? | e];
      [ contradiction | ].
    destruct Hres as [-> | [_ Hnot]]; [ reflexivity | contradiction ].
  - intros Hnot.
    destruct (collect_users_fails transactions [] s Hnot)
      as (before & u & after & e & Hsplit & Hbefore & He & Hrun).
    exists before, u, after, e.
    split; [ exact Hsplit | ]. split; [ exact Hbefore | ].
    split; [ exact He | ].
    unfold events_of, Wallet.sendGroup.
    rewrite (bind_throw _ _ _ _ _ Hrun).
    cbn [result_of state_of fst Datatypes.snd trace].
    split; [ reflexivity | apply skipn_exact ].
Qed.

(** C9.  A group in which some transaction's receiver claims an address
    other than the one derived from its custody key: [sendGroup] fails,
    whatever the senders claim, and up to the failure it has made key
    lookups only: no transaction is crafted. *)
Theorem sendGroup_spoofed_receiver_fails_before_crafting
  (transactions : list GroupItem) (tx : GroupItem) (r : User) (s : St) :
  In tx transactions ->
  txn_receiver (txn tx) = Some r ->
  spoofed W r ->
  is_throw (result_of (Wallet.sendGroup W transactions s)) = true /\
  Forall key_lookup (events_of (Wallet.sendGroup W transactions) s) /\
  Forall (fun ev => ~ is_crafted ev)
    (events_of (Wallet.sendGroup W transactions) s).
Proof.
  intros Hin Hr Hsp.
  pose proof (sendGroup_spoofed_party transactions _
                (receiver_is_party _ _ _ Hin Hr) Hsp) as Hem.
  pose proof (emits_result _ _ _ _ s Hem) as Hres.
  assert (Hkeys : Forall key_lookup (events_of (Wallet.sendGroup W transactions) s))
    by (eapply emits_events_of; exact Hem).
  split; [ | split ].
  - destruct (result_of (Wallet.sendGroup W transactions s));
      [ contradiction | reflexivity ].
  - exact Hkeys.
  - eapply Forall_impl; [ | exact Hkeys ].
    intros [ | | | ]; simpl; tauto.
Qed.

End GroupValidation.

Lemma alice_as_bob_spoofed :
  spoofed (E := Scenario.encoder) Groups.W Groups.alice_as_bob.
Proof.
  exists Scenario.alice_address. split; [ reflexivity | ].
  vm_compute. discriminate.
Defined.

Lemma bob_as_alice_spoofed :
  spoofed (E := Scenario.encoder) Groups.W Groups.bob_as_alice.
Proof.
  exists Scenario.bob_address. split; [ reflexivity | ].
  vm_compute. discriminate.
Defined.

Lemma spoofed_then_unknown_unresolved :
  ~ custody_resolves (E := Scenario.encoder) Groups.W
      Groups.spoofed_then_unknown.
Proof.
  intros Hres. apply (Hres Groups.carol).
  - right. right. left. reflexivity.
  - reflexivity.
Defined.

Lemma sendGroup_spoofed_sender_fails_before_crafting_witness :
  (In (Groups.item (algo_transfer Groups.alice_as_bob Groups.bob 7))
     Groups.spoofed_sender /\
   spoofed (E := Scenario.encoder) Groups.W Groups.alice_as_bob /\
   custody_resolves (E := Scenario.encoder) Groups.W Groups.spoofed_sender /\
   result_of (Wallet.sendGroup (E := Scenario.encoder) Groups.W
                Groups.spoofed_sender St0) = Throw InvalidUsers /\
   Forall key_lookup
     (events_of (Wallet.sendGroup (E := Scenario.encoder) Groups.W
                   Groups.spoofed_sender) St0)) /\
  (In (Groups.item (algo_transfer Groups.alice_as_bob Groups.bob 7))
     Groups.spoofed_then_unknown /\
   ~ custody_resolves (E := Scenario.encoder) Groups.W
       Groups.spoofed_then_unknown /\
   exists before u after e,
     parties Groups.spoofed_then_unknown = before ++ u :: after /\
     (forall v, In v before ->
        custody_address (E := Scenario.encoder) Groups.W v <> None) /\
     custody_error Groups.W u = Some e /\
     result_of (Wallet.sendGroup (E := Scenario.encoder) Groups.W
                  Groups.spoofed_then_unknown St0) = Throw e /\
     events_of (Wallet.sendGroup (E := Scenario.encoder) Groups.W
                  Groups.spoofed_then_unknown) St0
     = map lookup_of (before ++ [u])).
Proof.
  assert (Hin : In (Groups.item (algo_transfer Groups.alice_as_bob Groups.bob 7))
                  Groups.spoofed_sender)
    by (right; left; reflexivity).
  assert (Hin' : In (Groups.item (algo_transfer Groups.alice_as_bob Groups.bob 7))
                   Groups.spoofed_then_unknown)
    by (left; reflexivity).
  split.
  - split; [ exact Hin | ]. split; [ exact alice_as_bob_spoofed | ].
    assert (Hres : custody_resolves (E := Scenario.encoder) Groups.W
                     Groups.spoofed_sender).
    { intros u [<- | [<- | [<- | [<- | []]]]]; vm_compute; discriminate. }
    split; [ exact Hres | ].
    destruct (sendGroup_spoofed_sender_fails_before_crafting Groups.W
                (E := Scenario.encoder) Groups.spoofed_sender _ St0 Hin
                alice_as_bob_spoofed) as (_ & Hkeys & Hinvalid & _).
    split; [ exact (Hinvalid Hres) | exact Hkeys ].
  - split; [ exact Hin' | ].
    split; [ exact spoofed_then_unknown_unresolved | ].
    destruct (sendGroup_spoofed_sender_fails_before_crafting Groups.W
                (E := Scenario.encoder) Groups.spoofed_then_unknown _ St0 Hin'
                alice_as_bob_spoofed) as (_ & _ & _ & Hcustody).
    exact (Hcustody spoofed_then_unknown_unresolved).
Defined.

(** C2, counterexample.  The first sender is spoofed and the second is
    unknown to the vault: [sendGroup] fails with the vault's error, not
    with the address-mismatch error. *)
Lemma sendGroup_spoofed_sender_vault_error_first :
  In (Groups.item (algo_transfer Groups.alice_as_bob Groups.bob 7))
    Groups.spoofed_then_unknown /\
  custody_address (E := Scenario.encoder) Groups.W Groups.alice_as_bob
  = Some Scenario.alice_address /\
  Scenario.alice_address <> public_address Groups.alice_as_bob /\
  result_of (Wallet.sendGroup (E := Scenario.encoder) Groups.W
               Groups.spoofed_then_unknown St0)
  = Throw (HttpException 404 "VaultException") /\
  Throw (A := Wallet.SendGroupResponse) (HttpException 404 "VaultException")
  <> Throw InvalidUsers.
Proof.
  split; [ left; reflexivity | ]. split; [ reflexivity | ].
  split; [ vm_compute; discriminate | ].
  split; [ vm_compute; reflexivity | discriminate ].
Qed.

Lemma sendGroup_spoofed_receiver_fails_before_crafting_witness :
  In (Groups.item (asset_transfer 5 Groups.alice Groups.bob_as_alice 7))
    Groups.spoofed_receiver /\
  spoofed (E := Scenario.encoder) Groups.W Groups.bob_as_alice /\
  Forall (fun tx => custody_address (E := Scenario.encoder) Groups.W
                      (txn_sender (txn tx))
                    = Some (public_address (txn_sender (txn tx))))
    Groups.spoofed_receiver /\
  is_throw (result_of (Wallet.sendGroup (E := Scenario.encoder) Groups.W
                         Groups.spoofed_receiver St0)) = true /\
  Forall (fun ev => ~ is_crafted ev)
    (events_of (Wallet.sendGroup (E := Scenario.encoder) Groups.W
                  Groups.spoofed_receiver) St0).
Proof.
  assert (Hin : In (Groups.item (asset_transfer 5 Groups.alice Groups.bob_as_alice 7))
                  Groups.spoofed_receiver)
    by (right; left; reflexivity).
  split; [ exact Hin | ]. split; [ exact bob_as_alice_spoofed | ].
  split; [ repeat constructor | ].
  destruct (sendGroup_spoofed_receiver_fails_before_crafting Groups.W
              (E := Scenario.encoder) Groups.spoofed_receiver _
              Groups.bob_as_alice St0 Hin eq_refl bob_as_alice_spoofed)
    as (Hthrow & _ & Hnocraft).
  split; assumption.
Defined.

(* ===================================================================== *)
(** ** TransactionCrafter: the lease check *)
(* ===================================================================== *)


Section Effects.
Context (W : World) {E : Encoder}.

Lemma emits_node {A} (P : Event -> Prop) (req : NodeRequest)
  (answer : nat -> NodeResult A) :
  P (NodeCall req) ->
  emits P any any (Chain.makeAlgoNodeRequest req answer).
Proof.
  intros HP s. exists [NodeCall req]. unfold Chain.makeAlgoNodeRequest.
  destruct (answer (clock s)); simpl; repeat split; auto.
Qed.

Lemma emits_bind_any {A B} (P : Event -> Prop) (Q : B -> Prop)
  (m : M A) (k : A -> M B) :
  emits P any any m ->
  (forall a, emits P Q any (k a)) ->
  emits P Q any (bind m k).
Proof. intros Hm Hk. eapply emits_bind; [ exact Hm | intros a _; apply Hk ]. Qed.

Lemma emits_getKey_any (P : Event -> Prop) (keyName : string) (p : TransitPath) :
  P (VaultGetKey p keyName) -> emits P any any (Vault.getKey W keyName p).
Proof. intros HP. apply emits_getKey; [ exact HP | | ]; intros; exact I. Qed.

Lemma emits_getUserInfo (P : Event -> Prop) (userId : string) :
  P (VaultGetKey VAULT_TRANSIT_USERS_PATH userId) ->
  (forall a, P (NodeCall (GET_accounts a))) ->
  emits P any any (Wallet.getUserInfo W userId).
Proof.
  intros Hk Ha. unfold Wallet.getUserInfo, Vault.getUserPublicKey,
    Chain.getAccountBalance.
  apply emits_bind_any; [ apply emits_getKey_any, Hk | intros key ].
  apply emits_bind_any; [ | intros b; apply emits_ret; exact I ].
  apply emits_bind_any; [ apply emits_node, Ha | intros r ].
  apply emits_ret. exact I.
Qed.

Lemma emits_getAccountAsset (P : Event -> Prop) (addr : string) (assetId : Z) :
  P (NodeCall (GET_accounts_assets addr assetId)) ->
  emits P any any (Chain.getAccountAsset W addr assetId).
Proof.
  intros HP. unfold Chain.getAccountAsset.
  eapply emits_try_catch with (R' := any).
  - apply emits_bind_any; [ apply emits_node, HP | intros _ ].
    apply emits_ret. exact I.
  - intros e _. destruct (statusCode e) as [st | ];
      [ destruct (st =? 404) | ];
      first [ apply emits_ret; exact I | apply emits_throw; exact I ].
Qed.










End Effects.


(* ===================================================================== *)
(** ** TransferOrchestrator: sender routing of [transferAlgoToAddress] *)
(* ===================================================================== *)

Section Routing.
Context (W : World) {E : Encoder}.

Lemma emits_sign (P : Event -> Prop) (keyName : string) (p : TransitPath)
  (data : bytes) :
  P (VaultSign p keyName data) -> emits P any any (Vault.sign W keyName p data).
Proof.
  intros HP s. exists [VaultSign p keyName data]. unfold Vault.sign, bind, emit.
  destruct (vault_sign W p keyName data); simpl; repeat split; auto.
Qed.

Lemma emits_attach_signature (P : Event -> Prop) (tx : bytes) (raw : string) :
  emits P any any (Wallet.attach_signature tx raw).
Proof.
  unfold Wallet.attach_signature.
  destruct (nth_error _ 2); [ apply emits_ret | apply emits_throw ]; exact I.
Qed.

Lemma emits_poll (P : Event -> Prop) (txId : string) :
  (forall req, P (NodeCall req)) -> emits P any any (Chain.poll W txId).
Proof.
  intros HP s. exists [NodeCall (GET_transactions_pending txId)].
  unfold Chain.poll, Chain.poll_try, Chain.makeAlgoNodeRequest.
  destruct (node_pending W (clock s) txId) as [info | | ]; simpl;
    [ | repeat split; auto | repeat split; auto ].
  destruct (JS.truthy_opt_num (confirmed_round info)); simpl;
    [ repeat split; auto | ].
  destruct (pool_error info) as [pe | ]; [ destruct (JS.truthy_string pe) | ];
    simpl; repeat split; auto.
Qed.

Lemma emits_waitLoop (P : Event -> Prop) (txId : string) (stop : Z) :
  (forall req, P (NodeCall req)) ->
  forall fuel cur, emits P any any (Chain.waitLoop W fuel txId stop cur).
Proof.
  intros HP. induction fuel as [ | fuel IH]; intros cur; simpl.
  - apply emits_ret. exact I.
  - destruct (cur <? stop); [ | apply emits_ret; exact I ].
    apply emits_bind_any; [ apply emits_poll, HP | intros [info | ] ].
    + apply emits_ret. exact I.
    + apply emits_bind_any; [ apply emits_node, HP | intros _; apply IH ].
Qed.

Lemma emits_submitTransaction (P : Event -> Prop) (txnOrtxns : bytes + list bytes) :
  (forall req, P (NodeCall req)) ->
  emits P any any (Chain.submitTransaction W txnOrtxns).
Proof.
  intros HP. unfold Chain.submitTransaction, Chain.waitConfirmation.
  apply emits_bind_any; [ apply emits_node, HP | intros txid ].
  apply emits_bind_any; [ | intros _; apply emits_ret; exact I ].
  apply emits_bind_any; [ apply emits_node, HP | intros sp ].
  apply emits_waitLoop, HP.
Qed.





Lemma issues_getKey (keyName : string) (p : TransitPath) :
  issues (fun ev => ev = VaultGetKey p keyName) (Vault.getKey W keyName p).
Proof.
  intros s. exists [VaultGetKey p keyName]. unfold Vault.getKey, bind, emit.
  destruct (vault_key W p keyName); simpl; split; auto.
Qed.






Lemma emits_any {A} (P : Event -> Prop) (m : M A) :
  emits P any any m -> emits any any any m.
Proof. apply emits_weaken; intros; exact I. Qed.



End Routing.


(* ===================================================================== *)
(** ** Further properties: runs and their logs *)
(* ===================================================================== *)

Lemma polls_app (a b : list Event) : polls (a ++ b) = (polls a + polls b)%nat.
Proof.
  induction a as [ | [ | | [ | | | | | ] | ] a IH]; simpl;
    try rewrite IH; auto.
Qed.

Lemma waits_app (a b : list Event) : waits (a ++ b) = (waits a + waits b)%nat.
Proof.
  induction a as [ | [ | | [ | | | | | ] | ] a IH]; simpl;
    try rewrite IH; auto.
Qed.

Section RunPost.
Context {A B : Type}.

Lemma run_post_ret (a : A) (post : list Event -> Result A -> Prop) :
  post [] (Ok a) -> run_post (ret a) post.
Proof. intros H s. exists []. simpl. now rewrite app_nil_r. Qed.

Lemma run_post_throw (e : Error) (post : list Event -> Result A -> Prop) :
  post [] (Throw e) -> run_post (throw e) post.
Proof. intros H s. exists []. simpl. now rewrite app_nil_r. Qed.

Lemma run_post_lift (r : Result A) (post : list Event -> Result A -> Prop) :
  post [] r -> run_post (lift r) post.
Proof. intros H s. exists []. simpl. now rewrite app_nil_r. Qed.

Lemma run_post_bind (m : M A) (k : A -> M B)
  (p1 : list Event -> Result A -> Prop)
  (post : list Event -> Result B -> Prop) :
  run_post m p1 ->
  (forall evs1 a, p1 evs1 (Ok a) ->
     run_post (k a) (fun evs2 r => post (evs1 ++ evs2) r)) ->
  (forall evs1 e, p1 evs1 (Throw e) -> post evs1 (Throw e)) ->
  run_post (bind m k) post.
Proof.
  intros Hm Hk He s. unfold bind.
  destruct (Hm s) as (evs1 & Ht1 & Hp1).
  destruct (m s) as [[a | e] s1]; simpl in *.
  - destruct (Hk evs1 a Hp1 s1) as (evs2 & Ht2 & Hp2).
    exists (evs1 ++ evs2). rewrite Ht2, Ht1, app_assoc. auto.
  - exists evs1. auto.
Qed.

Lemma run_post_try_catch (m : M A) (h : Error -> M A)
  (p1 post : list Event -> Result A -> Prop) :
  run_post m p1 ->
  (forall evs1 a, p1 evs1 (Ok a) -> post evs1 (Ok a)) ->
  (forall evs1 e, p1 evs1 (Throw e) ->
     run_post (h e) (fun evs2 r => post (evs1 ++ evs2) r)) ->
  run_post (try_catch m h) post.
Proof.
  intros Hm Hok Hh s. unfold try_catch.
  destruct (Hm s) as (evs1 & Ht1 & Hp1).
  destruct (m s) as [[a | e] s1]; simpl in *.
  - exists evs1. auto.
  - destruct (Hh evs1 e Hp1 s1) as (evs2 & Ht2 & Hp2).
    exists (evs1 ++ evs2). rewrite Ht2, Ht1, app_assoc. auto.
Qed.

Lemma run_post_conseq (m : M A) (p1 p2 : list Event -> Result A -> Prop) :
  (forall evs r, p1 evs r -> p2 evs r) -> run_post m p1 -> run_post m p2.
Proof.
  intros Himp Hm s. destruct (Hm s) as (evs & Ht & Hp). exists evs. auto.
Qed.

Lemma run_post_at (m : M A) (post : list Event -> Result A -> Prop) (s : St) :
  run_post m post -> post (events_of m s) (result_of (m s)).
Proof.
  intros Hm. destruct (Hm s) as (evs & Ht & Hp).
  unfold events_of. now rewrite Ht, skipn_exact.
Qed.

Lemma run_post_of_emits (P : Event -> Prop) (Q : A -> Prop) (R : Error -> Prop)
  (m : M A) :
  emits P Q R m ->
  run_post m (fun evs r =>
                Forall P evs /\
                match r with Ok a => Q a | Throw e => R e end).
Proof.
  intros Hm s. destruct (Hm s) as (evs & Ht & Hf & Hr). exists evs. auto.
Qed.

Lemma emits_of_run_post (P : Event -> Prop) (Q : A -> Prop) (R : Error -> Prop)
  (m : M A) :
  run_post m (fun evs r =>
                Forall P evs /\
                match r with Ok a => Q a | Throw e => R e end) ->
  emits P Q R m.
Proof.
  intros Hm s. destruct (Hm s) as (evs & Ht & Hf & Hr). exists evs. auto.
Qed.

End RunPost.

Lemma run_post_emit (ev : Event) (post : list Event -> Result unit -> Prop) :
  post [ev] (Ok tt) -> run_post (emit ev) post.
Proof. intros H s. exists [ev]. simpl. auto. Qed.

Lemma run_post_node {A} (req : NodeRequest)
  (answer : nat -> NodeResult A) (post : list Event -> Result A -> Prop) :
  (forall c a, answer c = NodeOk a -> post [NodeCall req] (Ok a)) ->
  (forall c e, node_error (answer c) = Some e ->
               post [NodeCall req] (Throw e)) ->
  run_post (Chain.makeAlgoNodeRequest req answer) post.
Proof.
  intros Hok Hfail s. exists [NodeCall req].
  unfold Chain.makeAlgoNodeRequest.
  destruct (answer (clock s)) as [a | status text | msg] eqn:Ha; simpl.
  - split; [ reflexivity | eapply Hok; exact Ha ].
  - split; [ reflexivity | ]. apply (Hfail (clock s)). rewrite Ha.
    reflexivity.
  - split; [ reflexivity | ]. apply (Hfail (clock s)). rewrite Ha.
    reflexivity.
Qed.

Lemma node_error_exception {A} (answer : NodeResult A) (e : Error) :
  node_error answer = Some e -> is_node_exception e.
Proof.
  destruct answer as [a | status text | msg]; simpl; intros [= <-].
  - exists (Some status), text. reflexivity.
  - exists None, msg. reflexivity.
Qed.

Lemma node_exception_shapes (e : Error) :
  is_node_exception e -> node_exception_shape e.
Proof.
  intros (rs & msg & ->). unfold Chain.rethrown, newHttpErrorByCode.
  destruct rs as [status | ]; cbn [JS.truthy_opt_num].
  - destruct (JS.truthy_num status).
    + destruct (HttpErrorByCode status) eqn:Hc.
      * left. exists status, msg. auto.
      * right. eexists. reflexivity.
    + left. exists 500, msg. auto.
  - left. exists 500, msg. auto.
Qed.

(* ===================================================================== *)
(** ** SubmissionPipeline: bounds and outcomes *)
(* ===================================================================== *)

Section PipelineBounds.
Context (W : World).

(** The three ways a poll can end. *)
Lemma poll_outcome (txId : string) (s : St) :
  Chain.poll W txId s = (Ok None, after_call (GET_transactions_pending txId) s) \/
  (exists info,
     node_pending W (clock s) txId = NodeOk info /\
     JS.truthy_opt_num (confirmed_round info) = true /\
     Chain.poll W txId s
     = (Ok (Some info), after_call (GET_transactions_pending txId) s)) \/
  (exists info pe,
     node_pending W (clock s) txId = NodeOk info /\
     observes_pool_error info pe /\
     Chain.poll W txId s
     = (Throw (Rejected pe), after_call (GET_transactions_pending txId) s)).
Proof.
  destruct (node_pending W (clock s) txId) as [info | status text | msg] eqn:Hn.
  - destruct (JS.truthy_opt_num (confirmed_round info)) eqn:Hc.
    + right. left. exists info. split; [ reflexivity | ]. split; [ exact Hc | ].
      exact (poll_confirmed W txId s info Hn Hc).
    + destruct (JS.truthy_opt_string (pool_error info)) eqn:Hp.
      * right. right. destruct (pool_error info) as [pe | ] eqn:Hpe;
          [ | discriminate ].
        exists info, pe. split; [ reflexivity | ].
        assert (Hobs : observes_pool_error info pe) by (repeat split; assumption).
        split; [ exact Hobs | ]. exact (poll_rejected W txId s info pe Hn Hobs).
      * left. eapply poll_not_visible; [ exact Hn | split; assumption ].
  - left. apply poll_failed. rewrite Hn. exact I.
  - left. apply poll_failed. rewrite Hn. exact I.
Qed.

(** The rest of a round, by what the wait for the next block returns. *)
Lemma next_round_run (fuel : nat) (txId : string) (stop cur : Z) (s : St) :
  next_round W fuel txId stop cur s
  = match node_wait_block W (clock s) cur with
    | NodeOk _ =>
        Chain.waitLoop W fuel txId stop (cur + 1)
          (after_call (GET_wait_for_block_after cur) s)
    | NodeHttpError status text =>
        (Throw (Chain.rethrown (Some status) text),
         after_call (GET_wait_for_block_after cur) s)
    | NodeNetworkError msg =>
        (Throw (Chain.rethrown None msg),
         after_call (GET_wait_for_block_after cur) s)
    end.
Proof.
  unfold next_round, bind, Chain.makeAlgoNodeRequest, after_call.
  destruct (node_wait_block W (clock s) cur); reflexivity.
Qed.

Lemma waitLoop_post (txId : string) (stop : Z) :
  forall (fuel : nat) (cur : Z),
    run_post (Chain.waitLoop W fuel txId stop cur)
      (fun evs r =>
         (polls evs <= fuel)%nat /\
         (waits evs <= polls evs)%nat /\
         Forall (polling_event txId) evs /\
         confirmation_outcome W txId r).
Proof.
  induction fuel as [ | fuel IH]; intros cur s.
  - exists []. simpl. rewrite app_nil_r. repeat split; auto.
  - destruct (Z.ltb_spec cur stop) as [Hlt | Hge].
    2:{ exists []. simpl. destruct (Z.ltb_spec cur stop); [ lia | ].
        simpl. rewrite app_nil_r. repeat split; auto. lia. }
    rewrite (waitLoop_round W fuel txId stop cur s Hlt).
    destruct (poll_outcome txId s)
      as [Hp | [(info & Hn & Hc & Hp) | (info & pe & Hn & Hobs & Hp)]];
      rewrite Hp.
    + rewrite next_round_run.
      set (s1 := after_call (GET_transactions_pending txId) s).
      destruct (node_wait_block W (clock s1) cur) as [[] | status text | msg]
        eqn:Hw.
      * destruct (IH (cur + 1) (after_call (GET_wait_for_block_after cur) s1))
          as (evs & Ht & Hpolls & Hwaits & Hall & Hout).
        exists ([NodeCall (GET_transactions_pending txId);
                 NodeCall (GET_wait_for_block_after cur)] ++ evs).
        split; [ rewrite Ht; unfold s1, after_call; cbn [trace];
                 rewrite <- !app_assoc; reflexivity | ].
        split; [ simpl; lia | ]. split; [ simpl; lia | ].
        split; [ | exact Hout ].
        constructor; [ left; reflexivity | ].
        constructor; [ right; eexists; reflexivity | exact Hall ].
      * exists [NodeCall (GET_transactions_pending txId);
                NodeCall (GET_wait_for_block_after cur)].
        split; [ unfold s1, after_call; cbn [state_of Datatypes.snd trace];
                 rewrite <- !app_assoc; reflexivity | ].
        split; [ simpl; lia | ]. split; [ simpl; lia | ].
        split.
        -- constructor; [ left; reflexivity | ].
           constructor; [ right; eexists; reflexivity | constructor ].
        -- right. right. exists (clock s1), cur. rewrite Hw. reflexivity.
      * exists [NodeCall (GET_transactions_pending txId);
                NodeCall (GET_wait_for_block_after cur)].
        split; [ unfold s1, after_call; cbn [state_of Datatypes.snd trace];
                 rewrite <- !app_assoc; reflexivity | ].
        split; [ simpl; lia | ]. split; [ simpl; lia | ].
        split.
        -- constructor; [ left; reflexivity | ].
           constructor; [ right; eexists; reflexivity | constructor ].
        -- right. right. exists (clock s1), cur. rewrite Hw. reflexivity.
    + exists [NodeCall (GET_transactions_pending txId)].
      split; [ reflexivity | ]. split; [ simpl; lia | ]. split; [ simpl; lia | ].
      split; [ repeat constructor | ].
      split; [ exact Hc | exists (clock s); exact Hn ].
    + exists [NodeCall (GET_transactions_pending txId)].
      split; [ reflexivity | ]. split; [ simpl; lia | ]. split; [ simpl; lia | ].
      split; [ repeat constructor | ].
      left. exists info, pe, (clock s). auto.
Qed.

Lemma waitConfirmation_post (txId : string) (waitRounds : Z) :
  run_post (Chain.waitConfirmation W txId waitRounds)
    (fun evs r =>
       exists loop,
         evs = NodeCall GET_transactions_params :: loop /\
         (polls loop <= Z.to_nat waitRounds)%nat /\
         (waits loop <= polls loop)%nat /\
         Forall (polling_event txId) loop /\
         confirmation_outcome W txId r).
Proof.
  unfold Chain.waitConfirmation, Chain.getSuggestedParams.
  eapply run_post_bind with
    (p1 := fun evs r => evs = [NodeCall GET_transactions_params] /\
                        match r with
                        | Ok _ => True
                        | Throw e =>
                            exists c, node_error (node_params W c) = Some e
                        end).
  - apply run_post_node; intros; split; eauto.
  - intros evs1 sp [-> _].
    replace (lastRound sp + waitRounds - lastRound sp) with waitRounds by lia.
    eapply run_post_conseq; [ | apply waitLoop_post ].
    intros evs r (Hp & Hw & Hall & Hout). exists evs. simpl. auto.
  - intros evs1 e [-> He]. exists [].
    split; [ reflexivity | ]. split; [ simpl; lia | ].
    split; [ simpl; lia | ]. split; [ constructor | right; left; exact He ].
Qed.

End PipelineBounds.

Lemma polling_events_are_queries (txId : string) (evs : list Event) :
  Forall (polling_event txId) evs -> Forall ledger_query evs.
Proof.
  apply Forall_impl. intros ev [-> | [r ->]]; exact I.
Qed.

Lemma no_polls_no_waits_nil (txId : string) (evs : list Event) :
  Forall (polling_event txId) evs ->
  polls evs = O -> waits evs = O -> evs = [].
Proof.
  destruct evs as [ | ev evs]; [ reflexivity | ].
  intros Hall Hp Hw. inversion Hall as [ | ? ? [-> | [r ->]] _ ]; subst;
    simpl in *; discriminate.
Qed.

(** X1.  [waitConfirmation] stays within its budget: it asks for the
    suggested parameters once, then makes at most [waitRounds] pending
    queries (none when [waitRounds] is zero or negative) and never more
    waits for a block than pending queries; all it sends are queries. *)
Theorem waitConfirmation_within_budget (W : World) (txId : string)
  (waitRounds : Z) (s : St) :
  exists loop,
    events_of (Chain.waitConfirmation W txId waitRounds) s
    = NodeCall GET_transactions_params :: loop /\
    (polls loop <= Z.to_nat waitRounds)%nat /\
    (waits loop <= polls loop)%nat /\
    Forall (polling_event txId) loop /\
    Forall ledger_query (events_of (Chain.waitConfirmation W txId waitRounds) s) /\
    (waitRounds <= 0 -> loop = []).
Proof.
  destruct (run_post_at _ _ s (waitConfirmation_post W txId waitRounds))
    as (loop & Hevs & Hp & Hw & Hall & _).
  exists loop. split; [ exact Hevs | ]. split; [ exact Hp | ].
  split; [ exact Hw | ]. split; [ exact Hall | ]. split.
  - rewrite Hevs. constructor; [ exact I | ].
    eapply polling_events_are_queries; exact Hall.
  - intros Hneg. apply (no_polls_no_waits_nil txId); [ exact Hall | | ].
    + replace (Z.to_nat waitRounds) with O in Hp by lia. lia.
    + replace (Z.to_nat waitRounds) with O in Hp by lia. lia.
Qed.

Lemma waitConfirmation_within_budget_witness :
  0 <= 0 /\
  events_of (Chain.waitConfirmation Samples.W_rejected "TXID" 0) St0
  = [NodeCall GET_transactions_params].
Proof.
  assert (H0 : 0 <= 0) by lia. split; [ exact H0 | ].
  destruct (waitConfirmation_within_budget Samples.W_rejected "TXID" 0 St0)
    as (loop & Hevs & _ & _ & _ & _ & Hnil).
  rewrite Hevs, (Hnil H0). reflexivity.
Defined.

(** X2.  What [waitConfirmation] ends with: a value only when it is an
    answer of the node that carries a confirmed round; an error only when
    it is the rejection built from the pool error of an answer of the
    node, or what [makeAlgoNodeRequest] throws for a failed answer to the
    parameter query or to a wait for a block.  The latter is an HTTP
    exception with the prefixed message, of a status [HttpErrorByCode] has
    a class for, or the plain error thrown for a status without a class.
    A failed pending query is never what it throws, and no answer without
    a confirmed round is returned. *)
Theorem waitConfirmation_outcomes (W : World) (txId : string)
  (waitRounds : Z) (s : St) :
  confirmation_outcome W txId
    (result_of (Chain.waitConfirmation W txId waitRounds s)) /\
  forall e,
    result_of (Chain.waitConfirmation W txId waitRounds s) = Throw e ->
    (exists pe, e = Rejected pe) \/ node_exception_shape e.
Proof.
  destruct (run_post_at _ _ s (waitConfirmation_post W txId waitRounds))
    as (loop & _ & _ & _ & _ & Hout).
  split; [ exact Hout | ].
  intros e He. rewrite He in Hout.
  destruct Hout as [(info & pe & c & _ & _ & ->) | [[c Hc] | (c & r & Hc)]].
  - left. exists pe. reflexivity.
  - right. eapply node_exception_shapes, node_error_exception, Hc.
  - right. eapply node_exception_shapes, node_error_exception, Hc.
Qed.

(** X3.  The wait for the next block is outside the [try] block: when the
    poll of a round shows nothing (the query failed or the transaction is
    not yet visible) and the wait-for-block request fails, the loop stops
    after that request and throws what [makeAlgoNodeRequest] makes of the
    failure: for a response whose status [HttpErrorByCode] has a class
    for, the HTTP exception of that status with the prefixed message; for
    a response with another status (not zero), a plain error without
    status; for a failure without response, an internal server error. *)
Theorem waitLoop_wait_failure_propagates (W : World) (fuel : nat)
  (txId : string) (stop cur : Z) (s : St) :
  cur < stop ->
  (query_failed (node_pending W (clock s) txId) \/
   exists info, node_pending W (clock s) txId = NodeOk info /\ not_visible info) ->
  (forall status text,
     node_wait_block W (S (clock s)) cur = NodeHttpError status text ->
     HttpErrorByCode status = true ->
     Chain.waitLoop W (S fuel) txId stop cur s
     = (Throw (HttpException status (String.append "NodeException: " text)),
        after_call (GET_wait_for_block_after cur)
          (after_call (GET_transactions_pending txId) s))) /\
  (forall status text,
     node_wait_block W (S (clock s)) cur = NodeHttpError status text ->
     HttpErrorByCode status = false -> status <> 0 ->
     exists e,
       plain_error e /\
       Chain.waitLoop W (S fuel) txId stop cur s
       = (Throw e,
          after_call (GET_wait_for_block_after cur)
            (after_call (GET_transactions_pending txId) s))) /\
  (forall msg,
     node_wait_block W (S (clock s)) cur = NodeNetworkError msg ->
     Chain.waitLoop W (S fuel) txId stop cur s
     = (Throw (HttpException 500 (String.append "NodeException: " msg)),
        after_call (GET_wait_for_block_after cur)
          (after_call (GET_transactions_pending txId) s))).
Proof.
  intros Hlt Hquiet.
  assert (Hp : Chain.poll W txId s
               = (Ok None, after_call (GET_transactions_pending txId) s)).
  { destruct Hquiet as [Hf | (info & Hi & Hv)];
      [ apply poll_failed; assumption
      | eapply poll_not_visible; eassumption ]. }
  rewrite (waitLoop_round W fuel txId stop cur s Hlt), Hp, next_round_run.
  cbn [clock after_call].
  split; [ | split ].
  - intros status text Hwait Hc. rewrite Hwait, (rethrown_class _ _ Hc).
    reflexivity.
  - intros status text Hwait Hc Hnz. exists NotAConstructor.
    split; [ eexists; reflexivity | ].
    rewrite Hwait, (rethrown_no_class _ _ Hc Hnz). reflexivity.
  - intros msg Hwait. rewrite Hwait. reflexivity.
Qed.

Lemma waitLoop_wait_failure_propagates_witness :
  5000 < 5020 /\
  (exists info, node_pending Pipeline.W_no_block (clock St0) "TXID" = NodeOk info /\
                not_visible info) /\
  node_wait_block Pipeline.W_no_block (S (clock St0)) 5000
  = NodeHttpError 503 "unavailable" /\
  HttpErrorByCode 503 = true /\
  Chain.waitLoop Pipeline.W_no_block 20 "TXID" 5020 5000 St0
  = (Throw (HttpException 503 "NodeException: unavailable"),
     after_call (GET_wait_for_block_after 5000)
       (after_call (GET_transactions_pending "TXID") St0)) /\
  node_wait_block Pipeline.W_throttled (S (clock St0)) 5000
  = NodeHttpError 429 "too many requests" /\
  HttpErrorByCode 429 = false /\
  exists e,
    plain_error e /\
    Chain.waitLoop Pipeline.W_throttled 20 "TXID" 5020 5000 St0
    = (Throw e,
       after_call (GET_wait_for_block_after 5000)
         (after_call (GET_transactions_pending "TXID") St0)).
Proof.
  assert (Hlt : 5000 < 5020) by lia.
  assert (Hq : exists info,
             node_pending Pipeline.W_no_block (clock St0) "TXID" = NodeOk info /\
             not_visible info).
  { exists Scenario.quiet. split; [ reflexivity | split; reflexivity ]. }
  assert (Hq' : exists info,
             node_pending Pipeline.W_throttled (clock St0) "TXID" = NodeOk info /\
             not_visible info).
  { exists Scenario.quiet. split; [ reflexivity | split; reflexivity ]. }
  assert (Hnz : 429 <> 0) by lia.
  split; [ exact Hlt | ]. split; [ exact Hq | ]. split; [ reflexivity | ].
  split; [ reflexivity | ]. split.
  - exact (proj1 (waitLoop_wait_failure_propagates Pipeline.W_no_block 19
                    "TXID" 5020 5000 St0 Hlt (or_intror Hq))
             503 "unavailable" eq_refl eq_refl).
  - split; [ reflexivity | ]. split; [ reflexivity | ].
    exact (proj1 (proj2 (waitLoop_wait_failure_propagates Pipeline.W_throttled
                           19 "TXID" 5020 5000 St0 Hlt (or_intror Hq')))
             429 "too many requests" eq_refl eq_refl Hnz).
Defined.

(** X4.  The confirmed round is tested first: an answer that carries a
    confirmed round ends the loop with that answer, whatever its pool
    error says, and no wait for a block follows. *)
Theorem waitLoop_confirmed_first (W : World) (fuel : nat) (txId : string)
  (stop cur : Z) (s : St) (info : PendingInfo) :
  cur < stop ->
  node_pending W (clock s) txId = NodeOk info ->
  JS.truthy_opt_num (confirmed_round info) = true ->
  Chain.waitLoop W (S fuel) txId stop cur s
  = (Ok (Some info), after_call (GET_transactions_pending txId) s).
Proof.
  intros Hlt Hn Hc.
  rewrite (waitLoop_round W fuel txId stop cur s Hlt),
    (poll_confirmed W txId s info Hn Hc).
  reflexivity.
Qed.

Lemma waitLoop_confirmed_first_witness :
  5000 < 5020 /\
  node_pending Pipeline.W_both (clock St0) "TXID" = NodeOk Pipeline.both /\
  JS.truthy_opt_num (confirmed_round Pipeline.both) = true /\
  pool_error Pipeline.both = Some "overspend" /\
  Chain.waitLoop Pipeline.W_both 20 "TXID" 5020 5000 St0
  = (Ok (Some Pipeline.both), after_call (GET_transactions_pending "TXID") St0).
Proof.
  assert (Hlt : 5000 < 5020) by lia.
  split; [ exact Hlt | ]. split; [ reflexivity | ]. split; [ reflexivity | ].
  split; [ reflexivity | ].
  exact (waitLoop_confirmed_first Pipeline.W_both 19 "TXID" 5020 5000 St0
           Pipeline.both Hlt eq_refl eq_refl).
Defined.

(** [submitTransaction], by what the node answers to the post. *)
Lemma submitTransaction_run (W : World) (txnOrtxns : bytes + list bytes)
  (s : St) :
  Chain.submitTransaction W txnOrtxns s
  = match node_post W (clock s) (post_body txnOrtxns) with
    | NodeOk txid =>
        bind (Chain.waitConfirmation W txid Chain.default_waitRounds)
          (fun _ => ret txid)
          (after_call (POST_transactions (post_body txnOrtxns)) s)
    | NodeHttpError status text =>
        (Throw (Chain.rethrown (Some status) text),
         after_call (POST_transactions (post_body txnOrtxns)) s)
    | NodeNetworkError msg =>
        (Throw (Chain.rethrown None msg),
         after_call (POST_transactions (post_body txnOrtxns)) s)
    end.
Proof.
  unfold Chain.submitTransaction. fold (post_body txnOrtxns).
  unfold bind at 1, Chain.makeAlgoNodeRequest at 1, after_call.
  destruct (node_post W (clock s) (post_body txnOrtxns)); reflexivity.
Qed.

(** X5.  [submitTransaction] posts the transaction, or the concatenation
    of the list in its order, as its first request.  When the post fails
    nothing else is requested and what [makeAlgoNodeRequest] makes of the
    failure is thrown: the HTTP exception of the response's status with
    the prefixed message where [HttpErrorByCode] has a class for the
    status, a plain error without status for another status (not zero),
    an internal server error when there is no response.  When the node
    accepts the post, the polling that follows asks for the parameters and
    then only for the transaction id the node returned, at most twenty
    times, and a returned value is that id. *)
Theorem submitTransaction_posts_then_polls_its_id (W : World)
  (txnOrtxns : bytes + list bytes) (s : St) :
  exists rest,
    events_of (Chain.submitTransaction W txnOrtxns) s
    = NodeCall (POST_transactions (post_body txnOrtxns)) :: rest /\
    (forall txid,
       node_post W (clock s) (post_body txnOrtxns) = NodeOk txid ->
       exists loop,
         rest = NodeCall GET_transactions_params :: loop /\
         Forall (polling_event txid) loop /\
         (polls loop <= 20)%nat /\
         forall r, result_of (Chain.submitTransaction W txnOrtxns s) = Ok r ->
                   r = txid) /\
    (forall status text,
       node_post W (clock s) (post_body txnOrtxns) = NodeHttpError status text ->
       rest = [] /\
       (HttpErrorByCode status = true ->
        result_of (Chain.submitTransaction W txnOrtxns s)
        = Throw (HttpException status
                   (String.append "NodeException: " text))) /\
       (HttpErrorByCode status = false -> status <> 0 ->
        exists e,
          plain_error e /\
          result_of (Chain.submitTransaction W txnOrtxns s) = Throw e)) /\
    (forall msg,
       node_post W (clock s) (post_body txnOrtxns) = NodeNetworkError msg ->
       rest = [] /\
       result_of (Chain.submitTransaction W txnOrtxns s)
       = Throw (HttpException 500 (String.append "NodeException: " msg))).
Proof.
  unfold events_of. rewrite submitTransaction_run.
  set (data := post_body txnOrtxns).
  set (s1 := after_call (POST_transactions data) s).
  assert (Hs1 : trace s1 = trace s ++ [NodeCall (POST_transactions data)])
    by reflexivity.
  destruct (node_post W (clock s) data) as [txid | status text | msg] eqn:Hpost.
  - destruct (waitConfirmation_post W txid Chain.default_waitRounds s1)
      as (evs & Ht & loop & Hevs & Hp & _ & Hall & _).
    unfold bind.
    destruct (Chain.waitConfirmation W txid Chain.default_waitRounds s1)
      as [[r | e] s2]; cbn [state_of result_of fst Datatypes.snd ret] in *;
      rewrite Ht, Hs1, <- app_assoc, skipn_exact; simpl;
      (exists evs; split; [ reflexivity | ]; split;
       [ intros txid' Heq; injection Heq as <-;
         exists loop; split; [ exact Hevs | ]; split; [ exact Hall | ];
         split; [ exact Hp | ]; intros r' Hr; congruence
       | split; intros; discriminate ]).
  - exists []. cbn [state_of result_of fst Datatypes.snd].
    rewrite Hs1, skipn_exact.
    split; [ reflexivity | ]. split; [ intros; discriminate | ].
    split; [ | intros; discriminate ].
    intros st tx Heq. injection Heq as <- <-.
    split; [ reflexivity | ]. split.
    + intros Hc. rewrite (rethrown_class _ _ Hc). reflexivity.
    + intros Hc Hnz. exists NotAConstructor.
      split; [ eexists; reflexivity | ].
      rewrite (rethrown_no_class _ _ Hc Hnz). reflexivity.
  - exists []. cbn [state_of result_of fst Datatypes.snd].
    rewrite Hs1, skipn_exact.
    split; [ reflexivity | ]. split; [ intros; discriminate | ].
    split; [ intros; discriminate | ].
    intros m Heq. injection Heq as <-. split; reflexivity.
Qed.

Lemma submitTransaction_posts_then_polls_its_id_witness :
  node_post Pipeline.W_post_refused (clock St0)
    (post_body (inr [Samples.signed_pay7; Samples.signed_pay7]))
  = NodeHttpError 400 "msgpack decode error" /\
  HttpErrorByCode 400 = true /\
  events_of (Chain.submitTransaction Pipeline.W_post_refused
               (inr [Samples.signed_pay7; Samples.signed_pay7])) St0
  = [NodeCall (POST_transactions (Samples.signed_pay7 ++ Samples.signed_pay7 ++ []))] /\
  result_of (Chain.submitTransaction Pipeline.W_post_refused
               (inr [Samples.signed_pay7; Samples.signed_pay7]) St0)
  = Throw (HttpException 400 "NodeException: msgpack decode error").
Proof.
  split; [ reflexivity | ]. split; [ reflexivity | ].
  destruct (submitTransaction_posts_then_polls_its_id Pipeline.W_post_refused
              (inr [Samples.signed_pay7; Samples.signed_pay7]) St0)
    as (rest & Hevs & _ & Hfail & _).
  destruct (Hfail 400 "msgpack decode error" eq_refl) as (Hnil & Hres & _).
  rewrite Hevs, Hnil. split; [ reflexivity | exact (Hres eq_refl) ].
Defined.

(* ===================================================================== *)
(** ** LedgerGateway: the asset-holding query *)
(* ===================================================================== *)

Section Holding.
Context (W : World) {E : Encoder}.

Lemma getAccountAsset_run (addr : string) (asset_id : Z) (s : St) :
  Chain.getAccountAsset W addr asset_id s
  = (match node_account_asset W (clock s) addr asset_id with
     | NodeOk _ => Ok (Some tt)
     | NodeHttpError status text =>
         if status =? 404 then Ok None
         else Throw (Chain.rethrown (Some status) text)
     | NodeNetworkError msg => Throw (Chain.rethrown None msg)
     end,
     after_call (GET_accounts_assets addr asset_id) s).
Proof.
  unfold Chain.getAccountAsset, try_catch, bind, Chain.makeAlgoNodeRequest,
    after_call.
  destruct (node_account_asset W (clock s) addr asset_id)
    as [[] | status text | msg]; cbn; [ reflexivity | | reflexivity ].
  destruct (Z.eqb_spec status 404) as [-> | Hne]; [ reflexivity | ].
  unfold Chain.rethrown, JS.truthy_opt_num, newHttpErrorByCode.
  destruct (JS.truthy_num status); [ | reflexivity ].
  destruct (HttpErrorByCode status); [ | reflexivity ].
  cbn. destruct (Z.eqb_spec status 404); [ contradiction | reflexivity ].
Qed.

(** What [makeAlgoNodeRequest] throws never carries a status that is not
    the response's, so only a 404 answer gives status 404. *)
Lemma rethrown_status (response_status : option Z) (message : string) :
  response_status <> Some 404 ->
  statusCode (Chain.rethrown response_status message) <> Some 404.
Proof.
  intros Hne. unfold Chain.rethrown, newHttpErrorByCode.
  destruct response_status as [status | ]; cbn; [ | discriminate ].
  destruct (JS.truthy_num status); [ | discriminate ].
  destruct (HttpErrorByCode status); cbn; [ exact Hne | discriminate ].
Qed.

(** X6.  [getAccountAsset] makes one request and returns [null] exactly
    when the node answers 404, and the empty object exactly when the node
    answers.  Every other failure is thrown as [makeAlgoNodeRequest] made
    it, and never carries the status 404: the HTTP exception of the
    response's status with the prefixed message where [HttpErrorByCode]
    has a class for the status, a plain error without status for another
    status (not zero), an internal server error when there is no
    response. *)
Theorem getAccountAsset_null_iff_404 (addr : string) (asset_id : Z) (s : St) :
  state_of (Chain.getAccountAsset W addr asset_id s)
  = after_call (GET_accounts_assets addr asset_id) s /\
  (result_of (Chain.getAccountAsset W addr asset_id s) = Ok None <->
   exists text,
     node_account_asset W (clock s) addr asset_id = NodeHttpError 404 text) /\
  (result_of (Chain.getAccountAsset W addr asset_id s) = Ok (Some tt) <->
   node_account_asset W (clock s) addr asset_id = NodeOk tt) /\
  (forall status text,
     node_account_asset W (clock s) addr asset_id = NodeHttpError status text ->
     status <> 404 -> HttpErrorByCode status = true ->
     result_of (Chain.getAccountAsset W addr asset_id s)
     = Throw (HttpException status (String.append "NodeException: " text))) /\
  (forall status text,
     node_account_asset W (clock s) addr asset_id = NodeHttpError status text ->
     HttpErrorByCode status = false -> status <> 0 ->
     exists e,
       plain_error e /\
       result_of (Chain.getAccountAsset W addr asset_id s) = Throw e) /\
  (forall msg,
     node_account_asset W (clock s) addr asset_id = NodeNetworkError msg ->
     result_of (Chain.getAccountAsset W addr asset_id s)
     = Throw (HttpException 500 (String.append "NodeException: " msg))) /\
  (forall e,
     result_of (Chain.getAccountAsset W addr asset_id s) = Throw e ->
     statusCode e <> Some 404).
Proof.
  rewrite getAccountAsset_run. cbn [state_of result_of fst Datatypes.snd].
  split; [ reflexivity | ].
  destruct (node_account_asset W (clock s) addr asset_id)
    as [[] | status text | msg].
  - split; [ split; [ discriminate | intros [t Ht]; discriminate ] | ].
    split; [ split; reflexivity | ].
    repeat split; intros; discriminate.
  - destruct (Z.eqb_spec status 404) as [-> | Hne].
    + split; [ split; [ intros _; exists text; reflexivity | reflexivity ] | ].
      split; [ split; discriminate | ].
      split; [ intros st tx [= <- <-] Hc; contradiction | ].
      split; [ intros st tx [= <- <-] Hc; discriminate | ].
      split; intros; discriminate.
    + split; [ split; [ discriminate | intros [t Ht]; congruence ] | ].
      split; [ split; discriminate | ].
      split; [ intros st tx [= <- <-] _ Hc;
               rewrite (rethrown_class _ _ Hc); reflexivity | ].
      split; [ intros st tx [= <- <-] Hc Hnz; exists NotAConstructor;
               split; [ eexists; reflexivity
                      | rewrite (rethrown_no_class _ _ Hc Hnz); reflexivity ]
             | ].
      split; [ intros; discriminate | ].
      intros e [= <-]. apply (rethrown_status (Some status) text).
      congruence.
  - split; [ split; [ discriminate | intros [t Ht]; discriminate ] | ].
    split; [ split; discriminate | ].
    split; [ intros; discriminate | ].
    split; [ intros; discriminate | ].
    split; [ intros m [= <-]; reflexivity | ].
    intros e [= <-]. discriminate.
Qed.

Lemma emits_getAccountAsset_down (P : Event -> Prop) (addr : string)
  (asset_id : Z) :
  asset_endpoint_down W ->
  P (NodeCall (GET_accounts_assets addr asset_id)) ->
  emits P none is_node_exception (Chain.getAccountAsset W addr asset_id).
Proof.
  intros Hdown HP s. exists [NodeCall (GET_accounts_assets addr asset_id)].
  rewrite getAccountAsset_run. cbn [state_of result_of fst Datatypes.snd].
  split; [ reflexivity | ]. split; [ auto | ].
  specialize (Hdown (clock s) addr asset_id).
  destruct (node_account_asset W (clock s) addr asset_id)
    as [[] | status text | msg].
  - contradiction.
  - destruct (Z.eqb_spec status 404); [ contradiction | ].
    exists (Some status), text. reflexivity.
  - exists None, msg. reflexivity.
Qed.

(** X7.  [transferAsset] does not take a failing asset endpoint for a
    missing holding: while that endpoint answers with an error other than
    404, the transfer fails and no transaction is crafted, nothing is
    signed and nothing is submitted. *)
Theorem transferAsset_holding_query_failure_aborts (assetId : Z)
  (userId : string) (amount : Z) (lease note : option string) (s : St) :
  asset_endpoint_down W ->
  is_throw (result_of (Wallet.transferAsset W assetId userId amount lease note s))
  = true /\
  Forall nothing_built
    (events_of (Wallet.transferAsset W assetId userId amount lease note) s).
Proof.
  intros Hdown.
  assert (Hem : emits nothing_built none any
                  (Wallet.transferAsset W assetId userId amount lease note)).
  { unfold Wallet.transferAsset.
    eapply emits_bind with (Q' := none); [ | intros built [] ].
    unfold Wallet.transferAsset_unsigned.
    apply emits_bind_any;
      [ apply emits_getUserInfo; intros; cbv; tauto | intros info ].
    apply emits_bind_any; [ apply emits_getKey_any; cbv; tauto | intros mk ].
    apply emits_bind_any; [ apply emits_node; cbv; tauto | intros sp ].
    eapply emits_bind with (Q' := none); [ | intros aa [] ].
    eapply emits_weaken;
      [ | | | apply (emits_getAccountAsset_down nothing_built); auto ].
    - auto.
    - auto.
    - intros; exact I.
    - cbv; tauto. }
  split; [ | eapply emits_events_of; exact Hem ].
  pose proof (emits_result _ _ _ _ s Hem) as Hres.
  destruct (result_of _); [ contradiction | reflexivity ].
Qed.

End Holding.

Lemma asset_down : asset_endpoint_down Pipeline.W_asset_down.
Proof. intros c addr asset_id. simpl. discriminate. Defined.

Lemma transferAsset_holding_query_failure_aborts_witness :
  asset_endpoint_down Pipeline.W_asset_down /\
  result_of (Wallet.transferAsset (E := Scenario.encoder) Pipeline.W_asset_down
               5 "alice" 10 None None St0)
  = Throw (HttpException 503 "NodeException: unavailable") /\
  Forall nothing_built
    (events_of (Wallet.transferAsset (E := Scenario.encoder)
                  Pipeline.W_asset_down 5 "alice" 10 None None) St0).
Proof.
  split; [ exact asset_down | ]. split; [ vm_compute; reflexivity | ].
  exact (proj2 (transferAsset_holding_query_failure_aborts
                  Pipeline.W_asset_down (E := Scenario.encoder) 5 "alice" 10
                  None None St0 asset_down)).
Defined.

(* ===================================================================== *)
(** ** SigningCoordinator: the vault's signature envelope *)
(* ===================================================================== *)

Lemma append_snoc (cur : string) (c : ascii) (r : string) :
  String.append (String.append cur (String c EmptyString)) r
  = String.append cur (String c r).
Proof. induction cur as [| d cur IH]; simpl; [ | rewrite IH ]; reflexivity. Qed.

Lemma append_empty_r (s : string) : String.append s EmptyString = s.
Proof. induction s as [| c s IH]; simpl; [ | rewrite IH ]; reflexivity. Qed.

Lemma split_go_clean (sep : ascii) (a cur : string) :
  contains sep a = false ->
  JS.split_go sep cur a = [String.append cur a].
Proof.
  revert cur. induction a as [| c a IH]; intros cur Hc; simpl in *.
  - now rewrite append_empty_r.
  - destruct (Ascii.eqb c sep); [ discriminate | ].
    rewrite IH by assumption. now rewrite append_snoc.
Qed.

Lemma split_go_field (sep : ascii) (a b cur : string) :
  contains sep a = false ->
  JS.split_go sep cur (String.append a (String sep b))
  = String.append cur a :: JS.split_go sep EmptyString b.
Proof.
  revert cur. induction a as [| c a IH]; intros cur Hc; simpl in *.
  - rewrite Ascii.eqb_refl. now rewrite append_empty_r.
  - destruct (Ascii.eqb c sep); [ discriminate | ].
    rewrite IH by assumption. now rewrite append_snoc.
Qed.

Lemma split_go_length (sep : ascii) (s cur : string) :
  List.length (JS.split_go sep cur s) = S (count_char sep s).
Proof.
  revert cur. induction s as [| c s IH]; intros cur; simpl; [ reflexivity | ].
  destruct (Ascii.eqb c sep); simpl; now rewrite IH.
Qed.

Lemma split_envelope (scheme version signature tail : string) :
  contains ":" scheme = false ->
  contains ":" version = false ->
  contains ":" signature = false ->
  field_tail tail ->
  nth_error (JS.split ":" (envelope scheme version signature tail)) 2
  = Some signature.
Proof.
  intros Hs Hv Hg Ht. unfold JS.split, envelope, colon.
  cbn [String.append].
  rewrite split_go_field by assumption.
  rewrite split_go_field by assumption. cbn [nth_error].
  destruct Ht as [-> | [more ->]].
  - rewrite append_empty_r, split_go_clean by assumption. reflexivity.
  - unfold colon. cbn [String.append].
    rewrite split_go_field by assumption. reflexivity.
Qed.

Lemma split_short (raw : string) :
  (count_char ":" raw < 2)%nat ->
  nth_error (JS.split ":" raw) 2 = None.
Proof.
  intros Hlt. apply nth_error_None. unfold JS.split.
  rewrite split_go_length. lia.
Qed.

Section Envelope.
Context (W : World) {E : Encoder}.

Lemma signTxAs_run (who : Signer) (tx : bytes) (s : St) :
  signTxAs W who tx s
  = match vault_answer W who tx with
    | VaultOk raw =>
        Wallet.attach_signature tx raw (logged (sign_request W who tx) s)
    | VaultHttpError status =>
        (Throw (Vault.rethrown (Some status)),
         logged (sign_request W who tx) s)
    | VaultNoResponse =>
        (Throw (Vault.rethrown None), logged (sign_request W who tx) s)
    end.
Proof.
  unfold vault_answer, sign_request.
  destruct who as [user_id | | manager_name]; cbn [signTxAs signer_ref fst Datatypes.snd];
    unfold Wallet.signTxAsUser, Wallet.signTxAsManager,
      Wallet.signTxAsNamedManager, Vault.signAsUser, Vault.signAsManager,
      Vault.signAsNamedManager, Vault.sign, bind, emit, logged;
    cbn [fst Datatypes.snd];
    match goal with |- context [vault_sign W ?p ?k ?d] =>
      destruct (vault_sign W p k d) end; reflexivity.
Qed.

(** X8.  Each signing helper sends the vault exactly the bytes it was given,
    makes that one request and nothing else, and attaches to those same
    bytes the base64 decoding of the third colon-separated field of the
    vault's answer; fields after the third are ignored. *)
Theorem signTx_attaches_third_field (who : Signer) (tx : bytes)
  (scheme version signature tail : string) (s : St) :
  contains ":" scheme = false ->
  contains ":" version = false ->
  contains ":" signature = false ->
  field_tail tail ->
  vault_answer W who tx = VaultOk (envelope scheme version signature tail) ->
  signTxAs W who tx s
  = (Ok (addSignature tx (base64_decode signature)),
     logged (sign_request W who tx) s).
Proof.
  intros Hs Hv Hg Ht Hans. rewrite signTxAs_run, Hans.
  unfold Wallet.attach_signature. rewrite split_envelope by assumption.
  reflexivity.
Qed.

(** X9.  A signing helper always makes its one request to the vault.  When
    the vault's answer has fewer than two colons the helper fails with a
    plain error, after the vault has produced the signature.  When the
    vault refuses with a status [HttpErrorByCode] has a class for, the
    helper fails with the HTTP exception of that status and the message
    VaultException; when the vault refuses with another status, or the
    request fails without a response, the helper fails with a plain error
    that carries no status. *)
Theorem signTx_short_answer_fails_after_signing (who : Signer) (tx : bytes)
  (s : St) :
  state_of (signTxAs W who tx s) = logged (sign_request W who tx) s /\
  (forall raw,
     vault_answer W who tx = VaultOk raw ->
     (count_char ":" raw < 2)%nat ->
     exists e, result_of (signTxAs W who tx s) = Throw e /\ plain_error e) /\
  (forall status,
     vault_answer W who tx = VaultHttpError status ->
     HttpErrorByCode status = true ->
     result_of (signTxAs W who tx s)
     = Throw (HttpException status "VaultException")) /\
  (forall status,
     vault_answer W who tx = VaultHttpError status ->
     HttpErrorByCode status = false ->
     exists e, result_of (signTxAs W who tx s) = Throw e /\ plain_error e) /\
  (vault_answer W who tx = VaultNoResponse ->
   exists e, result_of (signTxAs W who tx s) = Throw e /\ plain_error e).
Proof.
  rewrite signTxAs_run. unfold Wallet.attach_signature.
  destruct (vault_answer W who tx) as [raw | status | ].
  - split; [ destruct (nth_error _ 2); reflexivity | ].
    split; [ | repeat split; discriminate ].
    intros raw' [= <-] Hlt. rewrite split_short by assumption.
    eexists. split; [ reflexivity | eexists; reflexivity ].
  - split; [ reflexivity | ]. split; [ discriminate | ].
    split; [ | split; [ | discriminate ] ].
    + intros status' [= <-] Hc. cbn [Vault.rethrown result_of fst].
      rewrite (newHttpErrorByCode_class _ _ Hc). reflexivity.
    + intros status' [= <-] Hc. cbn [Vault.rethrown result_of fst].
      rewrite (newHttpErrorByCode_no_class _ _ Hc).
      eexists. split; [ reflexivity | eexists; reflexivity ].
  - split; [ reflexivity | ]. split; [ discriminate | ].
    split; [ discriminate | ]. split; [ discriminate | ].
    intros _. eexists. split; [ reflexivity | eexists; reflexivity ].
Qed.

End Envelope.

Lemma signTx_attaches_third_field_witness :
  signTxAs (E := Scenario.encoder) Envelopes.W_long (AsUser "alice")
    (Scenario.encodeTx Samples.pay7) St0
  = (Ok (addSignature (Encoder := Scenario.encoder)
           (Scenario.encodeTx Samples.pay7)
           (base64_decode (Encoder := Scenario.encoder) "c2lnbmF0dXJl")),
     logged (sign_request Envelopes.W_long (AsUser "alice")
               (Scenario.encodeTx Samples.pay7)) St0).
Proof.
  apply (signTx_attaches_third_field Envelopes.W_long (E := Scenario.encoder)
           (AsUser "alice") (Scenario.encodeTx Samples.pay7) "vault" "v1"
           "c2lnbmF0dXJl" ":extra" St0);
    try reflexivity.
  right. exists "extra". reflexivity.
Defined.

Lemma signTx_short_answer_fails_after_signing_witness :
  (exists e,
     result_of (signTxAs (E := Scenario.encoder) Envelopes.W_short
                  (AsUser "alice") (Scenario.encodeTx Samples.pay7) St0)
     = Throw e /\ plain_error e) /\
  vault_answer Envelopes.W_sealed (AsUser "alice")
    (Scenario.encodeTx Samples.pay7) = VaultHttpError 503 /\
  HttpErrorByCode 503 = true /\
  result_of (signTxAs (E := Scenario.encoder) Envelopes.W_sealed
               (AsUser "alice") (Scenario.encodeTx Samples.pay7) St0)
  = Throw (HttpException 503 "VaultException") /\
  vault_answer Envelopes.W_throttled (AsUser "alice")
    (Scenario.encodeTx Samples.pay7) = VaultHttpError 429 /\
  HttpErrorByCode 429 = false /\
  exists e,
    result_of (signTxAs (E := Scenario.encoder) Envelopes.W_throttled
                 (AsUser "alice") (Scenario.encodeTx Samples.pay7) St0)
    = Throw e /\ plain_error e.
Proof.
  split.
  { apply (proj1 (proj2 (signTx_short_answer_fails_after_signing
                           Envelopes.W_short (E := Scenario.encoder)
                           (AsUser "alice") (Scenario.encodeTx Samples.pay7)
                           St0))
             "vault:c2lnbmF0dXJl");
      [ reflexivity | simpl; lia ]. }
  split; [ reflexivity | ]. split; [ reflexivity | ]. split.
  { exact (proj1 (proj2 (proj2 (signTx_short_answer_fails_after_signing
                                  Envelopes.W_sealed (E := Scenario.encoder)
                                  (AsUser "alice")
                                  (Scenario.encodeTx Samples.pay7) St0)))
             503 eq_refl eq_refl). }
  split; [ reflexivity | ]. split; [ reflexivity | ].
  exact (proj1 (proj2 (proj2 (proj2 (signTx_short_answer_fails_after_signing
                                       Envelopes.W_throttled
                                       (E := Scenario.encoder)
                                       (AsUser "alice")
                                       (Scenario.encodeTx Samples.pay7)
                                       St0))))
           429 eq_refl eq_refl).
Defined.

(* ===================================================================== *)
(** ** WalletWorkflows: looking a party up *)
(* ===================================================================== *)

Section Info.
Context (W : World) {E : Encoder}.

Lemma getAccountAssetHoldings_run (addr : string) (d0 : AccountDetail)
  (s : St) :
  node_account W (clock s) addr = NodeOk d0 ->
  Chain.getAccountAssetHoldings W addr s
  = (Ok (assets d0), after_call (GET_accounts addr) s).
Proof.
  intros Hd0. unfold Chain.getAccountAssetHoldings.
  rewrite (bind_ok _ _ _ _ d0
             (node_run (GET_accounts addr)
                (fun c => node_account W c addr) d0 s Hd0)).
  reflexivity.
Qed.

Lemma emits_account_read {A} (p : TransitPath) (k : string) (key : bytes)
  (f : AccountDetail -> A) :
  vault_key W p k = VaultOk key ->
  emits (info_event W p k) any any
    (response <- Chain.makeAlgoNodeRequest (GET_accounts (encodeAddress key))
                   (fun c => node_account W c (encodeAddress key)) ;;
     ret (f response)).
Proof.
  intros Hk. apply emits_bind_any; [ | intros r; apply emits_ret; exact I ].
  apply emits_node. right. exists key. split; [ assumption | reflexivity ].
Qed.

Lemma emits_getUserInfo_info (userId : string) :
  emits (info_event W VAULT_TRANSIT_USERS_PATH userId)
    (fun info => exists key,
       vault_key W VAULT_TRANSIT_USERS_PATH userId = VaultOk key /\
       Wallet.info_public_address info = encodeAddress key)
    any (Wallet.getUserInfo W userId).
Proof.
  unfold Wallet.getUserInfo, Vault.getUserPublicKey.
  eapply emits_bind
    with (Q' := fun key => vault_key W VAULT_TRANSIT_USERS_PATH userId
                           = VaultOk key).
  - apply emits_getKey; [ left; reflexivity | auto | intros; exact I ].
  - intros key Hk.
    eapply emits_bind with (Q' := any).
    + apply (emits_account_read _ _ key amount Hk).
    + intros b _. apply emits_ret. exists key. split; [ assumption | reflexivity ].
Qed.

Lemma emits_manager_detail (k : string) (key : bytes) :
  vault_key W VAULT_TRANSIT_MANAGERS_PATH k = VaultOk key ->
  emits (info_event W VAULT_TRANSIT_MANAGERS_PATH k) any any
    (Wallet.manager_detail W key).
Proof.
  intros Hk. unfold Wallet.manager_detail.
  apply emits_bind_any; [ apply (emits_account_read _ _ key assets Hk) | ].
  intros account.
  apply emits_bind_any; [ apply (emits_account_read _ _ key amount Hk) | ].
  intros b. apply emits_ret. exact I.
Qed.

Lemma emits_named_manager_info (k : string) :
  emits (info_event W VAULT_TRANSIT_MANAGERS_PATH k) any any
    (Wallet.getNamedManagerInfo W k).
Proof.
  unfold Wallet.getNamedManagerInfo, Vault.getNamedManagerPublicKey.
  eapply emits_bind
    with (Q' := fun key => vault_key W VAULT_TRANSIT_MANAGERS_PATH k
                           = VaultOk key).
  - apply emits_getKey; [ left; reflexivity | auto | intros; exact I ].
  - intros key Hk. apply emits_manager_detail, Hk.
Qed.

(** X10.  The four look-up operations only read: each asks the vault for
    the one key it is about and reads the account whose address derives
    from that key, and issues no other request; nothing is crafted, signed
    or posted. *)
Theorem lookups_only_read_their_party (s : St) :
  (forall userId,
     Forall (info_event W VAULT_TRANSIT_USERS_PATH userId)
       (events_of (Wallet.getUserInfo W userId) s)) /\
  (forall userId,
     Forall (info_event W VAULT_TRANSIT_USERS_PATH userId)
       (events_of (Wallet.getAssetHoldings W userId) s)) /\
  Forall (info_event W VAULT_TRANSIT_MANAGERS_PATH (VAULT_MANAGER_KEY W))
    (events_of (Wallet.getManagerInfo W) s) /\
  (forall name,
     Forall (info_event W VAULT_TRANSIT_MANAGERS_PATH name)
       (events_of (Wallet.getNamedManagerInfo W name) s)).
Proof.
  split; [ | split; [ | split ] ].
  - intros userId. eapply emits_events_of, emits_getUserInfo_info.
  - intros userId. eapply emits_events_of with (Q := any) (R := any).
    unfold Wallet.getAssetHoldings.
    eapply emits_bind; [ apply emits_getUserInfo_info | ].
    intros info (key & Hk & ->).
    apply (emits_account_read _ _ key assets Hk).
  - eapply emits_events_of with (Q := any) (R := any).
    apply (emits_named_manager_info (VAULT_MANAGER_KEY W)).
  - intros name. eapply emits_events_of, emits_named_manager_info.
Qed.

(** X11.  The detail of a manager is put together from two separate reads
    of the account: the holdings are those of the first answer and the
    balance that of the second, so the detail returned may belong to no
    single state of the ledger. *)
Theorem manager_detail_from_two_reads (name : string) (key : bytes)
  (first second : AccountDetail) (s : St) :
  vault_key W VAULT_TRANSIT_MANAGERS_PATH name = VaultOk key ->
  node_account W (clock s) (encodeAddress key) = NodeOk first ->
  node_account W (S (clock s)) (encodeAddress key) = NodeOk second ->
  result_of (Wallet.getNamedManagerInfo W name s)
  = Ok {| Wallet.manager_public_address := encodeAddress key;
          Wallet.manager_assets := assets first;
          Wallet.manager_algoBalance := amount second |} /\
  (name = VAULT_MANAGER_KEY W ->
   Wallet.getManagerInfo W s = Wallet.getNamedManagerInfo W name s).
Proof.
  intros Hk H1 H2. split; [ | intros ->; reflexivity ].
  unfold Wallet.getNamedManagerInfo, Vault.getNamedManagerPublicKey.
  rewrite (bind_ok _ _ _ _ _ (getKey_run W _ _ _ s Hk)).
  unfold Wallet.manager_detail.
  set (s1 := logged (VaultGetKey VAULT_TRANSIT_MANAGERS_PATH name) s).
  rewrite (bind_ok _ _ _ _ _
             (getAccountAssetHoldings_run (encodeAddress key) first s1 H1)).
  set (s2 := after_call (GET_accounts (encodeAddress key)) s1).
  rewrite (bind_ok _ _ _ _ _
             (getAccountBalance_run W (encodeAddress key) second s2 H2)).
  reflexivity.
Qed.

(** X12.  When the vault does not answer the request for the user's key,
    [getUserInfo], [getAssetHoldings], [transferAsset] and [clawbackAsset]
    fail with what the vault service throws, after that one key look-up
    and nothing else; [transferAlgoToAddress] for a sender other than the
    literal manager makes the same single look-up and replaces the error
    by a plain error saying the sender's address could not be got.  What
    the vault service throws is the HTTP exception of the vault's status
    with the message VaultException where [HttpErrorByCode] has a class
    for the status, and a plain error without status otherwise (another
    status, or no response at all). *)
Theorem missing_user_key_stops_at_lookup (userId : string)
  (response_status : option Z) (assetId amount : Z) (toAddress : string)
  (lease note : option string) (s : St) :
  vault_failure (vault_key W VAULT_TRANSIT_USERS_PATH userId)
  = Some response_status ->
  Wallet.getUserInfo W userId s
  = missing_key (Vault.rethrown response_status) userId s /\
  Wallet.getAssetHoldings W userId s
  = missing_key (Vault.rethrown response_status) userId s /\
  Wallet.transferAsset W assetId userId amount lease note s
  = missing_key (Vault.rethrown response_status) userId s /\
  Wallet.clawbackAsset W assetId userId amount lease note s
  = missing_key (Vault.rethrown response_status) userId s /\
  (userId <> "manager" ->
   exists e,
     from_address_error userId e /\
     Wallet.transferAlgoToAddress W userId toAddress amount lease note s
     = missing_key e userId s) /\
  (forall status,
     response_status = Some status -> HttpErrorByCode status = true ->
     Vault.rethrown response_status = HttpException status "VaultException" /\
     (userId <> "manager" ->
      Wallet.transferAlgoToAddress W userId toAddress amount lease note s
      = missing_key
          (JsError (String.append "Failed to get from address for user "
                      (String.append userId ": VaultException")))
          userId s)) /\
  ((response_status = None \/
    exists status,
      response_status = Some status /\ HttpErrorByCode status = false) ->
   plain_error (Vault.rethrown response_status)).
Proof.
  intros Hk.
  assert (Hinfo : Wallet.getUserInfo W userId s
                  = (Throw (Vault.rethrown response_status),
                     logged (VaultGetKey VAULT_TRANSIT_USERS_PATH userId) s)).
  { unfold Wallet.getUserInfo, Vault.getUserPublicKey.
    apply bind_throw, getKey_fail, Hk. }
  assert (Halgo : userId <> "manager" ->
            Wallet.transferAlgoToAddress W userId toAddress amount lease note s
            = missing_key
                (JsError (String.append "Failed to get from address for user "
                            (String.append userId
                               (String.append ": "
                                  (message (Vault.rethrown response_status))))))
                userId s).
  { intros Hne. unfold Wallet.transferAlgoToAddress.
    apply String.eqb_neq in Hne. rewrite Hne.
    apply bind_throw. unfold try_catch.
    rewrite (bind_throw _ _ _ _ _ Hinfo). reflexivity. }
  unfold missing_key in *.
  split; [ exact Hinfo | ].
  split.
  { unfold Wallet.getAssetHoldings. apply bind_throw, Hinfo. }
  split.
  { unfold Wallet.transferAsset. apply bind_throw.
    unfold Wallet.transferAsset_unsigned. apply bind_throw, Hinfo. }
  split.
  { unfold Wallet.clawbackAsset. apply bind_throw, Hinfo. }
  split.
  { intros Hne. eexists. split; [ | exact (Halgo Hne) ].
    eexists. reflexivity. }
  split.
  { intros status -> Hc.
    assert (He : Vault.rethrown (Some status)
                 = HttpException status "VaultException")
      by apply (newHttpErrorByCode_class _ _ Hc).
    split; [ exact He | ].
    intros Hne. rewrite (Halgo Hne), He. reflexivity. }
  intros [-> | (status & -> & Hc)]; [ eexists; reflexivity | ].
  cbn [Vault.rethrown]. rewrite (newHttpErrorByCode_no_class _ _ Hc).
  eexists. reflexivity.
Qed.

End Info.

Lemma manager_detail_from_two_reads_witness :
  result_of (Wallet.getNamedManagerInfo (E := Scenario.encoder)
               Snapshots.W_moving "admin" St0)
  = Ok {| Wallet.manager_public_address := Scenario.admin_address;
          Wallet.manager_assets := [(5, 10)];
          Wallet.manager_algoBalance := 4000000 |}.
Proof.
  apply (proj1 (manager_detail_from_two_reads Snapshots.W_moving
                  (E := Scenario.encoder) "admin" Scenario.admin_key
                  Snapshots.before Snapshots.after St0
                  eq_refl eq_refl eq_refl)).
Defined.

Lemma missing_user_key_stops_at_lookup_witness :
  vault_failure (vault_key Samples.W_confirmed VAULT_TRANSIT_USERS_PATH "carol")
  = Some (Some 404) /\
  HttpErrorByCode 404 = true /\
  Wallet.transferAsset (E := Scenario.encoder) Samples.W_confirmed 5 "carol"
    10 None None St0
  = missing_key (HttpException 404 "VaultException") "carol" St0 /\
  Wallet.transferAlgoToAddress (E := Scenario.encoder) Samples.W_confirmed
    "carol" Scenario.alice_address 10 None None St0
  = missing_key
      (JsError "Failed to get from address for user carol: VaultException")
      "carol" St0.
Proof.
  assert (Hne : "carol" <> "manager") by discriminate.
  split; [ reflexivity | ]. split; [ reflexivity | ].
  destruct (missing_user_key_stops_at_lookup Samples.W_confirmed
              (E := Scenario.encoder) "carol" (Some 404) 5 10
              Scenario.alice_address None None St0 eq_refl)
    as (_ & _ & Hasset & _ & _ & Hclass & _).
  destruct (Hclass 404 eq_refl eq_refl) as [He Halgo].
  split; [ rewrite Hasset, He; reflexivity | exact (Halgo Hne) ].
Defined.

Section Endpoint.
Context (W : World) {E : Encoder}.

(** X20.  The endpoint for a user's holdings only reads, and it looks the
    user up twice: it asks the vault for the key, reads the account three
    times, and asks for the key again in between; the address returned is
    the one derived from the key and the holdings are those of the second
    answer of the node, the other two answers being used for nothing. *)
Theorem assetsBalances_reads_thrice (user_id : string) (key : bytes)
  (first second third : AccountDetail) (s : St) :
  vault_key W VAULT_TRANSIT_USERS_PATH user_id = VaultOk key ->
  node_account W (clock s) (encodeAddress key) = NodeOk first ->
  node_account W (S (clock s)) (encodeAddress key) = NodeOk second ->
  node_account W (S (S (clock s))) (encodeAddress key) = NodeOk third ->
  result_of (Controller.assetsBalances W user_id s)
  = Ok {| Controller.address := encodeAddress key;
          Controller.held := assets second |} /\
  events_of (Controller.assetsBalances W user_id) s
  = [ VaultGetKey VAULT_TRANSIT_USERS_PATH user_id;
      NodeCall (GET_accounts (encodeAddress key));
      NodeCall (GET_accounts (encodeAddress key));
      VaultGetKey VAULT_TRANSIT_USERS_PATH user_id;
      NodeCall (GET_accounts (encodeAddress key)) ].
Proof.
  intros Hk H1 H2 H3.
  assert (Hrun : Controller.assetsBalances W user_id s
                 = (Ok {| Controller.address := encodeAddress key;
                          Controller.held := assets second |},
                    {| clock := S (S (S (clock s)));
                       trace := trace s ++
                         [ VaultGetKey VAULT_TRANSIT_USERS_PATH user_id;
                           NodeCall (GET_accounts (encodeAddress key));
                           NodeCall (GET_accounts (encodeAddress key));
                           VaultGetKey VAULT_TRANSIT_USERS_PATH user_id;
                           NodeCall (GET_accounts (encodeAddress key)) ] |})).
  { set (s1 := after_call (GET_accounts (encodeAddress key))
                  (logged (VaultGetKey VAULT_TRANSIT_USERS_PATH user_id) s)).
    set (s2 := after_call (GET_accounts (encodeAddress key)) s1).
    assert (Hhold : Wallet.getAssetHoldings W user_id s
                    = (Ok (assets second), s2)).
    { unfold Wallet.getAssetHoldings.
      rewrite (bind_ok _ _ _ _ _ (getUserInfo_run W user_id key first s Hk H1)).
      cbn [Wallet.info_public_address].
      apply (getAccountAssetHoldings_run W (encodeAddress key) second s1 H2). }
    unfold Controller.assetsBalances.
    rewrite (bind_ok _ _ _ _ _ Hhold).
    rewrite (bind_ok _ _ _ _ _
               (getUserInfo_run W user_id key third s2 Hk H3)).
    unfold ret, s2, s1, after_call, logged. cbn [clock trace].
    rewrite <- !app_assoc. reflexivity. }
  split; [ rewrite Hrun; reflexivity | ].
  unfold events_of. rewrite Hrun. cbn [state_of Datatypes.snd trace].
  apply skipn_exact.
Qed.

End Endpoint.

Lemma assetsBalances_reads_thrice_witness :
  result_of (Controller.assetsBalances (E := Scenario.encoder)
               Snapshots.W_moving "alice" St0)
  = Ok {| Controller.address := Scenario.alice_address;
          Controller.held := [] |}.
Proof.
  apply (proj1 (assetsBalances_reads_thrice Snapshots.W_moving
                  (E := Scenario.encoder) "alice" Scenario.alice_key
                  Snapshots.before Snapshots.after Snapshots.after St0
                  eq_refl eq_refl eq_refl eq_refl)).
Defined.

(* ===================================================================== *)
(** ** WalletWorkflows: prepare, sign, submit *)
(* ===================================================================== *)

Lemma crafts_app (a b : list Event) :
  crafts (a ++ b) = (crafts a + crafts b)%nat.
Proof.
  induction a as [| [ | | | ] a IH]; simpl; try rewrite IH; auto.
Qed.

Lemma signed_payloads_sign_events {X} (ref : X -> TransitPath * string)
  (pl : X -> bytes) (xs : list X) :
  signed_payloads (map (fun x => sign_event (ref x) (pl x)) xs) = map pl xs.
Proof. induction xs as [| x xs IH]; simpl; [ | rewrite IH ]; reflexivity. Qed.

Lemma vault_ref_sign_events {X} (ref : X -> TransitPath * string)
  (pl : X -> bytes) (xs : list X) :
  map vault_ref (map (fun x => sign_event (ref x) (pl x)) xs)
  = map (fun x => Some (ref x)) xs.
Proof.
  induction xs as [| x xs IH]; simpl; [ reflexivity | rewrite IH ].
  destruct (ref x); reflexivity.
Qed.

Lemma crafts_nothing_built (evs : list Event) :
  Forall nothing_built evs -> crafts evs = O.
Proof.
  induction 1 as [| ev evs (Hc & _) _ IH]; simpl; [ reflexivity | ].
  destruct ev; simpl in *; auto. exfalso. apply Hc. exact I.
Qed.

Lemma nothing_built_unsigned (ev : Event) :
  nothing_built ev -> unsigned_unsubmitted ev.
Proof. intros (_ & Hs & Hp). split; assumption. Qed.

Lemma combine_fst {X Y} (xs : list X) (ys : list Y) :
  List.length xs = List.length ys -> map fst (combine xs ys) = xs.
Proof.
  revert ys. induction xs as [| x xs IH]; intros [| y ys] Hl; simpl in *;
    try discriminate; [ reflexivity | ].
  rewrite IH by lia. reflexivity.
Qed.

Lemma combine_snd {X Y} (xs : list X) (ys : list Y) :
  List.length xs = List.length ys ->
  map Datatypes.snd (combine xs ys) = ys.
Proof.
  revert ys. induction xs as [| x xs IH]; intros [| y ys] Hl; simpl in *;
    try discriminate; [ reflexivity | ].
  rewrite IH by lia. reflexivity.
Qed.

Lemma run_post_ext {A} (m m' : M A) (post : list Event -> Result A -> Prop) :
  (forall s, m s = m' s) -> run_post m post -> run_post m' post.
Proof. intros Heq Hm s. rewrite <- Heq. apply Hm. Qed.

Lemma bind_ret_r {A} (m : M A) (s : St) : bind m (fun a => ret a) s = m s.
Proof. unfold bind, ret. destruct (m s) as [[a | e] s1]; reflexivity. Qed.

Section Prepares.
Context {A B : Type}.

Lemma prepares_ret (Q : nat -> A -> Prop) (a : A) :
  Q O a -> prepares Q (ret a).
Proof.
  intros Hq. apply run_post_ret. split; [ constructor | ].
  intros a' [= <-]. exact Hq.
Qed.

Lemma prepares_throw (Q : nat -> A -> Prop) (e : Error) :
  prepares Q (throw e).
Proof.
  apply run_post_throw. split; [ constructor | discriminate ].
Qed.

Lemma prepares_lift (Q : nat -> A -> Prop) (r : Result A) :
  (forall a, r = Ok a -> Q O a) -> prepares Q (lift r).
Proof.
  intros Hq. apply run_post_lift. split; [ constructor | exact Hq ].
Qed.

Lemma prepares_bind (Q1 : nat -> A -> Prop) (Q : nat -> B -> Prop)
  (m : M A) (k : A -> M B) :
  prepares Q1 m ->
  (forall n a, Q1 n a -> prepares (fun n2 b => Q (n + n2)%nat b) (k a)) ->
  prepares Q (bind m k).
Proof.
  intros Hm Hk. eapply run_post_bind; [ exact Hm | | ].
  - intros evs1 a [Hf1 Hq1].
    eapply run_post_conseq; [ | apply (Hk (crafts evs1) a (Hq1 a eq_refl)) ].
    intros evs2 r [Hf2 Hq2]. split; [ apply Forall_app; auto | ].
    intros b Hb. rewrite crafts_app. auto.
  - intros evs1 e [Hf1 _]. split; [ assumption | discriminate ].
Qed.

Lemma prepares_conseq (Q Q' : nat -> A -> Prop) (m : M A) :
  (forall n a, Q n a -> Q' n a) -> prepares Q m -> prepares Q' m.
Proof.
  intros Himp. apply run_post_conseq. intros evs r [Hf Hq].
  split; [ assumption | auto ].
Qed.

Lemma prepares_quiet (Q' : A -> Prop) (Q : nat -> A -> Prop) (m : M A) :
  emits nothing_built Q' any m ->
  (forall a, Q' a -> Q O a) ->
  prepares Q m.
Proof.
  intros Hm Hq s. destruct (Hm s) as (evs & Ht & Hf & Hr).
  exists evs. split; [ assumption | ]. split.
  - eapply Forall_impl; [ apply nothing_built_unsigned | exact Hf ].
  - intros a Ha. rewrite Ha in Hr. rewrite crafts_nothing_built by assumption.
    auto.
Qed.

End Prepares.

Lemma prepares_crafted (Q : nat -> unit -> Prop) (t : Transaction) :
  Q 1%nat tt -> prepares Q (emit (Crafted t)).
Proof.
  intros Hq. apply run_post_emit. split.
  - constructor; [ | constructor ]. split; intros H; exact H.
  - intros [] _. exact Hq.
Qed.

Lemma prepares_for_each {X Y} (f : X -> M Y) (xs : list X) :
  (forall x, prepares (fun n _ => n = 1%nat) (f x)) ->
  prepares (fun n ys => n = List.length xs /\
                        List.length ys = List.length xs)
    (for_each f xs).
Proof.
  intros Hf. induction xs as [| x xs IH]; simpl.
  - apply prepares_ret. split; reflexivity.
  - eapply prepares_bind; [ apply Hf | ]. intros n y ->.
    eapply prepares_bind; [ apply IH | ]. intros n ys [-> Hl].
    apply prepares_ret. simpl. split; lia.
Qed.

Section Crafting.
Context (W : World) {E : Encoder}.

Lemma nothing_built_node (req : NodeRequest) :
  ledger_query (NodeCall req) -> nothing_built (NodeCall req).
Proof.
  intros Hq. split; [ | split ]; intros H; try exact H.
  destruct req; simpl in *; auto.
Qed.

Lemma prepares_node {A} (Q : nat -> A -> Prop) (req : NodeRequest)
  (answer : nat -> NodeResult A) :
  ledger_query (NodeCall req) ->
  (forall a, Q O a) ->
  prepares Q (Chain.makeAlgoNodeRequest req answer).
Proof.
  intros Hq HQ. eapply prepares_quiet with (Q' := any); [ | auto ].
  apply emits_node, nothing_built_node, Hq.
Qed.

Lemma prepares_getKey (Q : nat -> bytes -> Prop) (keyName : string)
  (p : TransitPath) :
  (forall key, vault_key W p keyName = VaultOk key -> Q O key) ->
  prepares Q (Vault.getKey W keyName p).
Proof.
  intros HQ.
  eapply prepares_quiet
    with (Q' := fun key => vault_key W p keyName = VaultOk key); [ | exact HQ ].
  apply emits_getKey; [ | auto | intros; exact I ].
  split; [ | split ]; intros H; exact H.
Qed.

Lemma prepares_params_or_fetch (Q : nat -> SuggestedParams -> Prop)
  (sp : option SuggestedParams) :
  (forall p, Q O p) -> prepares Q (Chain.params_or_fetch W sp).
Proof.
  intros HQ. destruct sp as [p |]; simpl.
  - apply prepares_ret, HQ.
  - apply prepares_node; [ exact I | exact HQ ].
Qed.

Lemma prepares_craftPaymentTx (from to : string) (amount : Z)
  (sp : option SuggestedParams) :
  prepares (fun n _ => n = 1%nat) (Chain.craftPaymentTx W from to amount sp).
Proof.
  unfold Chain.craftPaymentTx.
  eapply prepares_bind
    with (Q1 := fun n _ => n = O);
    [ apply prepares_params_or_fetch; reflexivity | intros n p -> ].
  eapply prepares_bind
    with (Q1 := fun n _ => n = 1%nat);
    [ apply prepares_crafted; reflexivity | intros n [] -> ].
  apply prepares_ret. reflexivity.
Qed.

Lemma prepares_craftAssetTransferTx (from to : string) (asset_id amount : Z)
  (lease note : option string) (sp : option SuggestedParams) :
  prepares (fun n _ => n = 1%nat)
    (Chain.craftAssetTransferTx W from to asset_id amount lease note sp).
Proof.
  unfold Chain.craftAssetTransferTx.
  eapply prepares_bind
    with (Q1 := fun n _ => n = O);
    [ apply prepares_params_or_fetch; reflexivity | intros n p -> ].
  eapply prepares_bind
    with (Q1 := fun n _ => n = O);
    [ apply prepares_lift; reflexivity | intros n t -> ].
  eapply prepares_bind
    with (Q1 := fun n _ => n = 1%nat);
    [ apply prepares_crafted; reflexivity | intros n [] -> ].
  apply prepares_ret. reflexivity.
Qed.

Lemma prepares_craftAssetClawbackTx (clawbackAddress from to : string)
  (asset_id amount : Z) (lease note : option string)
  (sp : option SuggestedParams) :
  prepares (fun n _ => n = 1%nat)
    (Chain.craftAssetClawbackTx W clawbackAddress from to asset_id amount
       lease note sp).
Proof.
  unfold Chain.craftAssetClawbackTx.
  eapply prepares_bind
    with (Q1 := fun n _ => n = O);
    [ apply prepares_params_or_fetch; reflexivity | intros n p -> ].
  eapply prepares_bind
    with (Q1 := fun n _ => n = O);
    [ apply prepares_lift; reflexivity | intros n t -> ].
  eapply prepares_bind
    with (Q1 := fun n _ => n = 1%nat);
    [ apply prepares_crafted; reflexivity | intros n [] -> ].
  apply prepares_ret. reflexivity.
Qed.

Lemma prepares_craftAssetCreateTx (creatorAddress : string)
  (options : CreateAssetOptions) (sp : option SuggestedParams) :
  prepares (fun n _ => n = 1%nat)
    (Chain.craftAssetCreateTx W creatorAddress options sp).
Proof.
  unfold Chain.craftAssetCreateTx.
  eapply prepares_bind
    with (Q1 := fun n _ => n = O);
    [ apply prepares_params_or_fetch; reflexivity | intros n p -> ].
  eapply prepares_bind
    with (Q1 := fun n _ => n = 1%nat);
    [ apply prepares_crafted; reflexivity | intros n [] -> ].
  apply prepares_ret. reflexivity.
Qed.

Lemma prepares_getUserInfo (Q : nat -> Wallet.UserInfo -> Prop)
  (userId : string) :
  (forall info, Q O info) -> prepares Q (Wallet.getUserInfo W userId).
Proof.
  intros HQ. eapply prepares_quiet with (Q' := any); [ | auto ].
  apply emits_getUserInfo.
  - split; [ | split ]; intros H; exact H.
  - intros a. apply nothing_built_node. exact I.
Qed.

Lemma setGroupID_loop_length (groupId : bytes) (txns : list bytes) :
  forall grouped out,
    Chain.setGroupID_loop groupId txns grouped = Ok out ->
    List.length out = (List.length grouped + List.length txns)%nat.
Proof.
  induction txns as [| txn rest IH]; intros grouped out; simpl.
  - intros [= <-]. lia.
  - destruct (decodeTransaction txn) as [t |]; [ | discriminate ].
    intros Hout. rewrite (IH _ _ Hout). rewrite length_app. simpl. lia.
Qed.

Lemma setGroupID_length (txns out : list bytes) :
  Chain.setGroupID txns = Ok out -> List.length out = List.length txns.
Proof.
  unfold Chain.setGroupID. destruct (Chain.computeGroupId txns); [ | discriminate ].
  intros Hout. rewrite (setGroupID_loop_length _ _ _ _ Hout). reflexivity.
Qed.

End Crafting.

Section Signing.
Context (W : World) {E : Encoder}.

Lemma signTxAs_signs_one (who : Signer) (tx : bytes) :
  signs_one (signer_ref W who) tx (signTxAs W who tx).
Proof.
  intros s. exists [sign_request W who tx]. rewrite signTxAs_run.
  unfold Wallet.attach_signature.
  destruct (vault_answer W who tx) as [raw | status | ];
    [ destruct (nth_error (JS.split ":" raw) 2) as [sig |] | | ];
    cbn [state_of result_of fst Datatypes.snd ret throw logged trace];
    (split; [ reflexivity | ]); right; (split; [ reflexivity | ]).
  - intros y [= <-]. exists (base64_decode sig). reflexivity.
  - discriminate.
  - discriminate.
  - discriminate.
Qed.

Lemma sign_item_signs_one (tx : bytes) (org : GroupItem) :
  signs_one (item_signer org) tx (Wallet.sign_item W (tx, org)).
Proof.
  pose proof (signTxAs_signs_one (item_who org) tx) as H.
  unfold item_who, item_signer, Wallet.sign_item in *.
  destruct (type (txn_sender (txn org))); exact H.
Qed.

Lemma sign_by_sender_signs_one (userId ua ma : string) (tx : bytes) :
  signs_one (bundle_signer W userId ua tx) tx
    (Wallet.sign_by_sender W userId ua ma tx).
Proof.
  unfold Wallet.sign_by_sender, Wallet.sender_of, bundle_signer.
  destruct (decodeTransaction tx) as [t |].
  - apply run_post_ext with
      (m := if String.eqb (snd t) ua then Wallet.signTxAsUser W userId tx
            else if String.eqb (snd t) ma then Wallet.signTxAsManager W tx
                 else throw (JsError "Invalid sender"));
      [ reflexivity | ].
    destruct (String.eqb (snd t) ua).
    + exact (signTxAs_signs_one (AsUser userId) tx).
    + destruct (String.eqb (snd t) ma).
      * exact (signTxAs_signs_one AsManager tx).
      * apply run_post_throw. left. split; [ reflexivity | discriminate ].
  - apply run_post_ext with (m := throw (JsError "decodeTransaction"));
      [ reflexivity | ].
    apply run_post_throw. left. split; [ reflexivity | discriminate ].
Qed.

Lemma for_each_signs {X} (sign : X -> M bytes)
  (ref : X -> TransitPath * string) (pl : X -> bytes) :
  (forall x, signs_one (ref x) (pl x) (sign x)) ->
  forall xs,
    run_post (for_each sign xs)
      (fun evs r =>
         (exists k, evs = map (fun x => sign_event (ref x) (pl x))
                            (firstn k xs)) /\
         forall ys, r = Ok ys ->
           evs = map (fun x => sign_event (ref x) (pl x)) xs /\
           Forall2 signed_from (map pl xs) ys).
Proof.
  intros Hs. induction xs as [| x xs IH]; simpl.
  - apply run_post_ret. split; [ exists O; reflexivity | ].
    intros ys [= <-]. split; [ reflexivity | constructor ].
  - eapply run_post_bind; [ apply Hs | | ].
    + intros evs1 y [[_ Hno] | [-> Hy]]; [ exfalso; eapply Hno; reflexivity | ].
      eapply run_post_bind; [ apply IH | | ].
      * intros evs2 ys [_ Hok]. destruct (Hok ys eq_refl) as [-> HF].
        apply run_post_ret. rewrite app_nil_r. split.
        -- exists (S (List.length xs)). simpl. now rewrite firstn_all.
        -- intros ys' [= <-]. split; [ reflexivity | ].
           constructor; [ apply Hy; reflexivity | exact HF ].
      * intros evs2 e [[k ->] _]. split; [ exists (S k); reflexivity | ].
        discriminate.
    + intros evs1 e [[-> _] | [-> _]].
      * split; [ exists O; reflexivity | discriminate ].
      * split; [ exists 1%nat; reflexivity | discriminate ].
Qed.

Lemma sign_events_signing {X} (ref : X -> TransitPath * string)
  (pl : X -> bytes) (xs : list X) :
  Forall is_signing (map (fun x => sign_event (ref x) (pl x)) xs).
Proof. apply Forall_map, Forall_forall. intros x _. exact I. Qed.

Lemma submitTransaction_post (txnOrtxns : bytes + list bytes) :
  run_post (Chain.submitTransaction W txnOrtxns)
    (fun evs r =>
       exists rest,
         evs = NodeCall (POST_transactions (post_body txnOrtxns)) :: rest /\
         Forall ledger_query rest).
Proof.
  unfold Chain.submitTransaction. fold (post_body txnOrtxns).
  eapply run_post_bind with
    (p1 := fun evs _ =>
             evs = [NodeCall (POST_transactions (post_body txnOrtxns))]).
  - apply run_post_node; intros; reflexivity.
  - intros evs1 txid ->.
    eapply run_post_bind; [ apply waitConfirmation_post | | ].
    + intros evs2 r (loop & -> & _ & _ & Hall & _).
      apply run_post_ret. rewrite app_nil_r. eexists. split; [ reflexivity | ].
      constructor; [ exact I | eapply polling_events_are_queries, Hall ].
    + intros evs2 e (loop & -> & _ & _ & Hall & _).
      eexists. split; [ reflexivity | ].
      constructor; [ exact I | eapply polling_events_are_queries, Hall ].
  - intros evs1 e ->. exists []. split; [ reflexivity | constructor ].
Qed.

(** Signing every member and posting the signed members. *)
Lemma sign_and_submit {X B} (sign : X -> M bytes)
  (ref : X -> TransitPath * string) (pl : X -> bytes) (fin : string -> B)
  (xs : list X) :
  (forall x, signs_one (ref x) (pl x) (sign x)) ->
  run_post
    (signed <- for_each sign xs ;;
     txId <- Chain.submitTransaction W (inr signed) ;;
     ret (fin txId))
    (fun evs r =>
       exists signing submission,
         evs = signing ++ submission /\
         (exists k, signing = map (fun x => sign_event (ref x) (pl x))
                                (firstn k xs)) /\
         submission_of (signed_payloads signing) (List.length xs) submission /\
         forall b, r = Ok b ->
           signing = map (fun x => sign_event (ref x) (pl x)) xs /\
           submission <> [] /\
           exists txid, b = fin txid).
Proof.
  intros Hs. eapply run_post_bind; [ apply (for_each_signs sign ref pl Hs) | | ].
  - intros evs1 signed [Hpre Hok]. destruct (Hok signed eq_refl) as [-> HF].
    eapply run_post_bind; [ apply submitTransaction_post | | ].
    + intros evs2 txid (rest & -> & Hq). apply run_post_ret.
      rewrite app_nil_r. eexists _, _. split; [ reflexivity | ].
      split; [ exists (List.length xs); now rewrite firstn_all | ].
      split.
      * right. exists signed, rest. split; [ reflexivity | ].
        split; [ assumption | ]. rewrite signed_payloads_sign_events.
        split; [ assumption | ].
        apply Forall2_length in HF. rewrite length_map in HF. auto.
      * intros b [= <-]. split; [ reflexivity | ].
        split; [ discriminate | exists txid; reflexivity ].
    + intros evs2 e (rest & -> & Hq).
      eexists _, _. split; [ reflexivity | ].
      split; [ exists (List.length xs); now rewrite firstn_all | ].
      split; [ | discriminate ].
      right. exists signed, rest. split; [ reflexivity | ].
      split; [ assumption | ]. rewrite signed_payloads_sign_events.
      split; [ assumption | ].
      apply Forall2_length in HF. rewrite length_map in HF. auto.
  - intros evs1 e [Hpre _]. exists evs1, []. rewrite app_nil_r.
    split; [ reflexivity | ]. split; [ exact Hpre | ].
    split; [ left; reflexivity | discriminate ].
Qed.

(** Signing one transaction and posting it. *)
Lemma sign_one_and_submit (sign : M bytes) (ref : TransitPath * string)
  (tx : bytes) :
  signs_one ref tx sign ->
  run_post
    (signedTx <- sign ;; Chain.submitTransaction W (inl signedTx))
    (fun evs r =>
       exists signing submission,
         evs = signing ++ submission /\
         (signing = [] \/ signing = [sign_event ref tx]) /\
         submission_of (signed_payloads signing) 1 submission /\
         forall txid, r = Ok txid -> submission <> []).
Proof.
  intros Hs. eapply run_post_bind; [ apply Hs | | ].
  - intros evs1 y [[_ Hno] | [-> Hy]]; [ exfalso; eapply Hno; reflexivity | ].
    eapply run_post_conseq; [ | apply submitTransaction_post ].
    intros evs2 r (rest & -> & Hq).
    eexists _, _. split; [ reflexivity | ]. split; [ right; reflexivity | ].
    split; [ | discriminate ].
    right. exists [y], rest. simpl. rewrite app_nil_r.
    split; [ reflexivity | ]. split; [ assumption | ].
    split; [ | reflexivity ].
    constructor; [ apply Hy; reflexivity | constructor ].
  - intros evs1 e H. exists evs1, []. rewrite app_nil_r.
    split; [ reflexivity | ].
    split; [ destruct H as [[-> _] | [-> _]]; auto | ].
    split; [ left; reflexivity | discriminate ].
Qed.

End Signing.

Section Phases.
Context {A B : Type}.
Variable F : nat -> list Event -> list Event -> Result B -> Prop.

Lemma phases_prep (n : nat) (Q1 : nat -> A -> Prop) (m : M A)
  (k : A -> M B) :
  (forall j e, F j [] [] (Throw e)) ->
  prepares Q1 m ->
  (forall n1 a, Q1 n1 a -> run_post (k a) (phases F (n + n1))) ->
  run_post (bind m k) (phases F n).
Proof.
  intros Hthrow Hm Hk. eapply run_post_bind; [ exact Hm | | ].
  - intros evs1 a [Hf Hq].
    eapply run_post_conseq; [ | apply (Hk (crafts evs1) a (Hq a eq_refl)) ].
    intros evs2 r (prep & signing & submission & -> & Hp & Hs & HF).
    exists (evs1 ++ prep), signing, submission.
    split; [ now rewrite app_assoc | ].
    split; [ apply Forall_app; auto | ]. split; [ assumption | ].
    rewrite crafts_app, Nat.add_assoc. exact HF.
  - intros evs1 e [Hf _]. exists evs1, [], []. rewrite app_nil_r.
    split; [ reflexivity | ]. split; [ assumption | ].
    split; [ constructor | apply Hthrow ].
Qed.

Lemma phases_tail (n : nat) (m : M B) :
  run_post m (fun evs r =>
                exists signing submission,
                  evs = signing ++ submission /\
                  Forall is_signing signing /\
                  F n signing submission r) ->
  run_post m (phases F n).
Proof.
  apply run_post_conseq.
  intros evs r (signing & submission & -> & Hs & HF).
  exists [], signing, submission. simpl. rewrite Nat.add_0_r. auto.
Qed.

Lemma phases_throw (n : nat) (e : Error) :
  (forall j e, F j [] [] (Throw e)) ->
  run_post (throw e) (phases F n).
Proof.
  intros Hthrow. apply run_post_throw. exists [], [], [].
  split; [ reflexivity | ]. split; [ constructor | ].
  split; [ constructor | apply Hthrow ].
Qed.

End Phases.

Section Workflows.
Context (W : World) {E : Encoder}.

Lemma nothing_built_key_lookup (ev : Event) :
  key_lookup ev -> nothing_built ev.
Proof. destruct ev; simpl; intros []; split; [ | split ]; intros H; exact H. Qed.

Lemma prepares_collect_users (transactions : list GroupItem)
  (users0 : list Wallet.Checked) :
  prepares (fun n _ => n = O) (Wallet.collect_users W transactions users0).
Proof.
  eapply prepares_quiet with (Q' := any); [ | reflexivity ].
  eapply emits_weaken; [ | | | apply collect_users_emits ].
  - apply nothing_built_key_lookup.
  - intros; exact I.
  - intros; exact I.
Qed.

Lemma prepares_craft_item (sp : SuggestedParams) (tx : GroupItem) :
  prepares (fun n _ => n = 1%nat) (Wallet.craft_item W sp tx).
Proof.
  unfold Wallet.craft_item.
  destruct (txn tx) as [sender receiver amount
                       | assetId sender receiver amount
                       | sender options].
  - apply prepares_craftPaymentTx.
  - eapply prepares_bind with (Q1 := fun n _ => n = O).
    + eapply prepares_quiet with (Q' := any); [ | reflexivity ].
      unfold Wallet.algod_getTransactionParams.
      eapply emits_try_catch with (R' := any).
      * apply emits_node, nothing_built_node. exact I.
      * intros e _. apply emits_throw. exact I.
    + intros n sugp ->.
      eapply prepares_bind with (Q1 := fun n _ => n = 1%nat);
        [ apply prepares_crafted; reflexivity | intros n [] -> ].
      apply prepares_ret. reflexivity.
  - apply prepares_craftAssetCreateTx.
Qed.

Lemma group_outcome_throw (transactions : list GroupItem) :
  forall j e, group_outcome transactions j [] [] (Throw e).
Proof. intros j e. split; [ left; reflexivity | discriminate ]. Qed.

Lemma sendGroup_crafting_post (transactions : list GroupItem)
  (suggested_params : SuggestedParams) :
  run_post
    (unSignedTxs <- for_each (Wallet.craft_item W suggested_params)
                      transactions ;;
     unSignedGroupedTxns <- lift (Chain.setGroupID unSignedTxs) ;;
     signedTxs <- for_each (Wallet.sign_item W)
                    (combine unSignedGroupedTxns transactions) ;;
     let encodedTransactions := map base64_encode unSignedGroupedTxns in
     txId <- Chain.submitTransaction W (inr signedTxs) ;;
     ret {| Wallet.transaction_id := txId;
            Wallet.signed_transactions := encodedTransactions |})
    (phases (group_outcome transactions) O).
Proof.
  eapply phases_prep;
    [ apply group_outcome_throw
    | apply prepares_for_each, prepares_craft_item | ].
  intros n3 unSignedTxs [-> Hlen].
  eapply phases_prep
    with (Q1 := fun n grouped =>
                  n = O /\ List.length grouped = List.length transactions);
    [ apply group_outcome_throw | | ].
  { apply prepares_lift. intros grouped Hg. split; [ reflexivity | ].
    rewrite (setGroupID_length _ _ Hg). exact Hlen. }
  intros n4 grouped [-> Hg].
  apply phases_tail.
  eapply run_post_conseq;
    [ | apply (sign_and_submit W (Wallet.sign_item W)
                 (fun x => item_signer (Datatypes.snd x)) fst
                 (fun txId =>
                    {| Wallet.transaction_id := txId;
                       Wallet.signed_transactions :=
                         map base64_encode grouped |})) ].
  - intros evs r (signing & submission & -> & [k ->] & Hsub & Hok).
    exists (map (fun x => sign_event (item_signer (Datatypes.snd x)) (fst x))
              (firstn k (combine grouped transactions))), submission.
    split; [ reflexivity | ]. split; [ apply sign_events_signing | ].
    assert (Hc : List.length (combine grouped transactions)
                 = List.length transactions)
      by (rewrite length_combine; lia).
    split.
    + rewrite Hc in Hsub.
      replace (0 + List.length transactions + 0)%nat
        with (List.length transactions) by lia.
      exact Hsub.
    + intros resp Hr. destruct (Hok resp Hr) as (Hall & Hne & txid & ->).
      split; [ exact Hne | ]. split; [ lia | ].
      rewrite Hall, vault_ref_sign_events, signed_payloads_sign_events.
      split.
      * rewrite <- (combine_snd grouped transactions Hg) at 2.
        rewrite map_map. reflexivity.
      * simpl. now rewrite (combine_fst grouped transactions Hg).
  - intros [tx org]. apply sign_item_signs_one.
Qed.

Lemma sendGroup_post (transactions : list GroupItem) :
  run_post (Wallet.sendGroup W transactions)
    (phases (group_outcome transactions) O).
Proof.
  unfold Wallet.sendGroup.
  eapply phases_prep;
    [ apply group_outcome_throw | apply prepares_collect_users | ].
  intros n1 users ->.
  destruct (negb (Wallet.areUsersValid users));
    [ apply phases_throw, group_outcome_throw | ].
  eapply phases_prep with (Q1 := fun n _ => n = O);
    [ apply group_outcome_throw
    | apply prepares_node; [ exact I | reflexivity ] | ].
  intros n2 sp ->. apply sendGroup_crafting_post.
Qed.

(** X13.  The log of [sendGroup] falls into three parts: a preparation in
    which nothing is signed or posted, then signing requests only, then the
    submission.  The group is posted as a whole or not at all: a posted
    body is the concatenation of as many transactions as were crafted, each
    the payload of one signing request with a signature attached, in
    order.  On success every request of the group was crafted and posted,
    the i-th signature was asked of the key of the i-th sender, and the
    [signed_transactions] returned are the base64 forms of the payloads
    sent for signing, that is, of the unsigned grouped transactions. *)
Theorem sendGroup_all_or_nothing (transactions : list GroupItem) (s : St) :
  phases (group_outcome transactions) O
    (events_of (Wallet.sendGroup W transactions) s)
    (result_of (Wallet.sendGroup W transactions s)).
Proof. apply run_post_at, sendGroup_post. Qed.

Lemma prepares_getAccountAsset (Q : nat -> option unit -> Prop)
  (addr : string) (assetId : Z) :
  (forall a, Q O a) -> prepares Q (Chain.getAccountAsset W addr assetId).
Proof.
  intros HQ. eapply prepares_quiet with (Q' := any); [ | auto ].
  apply emits_getAccountAsset, nothing_built_node. exact I.
Qed.

Lemma prepares_transferAsset_unsigned (assetId : Z) (userId : string)
  (amount : Z) (lease note : option string) :
  prepares (fun n built =>
              List.length (Datatypes.snd built) = n /\ (1 <= n <= 3)%nat)
    (Wallet.transferAsset_unsigned W assetId userId amount lease note).
Proof.
  unfold Wallet.transferAsset_unsigned.
  eapply prepares_bind with (Q1 := fun n _ => n = O);
    [ apply prepares_getUserInfo; reflexivity | intros ? info -> ].
  eapply prepares_bind with (Q1 := fun n _ => n = O);
    [ apply prepares_getKey; reflexivity | intros ? mk -> ].
  eapply prepares_bind with (Q1 := fun n _ => n = O);
    [ apply prepares_node; [ exact I | reflexivity ] | intros ? sp -> ].
  eapply prepares_bind with (Q1 := fun n _ => n = O);
    [ apply prepares_getAccountAsset; reflexivity | intros ? aa -> ].
  eapply prepares_bind with (Q1 := fun n _ => n = O);
    [ apply prepares_node; [ exact I | reflexivity ] | intros ? d -> ].
  eapply prepares_bind
    with (Q1 := fun n txs1 => List.length txs1 = n /\ (n <= 1)%nat).
  { match goal with |- prepares _ (if ?b then _ else _) => destruct b end.
    - eapply prepares_bind;
        [ apply prepares_craftPaymentTx | intros ? tx -> ].
      apply prepares_ret. simpl. split; [ reflexivity | lia ].
    - apply prepares_ret. simpl. split; [ reflexivity | lia ]. }
  intros n1 txs1 [Hl1 Hb1].
  eapply prepares_bind
    with (Q1 := fun n txs2 => List.length txs2 = (n1 + n)%nat /\ (n <= 1)%nat).
  { destruct aa as [[] |].
    - apply prepares_ret. split; lia.
    - eapply prepares_bind;
        [ apply prepares_craftAssetTransferTx | intros ? tx -> ].
      apply prepares_ret. rewrite length_app. simpl. split; lia. }
  intros n2 txs2 [Hl2 Hb2].
  eapply prepares_bind;
    [ apply prepares_craftAssetTransferTx | intros ? tx3 -> ].
  apply prepares_ret. cbn [Datatypes.snd]. rewrite length_app. simpl.
  split; lia.
Qed.

Lemma bundle_outcome_throw (userId : string) :
  forall j e, bundle_outcome W userId j [] [] (Throw e).
Proof.
  intros j e. split; [ left; reflexivity | ].
  split; [ constructor | discriminate ].
Qed.

Lemma bundle_signer_key (userId ua : string) (tx : bytes) :
  let ev := sign_event (bundle_signer W userId ua tx) tx in
  signs_with VAULT_TRANSIT_USERS_PATH userId ev \/
  signs_with VAULT_TRANSIT_MANAGERS_PATH (VAULT_MANAGER_KEY W) ev.
Proof.
  unfold bundle_signer.
  destruct (decodeTransaction tx) as [t |];
    [ destruct (String.eqb (snd t) ua) | ];
    [ left | right | left ]; exists tx; reflexivity.
Qed.

Lemma bind_congr_r {X Y} (m : M X) (k k' : X -> M Y) :
  (forall a s, k a s = k' a s) -> forall s, bind m k s = bind m k' s.
Proof.
  intros Hk s. unfold bind. destruct (m s) as [[a | e] s1]; auto.
Qed.

Lemma transferAsset_post (assetId : Z) (userId : string) (amount : Z)
  (lease note : option string) :
  run_post (Wallet.transferAsset W assetId userId amount lease note)
    (phases (bundle_outcome W userId) O).
Proof.
  unfold Wallet.transferAsset.
  eapply phases_prep;
    [ apply bundle_outcome_throw | apply prepares_transferAsset_unsigned | ].
  intros n1 [[ua ma] txs] [Hlen Hb]. cbn [Datatypes.snd] in Hlen.
  eapply phases_prep
    with (Q1 := fun n grouped =>
                  n = O /\ List.length grouped = List.length txs);
    [ apply bundle_outcome_throw | | ].
  { apply prepares_lift. intros grouped Hg. split; [ reflexivity | ].
    apply (setGroupID_length _ _ Hg). }
  intros n2 grouped [-> Hg].
  apply phases_tail.
  eapply run_post_ext;
    [ intros s; apply bind_congr_r; intros signed s'; apply bind_ret_r | ].
  eapply run_post_conseq;
    [ | apply (sign_and_submit W (Wallet.sign_by_sender W userId ua ma)
                 (bundle_signer W userId ua) (fun tx => tx)
                 (fun txId => txId)) ].
  - intros evs r (signing & submission & -> & [k ->] & Hsub & Hok).
    eexists _, submission.
    split; [ reflexivity | ]. split; [ apply sign_events_signing | ].
    replace (0 + n1 + 0)%nat with (List.length grouped) by lia.
    split; [ exact Hsub | ]. split.
    + apply Forall_map, Forall_forall. intros tx _.
      apply bundle_signer_key.
    + intros txid Hr. destruct (Hok txid Hr) as (_ & Hne & _).
      split; [ exact Hne | lia ].
  - intros tx. apply sign_by_sender_signs_one.
Qed.

(** X14.  The log of [transferAsset] falls into the same three parts.  The
    bundle is posted as a whole or not at all: a posted body is the
    concatenation of as many transactions as were crafted, each the
    payload of one signing request with a signature attached, in order.
    Only the key of the user and the default manager key are ever asked to
    sign.  On success the bundle was posted and had one, two or three
    members. *)
Theorem transferAsset_all_or_nothing (assetId : Z) (userId : string)
  (amount : Z) (lease note : option string) (s : St) :
  phases (bundle_outcome W userId) O
    (events_of (Wallet.transferAsset W assetId userId amount lease note) s)
    (result_of (Wallet.transferAsset W assetId userId amount lease note s)).
Proof. apply run_post_at, transferAsset_post. Qed.

Lemma single_outcome_throw :
  forall j e, single_outcome W j [] [] (Throw e).
Proof.
  intros j e. split; [ left; reflexivity | ].
  split; [ constructor | ]. split; [ simpl; lia | discriminate ].
Qed.

Lemma manager_signs_and_submits (tx : bytes) :
  run_post
    (signedTx <- Wallet.signTxAsManager W tx ;;
     Chain.submitTransaction W (inl signedTx))
    (phases (single_outcome W) 1).
Proof.
  apply phases_tail.
  eapply run_post_conseq;
    [ | apply (sign_one_and_submit W (Wallet.signTxAsManager W tx)
                 (signer_ref W AsManager) tx
                 (signTxAs_signs_one W AsManager tx)) ].
  intros evs r (signing & submission & -> & Hsig & Hsub & Hok).
  exists signing, submission. split; [ reflexivity | ].
  assert (Hall : Forall (signs_with VAULT_TRANSIT_MANAGERS_PATH
                           (VAULT_MANAGER_KEY W)) signing).
  { destruct Hsig as [-> | ->]; constructor; [ | constructor ].
    exists tx. reflexivity. }
  split.
  { eapply Forall_impl; [ | exact Hall ]. intros ev [data ->]. exact I. }
  split; [ exact Hsub | ]. split; [ exact Hall | ].
  split; [ destruct Hsig as [-> | ->]; simpl; lia | ].
  intros txid Hr. split; [ eapply Hok, Hr | reflexivity ].
Qed.

Lemma clawbackAsset_post (assetId : Z) (userId : string) (amount : Z)
  (lease note : option string) :
  run_post (Wallet.clawbackAsset W assetId userId amount lease note)
    (phases (single_outcome W) O).
Proof.
  unfold Wallet.clawbackAsset.
  eapply phases_prep with (Q1 := fun n _ => n = O);
    [ apply single_outcome_throw
    | apply prepares_getUserInfo; reflexivity | intros ? info -> ].
  eapply phases_prep with (Q1 := fun n _ => n = O);
    [ apply single_outcome_throw
    | apply prepares_getKey; reflexivity | intros ? mk -> ].
  eapply phases_prep with (Q1 := fun n _ => n = O);
    [ apply single_outcome_throw
    | apply prepares_node; [ exact I | reflexivity ] | intros ? sp -> ].
  eapply phases_prep;
    [ apply single_outcome_throw
    | apply prepares_craftAssetClawbackTx | intros ? tx -> ].
  apply manager_signs_and_submits.
Qed.

Lemma createAsset_post (options : CreateAssetOptions) :
  run_post (Wallet.createAsset W options) (phases (single_outcome W) O).
Proof.
  unfold Wallet.createAsset.
  eapply phases_prep with (Q1 := fun n _ => n = O);
    [ apply single_outcome_throw
    | apply prepares_getKey; reflexivity | intros ? mk -> ].
  eapply phases_prep;
    [ apply single_outcome_throw
    | apply prepares_craftAssetCreateTx | intros ? tx -> ].
  apply manager_signs_and_submits.
Qed.

(** X15.  [clawbackAsset] and [createAsset] prepare, sign and submit in
    that order; only the default manager key is ever asked to sign (the
    key of the user is looked up by [clawbackAsset] and never used), at
    most one signature is requested, and a posted body is the payload of
    that request with a signature attached.  On success exactly one
    transaction was crafted and it was posted. *)
Theorem manager_workflows_sign_with_manager_key_only (s : St) :
  (forall assetId userId amount lease note,
     phases (single_outcome W) O
       (events_of (Wallet.clawbackAsset W assetId userId amount lease note) s)
       (result_of (Wallet.clawbackAsset W assetId userId amount lease note s)))
  /\
  (forall options,
     phases (single_outcome W) O
       (events_of (Wallet.createAsset W options) s)
       (result_of (Wallet.createAsset W options s))).
Proof.
  split; intros.
  - apply run_post_at, clawbackAsset_post.
  - apply run_post_at, createAsset_post.
Qed.

End Workflows.

Lemma sendGroup_all_or_nothing_witness :
  is_throw (result_of (Wallet.sendGroup (E := Scenario.encoder) Groups.W
                         GroupRuns.two_payments St0)) = false /\
  phases (group_outcome (E := Scenario.encoder) GroupRuns.two_payments) O
    (events_of (Wallet.sendGroup (E := Scenario.encoder) Groups.W
                  GroupRuns.two_payments) St0)
    (result_of (Wallet.sendGroup (E := Scenario.encoder) Groups.W
                  GroupRuns.two_payments St0)).
Proof.
  split; [ vm_compute; reflexivity | ].
  apply (sendGroup_all_or_nothing Groups.W (E := Scenario.encoder)
           GroupRuns.two_payments St0).
Defined.

Lemma transferAsset_all_or_nothing_witness :
  result_of (Wallet.transferAsset (E := Scenario.encoder) Receivers.W_optin
               5 "alice" 5 None None St0) = Ok "TXID" /\
  phases (bundle_outcome (E := Scenario.encoder) Receivers.W_optin "alice") O
    (events_of (Wallet.transferAsset (E := Scenario.encoder)
                  Receivers.W_optin 5 "alice" 5 None None) St0)
    (result_of (Wallet.transferAsset (E := Scenario.encoder)
                  Receivers.W_optin 5 "alice" 5 None None St0)).
Proof.
  split; [ vm_compute; reflexivity | ].
  apply (transferAsset_all_or_nothing Receivers.W_optin
           (E := Scenario.encoder) 5 "alice" 5 None None St0).
Defined.

Lemma manager_workflows_sign_with_manager_key_only_witness :
  result_of (Wallet.clawbackAsset (E := Scenario.encoder) Samples.W_confirmed
               5 "alice" 5 None None St0) = Ok "TXID" /\
  phases (single_outcome (E := Scenario.encoder) Samples.W_confirmed) O
    (events_of (Wallet.clawbackAsset (E := Scenario.encoder)
                  Samples.W_confirmed 5 "alice" 5 None None) St0)
    (result_of (Wallet.clawbackAsset (E := Scenario.encoder)
                  Samples.W_confirmed 5 "alice" 5 None None St0)).
Proof.
  split; [ vm_compute; reflexivity | ].
  apply (proj1 (manager_workflows_sign_with_manager_key_only
                  Samples.W_confirmed (E := Scenario.encoder) St0)).
Defined.

(* ===================================================================== *)
(** ** GroupPlanner: what a validated group crafts *)
(* ===================================================================== *)

Section GroupCrafting.
Context (W : World) {E : Encoder}.

Lemma areUsersValid_custody (users : list Wallet.Checked) (u : User)
  (a : string) :
  Wallet.areUsersValid users = true ->
  In (Wallet.checked_of u a) users ->
  a = public_address u.
Proof.
  unfold Wallet.areUsersValid. intros Hall Hin.
  rewrite forallb_forall in Hall. specialize (Hall _ Hin).
  cbn in Hall. now apply String.eqb_eq in Hall.
Qed.

Lemma craft_item_emits (transactions : list GroupItem)
  (sp : SuggestedParams) (org : GroupItem) :
  In org transactions ->
  (forall u, In u (parties transactions) ->
             custody_address W u = Some (public_address u)) ->
  emits (crafted_for_some W transactions) any any (Wallet.craft_item W sp org).
Proof.
  intros Hin Hcust.
  assert (Hnode : forall req, crafted_for_some W transactions (NodeCall req))
    by (intros req t Ht; discriminate).
  unfold Wallet.craft_item, crafted_for_some, crafted_for.
  destruct (txn org) as [sender receiver amount
                        | assetId sender receiver amount
                        | sender options] eqn:Hx.
  - assert (Hs : custody_address W sender = Some (public_address sender)).
    { apply Hcust. replace sender with (txn_sender (txn org))
        by (rewrite Hx; reflexivity).
      apply sender_is_party, Hin. }
    assert (Hr : custody_address W receiver = Some (public_address receiver)).
    { apply Hcust. apply (receiver_is_party transactions org receiver Hin).
      rewrite Hx. reflexivity. }
    unfold Chain.craftPaymentTx. cbn [Chain.params_or_fetch].
    eapply emits_bind
      with (Q' := fun p => p = {| lastRound := lastRound sp;
                                  minFee := item_fee org |});
      [ apply emits_ret; reflexivity | intros p -> ].
    apply emits_bind_any; [ | intros _; apply emits_ret; exact I ].
    apply emits_emit; [ | exact I ].
    intros t [= <-]. exists org. split; [ exact Hin | ].
    rewrite Hx. cbn. repeat split; auto.
  - assert (Hs : custody_address W sender = Some (public_address sender)).
    { apply Hcust. replace sender with (txn_sender (txn org))
        by (rewrite Hx; reflexivity).
      apply sender_is_party, Hin. }
    assert (Hr : custody_address W receiver = Some (public_address receiver)).
    { apply Hcust. apply (receiver_is_party transactions org receiver Hin).
      rewrite Hx. reflexivity. }
    apply emits_bind_any.
    { unfold Wallet.algod_getTransactionParams.
      eapply emits_try_catch with (R' := any).
      - apply emits_node, Hnode.
      - intros e _. apply emits_throw. exact I. }
    intros sugp.
    apply emits_bind_any; [ | intros _; apply emits_ret; exact I ].
    apply emits_emit; [ | exact I ].
    intros t [= <-]. exists org. split; [ exact Hin | ].
    rewrite Hx. cbn. repeat split; auto.
    unfold Chain.amount_if.
    destruct (Z.eqb_spec amount 0) as [-> | Hne]; reflexivity.
  - assert (Hs : custody_address W sender = Some (public_address sender)).
    { apply Hcust. replace sender with (txn_sender (txn org))
        by (rewrite Hx; reflexivity).
      apply sender_is_party, Hin. }
    unfold Chain.craftAssetCreateTx. cbn [Chain.params_or_fetch].
    eapply emits_bind
      with (Q' := fun p => p = {| lastRound := lastRound sp;
                                  minFee := item_fee org |});
      [ apply emits_ret; reflexivity | intros p -> ].
    apply emits_bind_any; [ | intros _; apply emits_ret; exact I ].
    apply emits_emit; [ | exact I ].
    intros t [= <-]. exists org. split; [ exact Hin | ].
    rewrite Hx. cbn. repeat split; auto.
Qed.

(** X16.  Every transaction [sendGroup] crafts is the one some item of the
    group asks for: its sender, and its receiver when it has one, are the
    addresses custody holds for the item's parties, and its fee is the fee
    of the item; a payment or an asset creation moreover has a validity
    window of a thousand rounds, the configured genesis, and no note,
    lease or group yet. *)
Theorem sendGroup_crafts_for_custody_addresses
  (transactions : list GroupItem) (s : St) :
  Forall (crafted_for_some W transactions)
    (events_of (Wallet.sendGroup W transactions) s).
Proof.
  eapply emits_events_of with (Q := any) (R := any).
  assert (Hother : forall ev, ~ is_crafted ev ->
                              crafted_for_some W transactions ev).
  { intros ev Hn t ->. exfalso. apply Hn. exact I. }
  unfold Wallet.sendGroup.
  eapply emits_bind with
    (Q' := fun users =>
             forall v, In v (parties transactions) ->
               exists a, custody_address W v = Some a /\
                         In (Wallet.checked_of v a) users).
  - eapply emits_weaken; [ | | | apply (collect_users_emits W transactions []) ].
    + intros ev Hk. apply Hother. destruct ev; simpl in *; auto.
    + intros users [_ Hall]. exact Hall.
    + intros; exact I.
  - intros users Hall.
    destruct (Wallet.areUsersValid users) eqn:Hvalid; cbn [negb];
      [ | apply emits_throw; exact I ].
    assert (Hcust : forall u, In u (parties transactions) ->
                      custody_address W u = Some (public_address u)).
    { intros u Hu. destruct (Hall u Hu) as (a & Ha & Hin).
      rewrite Ha. f_equal. eapply areUsersValid_custody; eassumption. }
    apply emits_bind_any;
      [ apply emits_node, Hother; intros H; exact H | intros sp ].
    eapply emits_bind with (Q' := any).
    { apply emits_for_each. intros org Hin.
      apply craft_item_emits; assumption. }
    intros unSignedTxs _.
    apply emits_bind_any; [ apply emits_lift; destruct (Chain.setGroupID _); exact I | ].
    intros grouped.
    eapply emits_bind with (Q' := any).
    { apply emits_for_each. intros [tx org] _. unfold Wallet.sign_item.
      destruct (type (txn_sender (txn org)));
        (apply emits_bind_any;
         [ apply emits_sign, Hother; intros H; exact H
         | intros raw; apply emits_attach_signature ]). }
    intros signedTxs _.
    apply emits_bind_any; [ | intros txId; apply emits_ret; exact I ].
    apply emits_submitTransaction. intros req. apply Hother. intros H; exact H.
Qed.

End GroupCrafting.

Lemma sendGroup_crafts_for_custody_addresses_witness :
  crafts (events_of (Wallet.sendGroup (E := Scenario.encoder) Groups.W
                       GroupRuns.two_payments) St0) = 2%nat /\
  Forall (crafted_for_some (E := Scenario.encoder) Groups.W
            GroupRuns.two_payments)
    (events_of (Wallet.sendGroup (E := Scenario.encoder) Groups.W
                  GroupRuns.two_payments) St0).
Proof.
  split; [ vm_compute; reflexivity | ].
  apply (sendGroup_crafts_for_custody_addresses Groups.W
           (E := Scenario.encoder) GroupRuns.two_payments St0).
Defined.

Section GenuineGroups.
Context (W : World) {E : Encoder}.

Lemma collect_users_run (transactions : list GroupItem) :
  forall users0 s,
    genuine W transactions ->
    Wallet.collect_users W transactions users0 s
    = (Ok (users0 ++ map (fun u => Wallet.checked_of u (public_address u))
                       (parties transactions)),
       {| clock := clock s;
          trace := trace s ++ map lookup_of (parties transactions) |}).
Proof.
  induction transactions as [| tx rest IH]; intros users0 s Hg.
  - simpl. rewrite !app_nil_r. destruct s. reflexivity.
  - assert (Hrest : genuine W rest).
    { intros u Hu. apply Hg. unfold parties in *. cbn [flat_map].
      apply in_or_app. right. exact Hu. }
    assert (Hs : custody_address W (txn_sender (txn tx))
                 = Some (public_address (txn_sender (txn tx)))).
    { apply Hg. unfold parties. cbn [flat_map]. apply in_or_app. left.
      left. reflexivity. }
    cbn [Wallet.collect_users].
    rewrite (bind_ok _ _ _ _ _ (resolve_run W _ _ s Hs)).
    unfold parties. cbn [flat_map]. fold (parties rest).
    destruct (txn_receiver (txn tx)) as [r |] eqn:Hr.
    + assert (Hra : custody_address W r = Some (public_address r)).
      { apply Hg. unfold parties. cbn [flat_map]. apply in_or_app. left.
        rewrite Hr. right. left. reflexivity. }
      rewrite (bind_ok _ _ _ _ _ (resolve_run W _ _ _ Hra)).
      rewrite IH by exact Hrest. unfold logged. cbn [clock trace].
      simpl. rewrite <- !app_assoc. reflexivity.
    + rewrite IH by exact Hrest. unfold logged. cbn [clock trace].
      simpl. rewrite <- !app_assoc. reflexivity.
Qed.

Lemma areUsersValid_genuine (us : list User) :
  Wallet.areUsersValid
    (map (fun u => Wallet.checked_of u (public_address u)) us) = true.
Proof.
  unfold Wallet.areUsersValid. apply forallb_forall.
  intros c Hc. apply in_map_iff in Hc. destruct Hc as (u & <- & _).
  cbn. apply String.eqb_refl.
Qed.

(** X19.  A group in which every party claims the address custody holds
    for it passes validation: [sendGroup] makes one key look-up for each
    occurrence of a party, sender before receiver, in the order of the
    group, and its next request is the query for the node's parameters. *)
Theorem sendGroup_genuine_group_passes_validation
  (transactions : list GroupItem) (s : St) :
  genuine W transactions ->
  exists rest,
    events_of (Wallet.sendGroup W transactions) s
    = map lookup_of (parties transactions)
      ++ NodeCall GET_transactions_params :: rest.
Proof.
  intros Hg. unfold events_of, Wallet.sendGroup.
  rewrite (bind_ok _ _ _ _ _ (collect_users_run transactions [] s Hg)).
  cbn [app]. rewrite areUsersValid_genuine. cbn [negb].
  match goal with
  | |- context [state_of (bind ?m ?k ?s1)] =>
      assert (HT : run_post (bind m k)
                     (fun evs _ => exists rest,
                        evs = NodeCall GET_transactions_params :: rest));
      [ | destruct (HT s1) as (evs & Ht & rest & ->); rewrite Ht ]
  end.
  - eapply run_post_bind with
      (p1 := fun evs _ => evs = [NodeCall GET_transactions_params]).
    + apply run_post_node; intros; reflexivity.
    + intros evs1 sp ->.
      eapply run_post_conseq; [ | apply sendGroup_crafting_post ].
      intros evs r _. eexists. reflexivity.
    + intros evs1 e ->. exists []. reflexivity.
  - exists rest. cbn [trace]. rewrite <- app_assoc. apply skipn_exact.
Qed.

End GenuineGroups.

Lemma two_payments_genuine :
  genuine (E := Scenario.encoder) Groups.W GroupRuns.two_payments.
Proof.
  intros u Hu. simpl in Hu.
  destruct Hu as [<- | [<- | [<- | [<- | []]]]]; reflexivity.
Defined.

Lemma sendGroup_genuine_group_passes_validation_witness :
  exists rest,
    events_of (Wallet.sendGroup (E := Scenario.encoder) Groups.W
                 GroupRuns.two_payments) St0
    = map lookup_of (parties GroupRuns.two_payments)
      ++ NodeCall GET_transactions_params :: rest.
Proof.
  apply (sendGroup_genuine_group_passes_validation Groups.W
           (E := Scenario.encoder) GroupRuns.two_payments St0
           two_payments_genuine).
Defined.

(** A group with an asset transfer, whose bytes come from the other
    library, is grouped, signed and sent like any other. *)
Example sendGroup_payment_and_asset_transfer :
  is_throw
    (result_of (Wallet.sendGroup (E := Scenario.encoder) Groups.W
                  [Groups.item (algo_transfer Groups.admin Groups.alice 5);
                   Groups.item (asset_transfer 5 Groups.alice Groups.bob 7)]
                  St0)) = false /\
  base64_decode (Encoder := Scenario.encoder) "-_8="
  = base64_decode (Encoder := Scenario.encoder) "+/8=".
Proof. split; vm_compute; reflexivity. Qed.

(* ===================================================================== *)
(** ** WalletWorkflows: how [transferAlgoToAddress] fails *)
(* ===================================================================== *)

Section AlgoTransfer.
Context (W : World) {E : Encoder}.

Lemma signTxAs_post (who : Signer) (tx : bytes) :
  run_post (signTxAs W who tx)
    (fun evs _ => evs = [sign_request W who tx]).
Proof.
  intros s. exists [sign_request W who tx]. rewrite signTxAs_run.
  unfold Wallet.attach_signature.
  destruct (vault_answer W who tx) as [raw | status | ];
    [ destruct (nth_error (JS.split ":" raw) 2) as [sig |] | | ];
    split; reflexivity.
Qed.

Lemma sign_then_submit_post (who : Signer) (tx : bytes) :
  run_post
    (signedTx <- signTxAs W who tx ;;
     Chain.submitTransaction W (inl signedTx))
    (fun evs r =>
       Exists is_signing evs /\
       forall txid, r = Ok txid -> Exists is_submission evs).
Proof.
  eapply run_post_bind; [ apply signTxAs_post | | ].
  - intros evs1 signedTx ->.
    eapply run_post_conseq; [ | apply submitTransaction_post ].
    intros evs2 r (rest & -> & _). split.
    + apply Exists_cons_hd. exact I.
    + intros _ _. apply Exists_cons_tl, Exists_cons_hd. exact I.
  - intros evs1 e ->. split; [ apply Exists_cons_hd; exact I | discriminate ].
Qed.

Lemma from_address_post (fromUserId : string) :
  run_post
    (if String.eqb fromUserId "manager"
     then bind (Vault.getManagerPublicKey W) (fun mk => ret (encodeAddress mk))
     else bind (Wallet.getUserInfo W fromUserId)
            (fun info => ret (Wallet.info_public_address info)))
    (fun evs _ => Forall (fun ev => nothing_built ev /\ ~ params_query ev) evs).
Proof.
  assert (Hkey : forall p k, nothing_built (VaultGetKey p k) /\
                             ~ params_query (VaultGetKey p k)).
  { intros p k. split; [ apply nothing_built_key_lookup; exact I
                       | discriminate ]. }
  eapply run_post_conseq;
    [ | apply run_post_of_emits
          with (P := fun ev => nothing_built ev /\ ~ params_query ev)
               (Q := any) (R := any) ].
  - intros evs r [Hf _]. exact Hf.
  - destruct (String.eqb fromUserId "manager").
    + apply emits_bind_any; [ | intros mk; apply emits_ret; exact I ].
      apply emits_getKey_any, Hkey.
    + apply emits_bind_any; [ | intros info; apply emits_ret; exact I ].
      apply emits_getUserInfo; [ apply Hkey | ].
      intros a. split; [ apply nothing_built_node; exact I | discriminate ].
Qed.

Lemma transferAlgoToAddress_post (fromUserId toAddress : string) (amount : Z)
  (lease note : option string) :
  run_post (Wallet.transferAlgoToAddress W fromUserId toAddress amount lease note)
    (algo_transfer_outcome fromUserId).
Proof.
  unfold Wallet.transferAlgoToAddress.
  eapply run_post_bind with
    (p1 := fun evs r =>
             Forall (fun ev => nothing_built ev /\ ~ params_query ev) evs /\
             forall e, r = Throw e -> from_address_error fromUserId e).
  - eapply run_post_try_catch; [ apply from_address_post | | ].
    + intros evs1 a Hf. split; [ exact Hf | discriminate ].
    + intros evs1 e Hf. apply run_post_throw. rewrite app_nil_r.
      split; [ exact Hf | ]. intros e' [= <-]. eexists. reflexivity.
  - intros evs1 fromAddress [Hf1 _].
    assert (Hq : forall rest,
              Exists params_query
                (evs1 ++ [NodeCall GET_transactions_params] ++ rest)).
    { intros rest. apply Exists_app. right. apply Exists_cons_hd. reflexivity. }
    eapply run_post_bind with
      (p1 := fun evs r => evs = [NodeCall GET_transactions_params]).
    + apply run_post_node; intros; reflexivity.
    + intros evs2 sp ->.
      eapply run_post_bind with (p1 := fun evs r => is_throw r = false).
      * intros s. eexists. split; reflexivity.
      * intros evs3 payTx _.
        eapply run_post_try_catch
          with (p1 := fun evs r =>
                        Exists is_signing evs /\
                        forall txid, r = Ok txid -> Exists is_submission evs).
        -- destruct (String.eqb fromUserId "manager").
           ++ apply (sign_then_submit_post AsManager payTx).
           ++ apply (sign_then_submit_post (AsUser fromUserId) payTx).
        -- intros evs4 txid [Hs Hp]. split.
           ++ rewrite !Exists_app. auto.
           ++ rewrite !Exists_app. right. right. right. eapply Hp. reflexivity.
        -- intros evs4 e [Hs _]. apply run_post_throw. rewrite app_nil_r.
           right. right. split; [ eexists; reflexivity | ].
           split; [ apply Hq | ].
           rewrite !Exists_app. auto.
      * intros evs3 e Hno. discriminate.
    + intros evs2 e ->. right. left.
      split; [ rewrite <- (app_nil_r [_]); apply Hq | ].
      apply Forall_app. split.
      * eapply Forall_impl; [ | exact Hf1 ].
        intros ev [Hb _]. apply nothing_built_unsigned, Hb.
      * constructor; [ | constructor ].
        apply nothing_built_unsigned, nothing_built_node. exact I.
  - intros evs1 e [Hf He]. left. split; [ apply He; reflexivity | ].
    split.
    + eapply Forall_impl; [ | exact Hf ]. intros ev [Hb _]. exact Hb.
    + intros Hex. apply Exists_exists in Hex. destruct Hex as (ev & Hin & Hp).
      rewrite Forall_forall in Hf. exact (proj2 (Hf ev Hin) Hp).
Qed.

(** X17.  How [transferAlgoToAddress] fails tells how far it got.  A
    failure before the suggested parameters are asked for is a plain error
    saying the sender's address could not be got, and nothing has been
    crafted, signed or posted.  A failure after a signature has been
    requested is a plain error saying the signing failed: this is also
    what a refusal of the post and a rejection by the pool are reported
    as.  A failure in between, once the parameters have been asked for,
    leaves nothing signed and nothing posted.  A transfer that succeeds
    has been signed and posted. *)
Theorem transferAlgoToAddress_failure_kinds (fromUserId toAddress : string)
  (amount : Z) (lease note : option string) (s : St) :
  algo_transfer_outcome fromUserId
    (events_of (Wallet.transferAlgoToAddress W fromUserId toAddress amount
                  lease note) s)
    (result_of (Wallet.transferAlgoToAddress W fromUserId toAddress amount
                  lease note s)).
Proof. apply run_post_at, transferAlgoToAddress_post. Qed.

End AlgoTransfer.

Lemma transferAlgoToAddress_failure_kinds_witness :
  result_of (Wallet.transferAlgoToAddress (E := Scenario.encoder)
               Pipeline.W_post_refused "alice" Scenario.bob_address 5
               None None St0)
  = Throw (JsError
             "Failed to sign transaction as user alice: NodeException: msgpack decode error")
  /\
  algo_transfer_outcome "alice"
    (events_of (Wallet.transferAlgoToAddress (E := Scenario.encoder)
                  Pipeline.W_post_refused "alice" Scenario.bob_address 5
                  None None) St0)
    (result_of (Wallet.transferAlgoToAddress (E := Scenario.encoder)
                  Pipeline.W_post_refused "alice" Scenario.bob_address 5
                  None None St0)).
Proof.
  split; [ vm_compute; reflexivity | ].
  apply (transferAlgoToAddress_failure_kinds Pipeline.W_post_refused
           (E := Scenario.encoder) "alice" Scenario.bob_address 5 None None
           St0).
Defined.

(* ===================================================================== *)
(** ** FundingAndOptInResolver: the amount of the funding payment *)
(* ===================================================================== *)

Lemma round_mag_pos (m : Z) : 0 < m -> 0 < JS.round_mag m.
Proof.
  intros Hm. unfold JS.round_mag.
  destruct (Z.leb_spec m JS.two53) as [Hle | Hgt]; [ exact Hm | ].
  set (e := Z.log2 m - 52).
  assert (Hlog : 53 <= Z.log2 m).
  { apply Z.log2_le_pow2; [ lia | ]. unfold JS.two53 in Hgt. lia. }
  assert (He : 0 < e) by (unfold e; lia).
  assert (Hq : 0 < Z.shiftr m e).
  { rewrite Z.shiftr_div_pow2 by lia.
    apply Z.div_str_pos. split; [ apply Z.pow_pos_nonneg; lia | ].
    destruct (Z.log2_spec m Hm) as [Hlow _].
    eapply Z.le_trans; [ | exact Hlow ].
    apply Z.pow_le_mono_r; unfold e; lia. }
  set (q := Z.shiftr m e) in *.
  assert (Hq' : 0 < (if m - Z.shiftl q e <? Z.shiftl 1 (e - 1) then q
                     else if Z.shiftl 1 (e - 1) <? m - Z.shiftl q e then q + 1
                          else if Z.even q then q else q + 1)).
  { destruct (_ <? _); [ lia | ]. destruct (_ <? _); [ lia | ].
    destruct (Z.even q); lia. }
  rewrite Z.shiftl_mul_pow2 by lia.
  apply Z.mul_pos_pos; [ exact Hq' | apply Z.pow_pos_nonneg; lia ].
Qed.

Lemma Number_pos (z : Z) : 0 < z -> 0 < JS.Number z.
Proof.
  intros Hz. unfold JS.Number.
  rewrite Z.sgn_pos, Z.abs_eq by lia.
  pose proof (round_mag_pos z Hz). lia.
Qed.

Lemma Number_neg (z : Z) : z < 0 -> JS.Number z < 0.
Proof.
  intros Hz. unfold JS.Number.
  rewrite Z.sgn_neg, Z.abs_neq by lia.
  pose proof (round_mag_pos (- z) ltac:(lia)). lia.
Qed.

(** X18.  With the fee a safe integer, the amount of the funding payment
    of [transferAsset] is positive whenever the payment is made, and when
    the receiver is not below its minimum balance it is the exact
    shortfall, at most the opt-in reserve plus the fee. *)
Theorem funding_amount_positive (willOptInTx : bool) (sp : SuggestedParams)
  (d : AccountDetail) :
  0 <= minFee sp <= JS.two53 - Wallet.optin_min_balance ->
  Wallet.ownedExtraAlgo d < Wallet.extraAlgoNeed willOptInTx sp ->
  0 < JS.sub (Wallet.extraAlgoNeed willOptInTx sp)
         (JS.Number (Wallet.ownedExtraAlgo d)) /\
  (0 <= Wallet.ownedExtraAlgo d ->
   JS.sub (Wallet.extraAlgoNeed willOptInTx sp)
     (JS.Number (Wallet.ownedExtraAlgo d))
   = Wallet.extraAlgoNeed willOptInTx sp - Wallet.ownedExtraAlgo d /\
   willOptInTx = true /\
   JS.sub (Wallet.extraAlgoNeed willOptInTx sp)
     (JS.Number (Wallet.ownedExtraAlgo d))
   <= Wallet.optin_min_balance + minFee sp).
Proof.
  intros Hfee Hlt.
  assert (Hneed : Wallet.extraAlgoNeed willOptInTx sp
                  = if willOptInTx then Wallet.optin_min_balance + minFee sp
                    else 0).
  { unfold Wallet.extraAlgoNeed, Wallet.optin_min_balance, JS.two53 in *.
    destruct willOptInTx; [ | reflexivity ].
    rewrite (Number_safe (minFee sp)) by (unfold JS.safe, JS.two53; lia).
    rewrite (add_safe 0 100000) by (unfold JS.safe, JS.two53; lia).
    rewrite add_safe by (unfold JS.safe, JS.two53; lia).
    reflexivity. }
  set (need := Wallet.extraAlgoNeed willOptInTx sp) in *.
  set (owned := Wallet.ownedExtraAlgo d) in *.
  assert (Hrange : 0 <= need <= JS.two53).
  { rewrite Hneed. unfold Wallet.optin_min_balance, JS.two53 in *.
    destruct willOptInTx; lia. }
  split.
  - unfold JS.sub. apply Number_pos.
    destruct (Z.lt_ge_cases owned 0) as [Hn | Hp].
    + pose proof (Number_neg owned Hn). lia.
    + rewrite (Number_safe owned) by (unfold JS.safe; lia). lia.
  - intros Hp.
    rewrite (Number_safe owned) by (unfold JS.safe; lia).
    rewrite sub_safe by (unfold JS.safe; lia).
    split; [ reflexivity | ].
    destruct willOptInTx; [ | lia ].
    split; [ reflexivity | lia ].
Qed.

Lemma funding_amount_positive_witness :
  0 < JS.sub (Wallet.extraAlgoNeed true Scenario.params)
         (JS.Number (Wallet.ownedExtraAlgo Scenario.huge_deficit)).
Proof.
  apply (funding_amount_positive true Scenario.params Scenario.huge_deficit);
    vm_compute; [ split; discriminate | reflexivity ].
Defined.

(* ===================================================================== *)
(** ** TransactionCrafter: where the lease is checked *)
(* ===================================================================== *)

Section LeaseCheck.
Context (W : World) {E : Encoder}.

















End LeaseCheck.



(** The simple payment takes a lease, described as an optional 32 byte
    lease, and hands none to its builder: one that decodes to three bytes
    changes nothing, the payment is signed and submitted. *)
Example transferAlgoToAddress_lease_not_passed_on :
  result_of (Wallet.transferAlgoToAddress (E := Scenario.encoder) Groups.W
               "alice" Scenario.bob_address 7 (Some Scenario.lease3) None St0)
  = result_of (Wallet.transferAlgoToAddress (E := Scenario.encoder) Groups.W
                 "alice" Scenario.bob_address 7 None None St0) /\
  result_of (Wallet.transferAlgoToAddress (E := Scenario.encoder) Groups.W
               "alice" Scenario.bob_address 7 (Some Scenario.lease3) None St0)
  = Ok "TXID".
Proof. split; vm_compute; reflexivity. Qed.
